(** * Knowledge-graph manager of the quantitative-research server

    A shallow embedding of [KnowledgeGraphManager] (src/index.ts and its
    compiled sibling build) and of the update paths of the session commit,
    together with the properties of the graph store, the search, the project
    overview, the status helpers and the commit.

    Conventions of the embedding.
    - A JavaScript string is a [string]: a sequence of 8-bit code units.
      [toLowerCase] and the white-space class of [/\s+/] are those of
      JavaScript restricted to code units below 256.
    - An array is a [list]; [push] appends at the end.
    - A [Set] of strings is a [gset string]; [has] is membership.
    - The manager keeps no state between calls: every method reads the whole
      graph file into a local variable [graph], works on it, and (when it
      mutates) writes it back.  The world threaded through the methods is the
      pair of the file content and of that local variable. A thrown [Error]
      aborts the method and leaves both as they are at the [throw]. *)

From stdpp Require Import base list strings gmap.
From Stdlib Require Import Ascii String.

Local Open Scope string_scope.
Local Open Scope list_scope.
Local Open Scope nat_scope.

(** ** JavaScript string primitives *)

Module JS.

(** Code units that [String.prototype.toLowerCase] maps to another one:
    [A-Z] and the Latin-1 capitals (all of 0xC0-0xDE but the sign 0xD7). *)
Definition isUpper (c : ascii) : bool :=
  let n := nat_of_ascii c in
  ((65 <=? n) && (n <=? 90) || (192 <=? n) && (n <=? 222) && negb (n =? 215))%nat.

Definition lowerChar (c : ascii) : ascii :=
  if isUpper c then ascii_of_nat (nat_of_ascii c + 32) else c.

Fixpoint toLowerCase (s : string) : string :=
  match s with
  | EmptyString => EmptyString
  | String c s' => String (lowerChar c) (toLowerCase s')
  end.

(** [s.startsWith(p)] *)
Definition startsWith (s p : string) : bool := String.prefix p s.

(** [s.includes(t)]: [t] occurs in [s] at some position. *)
Fixpoint includes (s t : string) : bool :=
  startsWith s t ||
  match s with
  | EmptyString => false
  | String _ s' => includes s' t
  end.

(** The class [\s] on code units below 256: TAB, LF, VT, FF, CR, SPACE and
    the no-break space. *)
Definition isWhiteSpace (c : ascii) : bool :=
  let n := nat_of_ascii c in
  ((9 <=? n) && (n <=? 13) || (n =? 32) || (n =? 160))%nat.

(** [s.split(/\s+/)]: the pieces between maximal runs of white space.  A
    leading or trailing run yields an empty piece, and the empty string
    splits into one empty piece.  [inSep] says that the previous code unit
    was white space, [cur] is the piece read so far. *)
Fixpoint split_from (inSep : bool) (cur : string) (s : string) : list string :=
  match s with
  | EmptyString => [cur]
  | String c s' =>
      if isWhiteSpace c then
        if inSep then split_from true cur s'
        else cur :: split_from true EmptyString s'
      else split_from false (cur +:+ String c EmptyString) s'
  end.

Definition split_whitespace (s : string) : list string :=
  split_from false EmptyString s.

(** [l.join(sep)] *)
Fixpoint join (sep : string) (l : list string) : string :=
  match l with
  | [] => EmptyString
  | [x] => x
  | x :: l' => x +:+ sep +:+ join sep l'
  end.

(** [o || d] on an optional string: [undefined] and the empty string are
    falsy. *)
Definition truthy (o : option string) : bool :=
  match o with
  | Some s => negb (String.eqb s EmptyString)
  | None => false
  end.

Definition orElse (o : option string) (d : string) : string :=
  match o with
  | Some s => if String.eqb s EmptyString then d else s
  | None => d
  end.

(** [s.split(sep)] for a one-character separator: the pieces between its
    occurrences; [cur] is the piece read so far. *)
Fixpoint split_at (sep : ascii) (cur : string) (s : string) : list string :=
  match s with
  | EmptyString => [cur]
  | String c s' =>
      if Ascii.eqb c sep then cur :: split_at sep EmptyString s'
      else split_at sep (cur +:+ String c EmptyString) s'
  end.

Definition split (s : string) (sep : ascii) : list string :=
  split_at sep EmptyString s.

(** [s.trim()]; on code units below 256 the characters trimmed are those of
    the class [\s]. *)
Fixpoint trimStart (s : string) : string :=
  match s with
  | EmptyString => EmptyString
  | String c s' => if isWhiteSpace c then trimStart s' else s
  end.

Fixpoint trimEnd (s : string) : string :=
  match s with
  | EmptyString => EmptyString
  | String c s' =>
      match trimEnd s' with
      | EmptyString => if isWhiteSpace c then EmptyString else String c EmptyString
      | rest => String c rest
      end
  end.

Definition trim (s : string) : string := trimEnd (trimStart s).

(** [s.replace(c, '')] for a one-character pattern: the first occurrence
    goes. *)
Fixpoint removeFirst (c : ascii) (s : string) : string :=
  match s with
  | EmptyString => EmptyString
  | String c' s' => if Ascii.eqb c' c then s' else String c' (removeFirst c s')
  end.

End JS.

(** ** JSON values

    A field of a staged object after [JSON.parse], as far as the commit
    looks at it: one of the four falsy values that [JSON.parse] can give,
    or any other value, held as the text that [JSON.stringify] prints for
    it.  (A parsed [-0] is falsy and prints as [0]; [JSON.parse] gives no
    [NaN].)  A field that is left out is [undefined], here [None]. *)

Module JSON.

Inductive Value :=
  | JsonNull
  | JsonFalse
  | JsonZero
  | JsonEmptyString
  | JsonTruthy (text : string).

(** [JSON.stringify(v)] *)
Definition stringify (v : Value) : string :=
  match v with
  | JsonNull => "null"
  | JsonFalse => "false"
  | JsonZero => "0"
  | JsonEmptyString =>
      String (ascii_of_nat 34) (String (ascii_of_nat 34) EmptyString)
  | JsonTruthy text => text
  end.

Definition truthy (v : option Value) : bool :=
  match v with
  | Some (JsonTruthy _) => true
  | _ => false
  end.

(** [`${JSON.stringify(v)}`]: [JSON.stringify(undefined)] is [undefined],
    which the template prints as the text [undefined]. *)
Definition stringifyField (v : option Value) : string :=
  match v with
  | Some value => stringify value
  | None => "undefined"
  end.

(** [`${JSON.stringify(v || {})}`] *)
Definition stringifyOrEmptyObject (v : option Value) : string :=
  if truthy v then stringifyField v else "{}".

End JSON.

(** ** Data model *)

Record Entity := mkEntity {
  name : string;
  entityType : string;
  observations : list string
}.

Record Relation := mkRelation {
  from : string;
  to : string;
  relationType : string
}.

Record KnowledgeGraph := mkGraph {
  entities : list Entity;
  relations : list Relation
}.

#[global] Instance Entity_eq_dec : EqDecision Entity.
Proof. solve_decision. Defined.

#[global] Instance Relation_eq_dec : EqDecision Relation.
Proof. solve_decision. Defined.

#[global] Instance KnowledgeGraph_eq_dec : EqDecision KnowledgeGraph.
Proof. solve_decision. Defined.

Definition emptyGraph : KnowledgeGraph := mkGraph [] [].

(** The type lists differ between the two builds under src/. *)
Class Deployment := {
  VALID_ENTITY_TYPES : list string;
  VALID_RELATION_TYPES : list string
}.

(** src/index.ts *)
Definition index_ts : Deployment := {|
  VALID_ENTITY_TYPES :=
    ["project"; "dataset"; "variable"; "hypothesis"; "statisticalTest";
     "result"; "analysisScript"; "visualization"; "model"; "literature";
     "researchQuestion"; "finding"; "participant"];
  VALID_RELATION_TYPES :=
    ["correlates_with"; "predicts"; "tests"; "analyzes"; "produces";
     "visualizes"; "contains"; "part_of"; "depends_on"; "supports";
     "contradicts"; "derived_from"; "controls_for"; "moderates"; "mediates";
     "implements"; "compares"; "includes"; "validates"; "cites"]
|}.

(** The compiled build, which adds the status and priority subsystem. *)
Definition compiled_build : Deployment := {|
  VALID_ENTITY_TYPES :=
    ["project"; "dataset"; "variable"; "hypothesis"; "statisticalTest";
     "result"; "analysisScript"; "visualization"; "model"; "literature";
     "researchQuestion"; "finding"; "participant"; "status"; "priority"];
  VALID_RELATION_TYPES :=
    ["contains"; "derived_from"; "analyzes"; "produced_by"; "supports";
     "contradicts"; "based_on"; "cites"; "addresses"; "precedes";
     "has_status"; "has_priority"]
|}.

Definition VALID_STATUS_VALUES : list string :=
  ["active"; "completed"; "pending"; "abandoned"].

Definition VALID_PRIORITY_VALUES : list string := ["high"; "low"].

(** [Array.prototype.includes] on strings *)
Definition includes (l : list string) (x : string) : bool := bool_decide (x ∈ l).

(** [Set.prototype.has] *)
Definition has (s : gset string) (x : string) : bool := bool_decide (x ∈ s).

(** ** Errors

    The errors the manager throws, with the text of their messages. *)

Inductive Error :=
  | InvalidEntityType (entityType : string) (valid : list string)
  | InvalidRelationType (relationType : string) (valid : list string)
  | EntityNotFound (entityName : string)
  | ProjectNotFound (projectName : string)
  | InvalidStatusValue (statusValue : string)
  | InvalidPriorityValue (priorityValue : string).

Definition message (e : Error) : string :=
  match e with
  | InvalidEntityType t valid =>
      "Invalid entity type: " +:+ t +:+ ". Valid types are: " +:+ JS.join ", " valid
  | InvalidRelationType t valid =>
      "Invalid relation type: " +:+ t +:+ ". Valid types are: " +:+ JS.join ", " valid
  | EntityNotFound n => "Entity '" +:+ n +:+ "' not found"
  | ProjectNotFound n => "Project '" +:+ n +:+ "' not found"
  | InvalidStatusValue v =>
      "Invalid status value: " +:+ v +:+ ". Valid values are: "
        +:+ JS.join ", " VALID_STATUS_VALUES
  | InvalidPriorityValue v =>
      "Invalid priority value: " +:+ v +:+ ". Valid values are: "
        +:+ JS.join ", " VALID_PRIORITY_VALUES
  end.

(** ** The world and the monad of the manager's methods *)

Record World := mkWorld {
  file : KnowledgeGraph;   (* content of MEMORY_FILE_PATH; no file = empty graph *)
  graph : KnowledgeGraph   (* the local variable [graph] of the running method *)
}.

Definition M (A : Type) : Type := World → (Error + A) * World.

#[global] Instance M_ret : MRet M := λ A (a : A) w, (inr a, w).

#[global] Instance M_bind : MBind M := λ A B (k : A → M B) (m : M A) w,
  match m w with
  | (inr a, w') => k a w'
  | (inl e, w') => (inl e, w')
  end.

Definition throw {A} (e : Error) : M A := λ w, (inl e, w).

(** [const graph = await this.loadGraph()] *)
Definition loadGraph : M unit := λ w, (inr tt, mkWorld (file w) (file w)).

(** [await this.saveGraph(graph)] *)
Definition saveGraph : M unit := λ w, (inr tt, mkWorld (graph w) (graph w)).

Definition getGraph : M KnowledgeGraph := λ w, (inr (graph w), w).

Definition setEntities (es : list Entity) : M unit :=
  λ w, (inr tt, mkWorld (file w) (mkGraph es (relations (graph w)))).

Definition setRelations (rs : list Relation) : M unit :=
  λ w, (inr tt, mkWorld (file w) (mkGraph (entities (graph w)) rs)).

(** [if (c) throw e] *)
Definition throwIf (c : bool) (e : Error) : M unit :=
  if c then throw e else mret tt.

(** [l.forEach(f)] and [for (const x of l) f(x)] *)
Fixpoint forEach {A} (l : list A) (f : A → M unit) : M unit :=
  match l with
  | [] => mret tt
  | x :: l' => f x ;; forEach l' f
  end.

(** The world in which a method starts when the file holds [g]. *)
Definition stored (g : KnowledgeGraph) : World := mkWorld g g.

(** ** The graph store: [KnowledgeGraphManager] *)

Record ObservationInput := mkObservationInput {
  entityName : string;
  contents : list string
}.

Record ObservationResult := mkObservationResult {
  resultEntityName : string;
  addedObservations : list string
}.

Record ObservationDeletion := mkObservationDeletion {
  deletionEntityName : string;
  deletedObservations : list string
}.

(** The key under which [createRelations] remembers a relation:
    [`${r.from}:${r.to}:${r.relationType}`]. *)
Definition relationKey (r : Relation) : string :=
  from r +:+ ":" +:+ to r +:+ ":" +:+ relationType r.

(** [graph.entities.find(e => e.name === n)], with the index of the entity
    found, which the in-place updates of its observations need. *)
Definition findEntity (n : string) (es : list Entity) : option (nat * Entity) :=
  list_find (λ e, name e = n) es.

(** [graph.entities.find(e => e.name === n && e.entityType === t)] *)
Definition findTyped (n t : string) (es : list Entity) : option Entity :=
  snd <$> list_find (λ e, name e = n ∧ entityType e = t) es.

Definition withObservations (e : Entity) (obs : list string) : Entity :=
  mkEntity (name e) (entityType e) obs.

Section Manager.

Context `{Deployment}.

Definition validateEntityType (entityType : string) : bool :=
  includes VALID_ENTITY_TYPES entityType.

Definition validateRelationType (relationType : string) : bool :=
  includes VALID_RELATION_TYPES relationType.

Definition createEntities (ents : list Entity) : M (list Entity) :=
  loadGraph ;;
  g ← getGraph;
  let existingEntityNames : gset string := list_to_set (name <$> entities g) in
  forEach ents (λ entity,
    throwIf (negb (validateEntityType (entityType entity)))
            (InvalidEntityType (entityType entity) VALID_ENTITY_TYPES)) ;;
  let newEntities :=
    filter (λ entity, has existingEntityNames (name entity) = false) ents in
  setEntities (entities g ++ newEntities) ;;
  saveGraph ;;
  mret newEntities.

Definition createRelations (rels : list Relation) : M (list Relation) :=
  loadGraph ;;
  g ← getGraph;
  let existingEntityNames : gset string := list_to_set (name <$> entities g) in
  forEach rels (λ relation,
    throwIf (negb (has existingEntityNames (from relation)))
            (EntityNotFound (from relation)) ;;
    throwIf (negb (has existingEntityNames (to relation)))
            (EntityNotFound (to relation)) ;;
    throwIf (negb (validateRelationType (relationType relation)))
            (InvalidRelationType (relationType relation) VALID_RELATION_TYPES)) ;;
  let existingRelations : gset string :=
    list_to_set (relationKey <$> relations g) in
  let newRelations :=
    filter (λ r, has existingRelations (relationKey r) = false) rels in
  setRelations (relations g ++ newRelations) ;;
  saveGraph ;;
  mret newRelations.

(** The loop of [addObservations]; [results] is the array filled so far. *)
Fixpoint addObservations_loop (obs : list ObservationInput)
    (results : list ObservationResult) : M (list ObservationResult) :=
  match obs with
  | [] => mret results
  | observation :: rest =>
      g ← getGraph;
      match findEntity (entityName observation) (entities g) with
      | None => throw (EntityNotFound (entityName observation))
      | Some (i, entity) =>
          let existingObservations : gset string :=
            list_to_set (observations entity) in
          let newObservations :=
            filter (λ o, has existingObservations o = false)
                   (contents observation) in
          setEntities
            (<[i := withObservations entity
                      (observations entity ++ newObservations)]> (entities g)) ;;
          addObservations_loop rest
            (results ++ [mkObservationResult (entityName observation)
                                             newObservations])
      end
  end.

Definition addObservations (obs : list ObservationInput)
    : M (list ObservationResult) :=
  loadGraph ;;
  results ← addObservations_loop obs [];
  saveGraph ;;
  mret results.

Definition deleteEntities (entityNames : list string) : M unit :=
  loadGraph ;;
  g ← getGraph;
  setEntities (filter (λ e, includes entityNames (name e) = false) (entities g)) ;;
  setRelations
    (filter (λ r, includes entityNames (from r) = false
                  ∧ includes entityNames (to r) = false) (relations g)) ;;
  saveGraph.

Definition deleteObservations (deletions : list ObservationDeletion) : M unit :=
  loadGraph ;;
  forEach deletions (λ deletion,
    g ← getGraph;
    match findEntity (deletionEntityName deletion) (entities g) with
    | Some (i, entity) =>
        setEntities
          (<[i := withObservations entity
                    (filter (λ o, includes (deletedObservations deletion) o = false)
                            (observations entity))]> (entities g))
    | None => mret tt
    end) ;;
  saveGraph.

Definition deleteRelations (rels : list Relation) : M unit :=
  loadGraph ;;
  g ← getGraph;
  setRelations
    (filter (λ r, ¬ Exists (λ toDelete,
                     from r = from toDelete
                     ∧ to r = to toDelete
                     ∧ relationType r = relationType toDelete) rels)
            (relations g)) ;;
  saveGraph.

Definition readGraph : M KnowledgeGraph :=
  loadGraph ;; getGraph.

End Manager.

(** ** Search *)

(** The callback of [terms.every] in [searchNodes]: the (lower-cased) term
    occurs in the entity's name, in its type or in one of its observations,
    each lower-cased. *)
Definition termMatches (entity : Entity) (term : string) : bool :=
  if JS.includes (JS.toLowerCase (name entity)) term then true
  else if JS.includes (JS.toLowerCase (entityType entity)) term then true
  else existsb (λ observation, JS.includes (JS.toLowerCase observation) term)
               (observations entity).

Definition searchTerms (query : string) : list string :=
  JS.split_whitespace (JS.toLowerCase query).

Definition matchesAllTerms (terms : list string) (entity : Entity) : bool :=
  forallb (termMatches entity) terms.

Definition searchNodes (query : string) : M KnowledgeGraph :=
  loadGraph ;;
  g ← getGraph;
  let terms := searchTerms query in
  let matchingEntityNames : gset string :=
    list_to_set (name <$> filter (λ entity, matchesAllTerms terms entity = true)
                                 (entities g)) in
  let matchingRelations :=
    filter (λ r, has matchingEntityNames (from r) = true
                 ∧ has matchingEntityNames (to r) = true) (relations g) in
  mret (mkGraph
          (filter (λ e, has matchingEntityNames (name e) = true) (entities g))
          matchingRelations).

Definition openNodes (names : list string) : M KnowledgeGraph :=
  loadGraph ;;
  g ← getGraph;
  mret (mkGraph
          (filter (λ e, includes names (name e) = true) (entities g))
          (filter (λ r, includes names (from r) = true
                        ∧ includes names (to r) = true) (relations g))).

(** ** Project overview *)

Record DataCollection := mkDataCollection {
  datasets : nat;
  totalVariables : nat;
  datasetList : list Entity
}.

Record Analysis := mkAnalysis {
  hypotheses : nat;
  models : nat;
  hypothesisList : list Entity;
  modelsList : list Entity
}.

Record ProjectOverview := mkProjectOverview {
  project : Entity;
  researchQuestions : list Entity;
  methodology : list string;
  participants : list string;
  dataCollection : DataCollection;
  analysis : Analysis;
  findings : list Entity
}.

(** One of the five loops "for each relation: if it is [part_of] into the
    project, find the entity it comes from with the wanted type and push it". *)
Definition partOfProject (g : KnowledgeGraph) (projectName type : string)
    : list Entity :=
  omap (λ relation,
          if decide (relationType relation = "part_of" ∧ to relation = projectName)
          then findTyped (from relation) type (entities g)
          else None)
       (relations g).

(** The inner loop of the variable count: the variables a dataset contains. *)
Definition datasetVariables (g : KnowledgeGraph) (dataset : Entity) : list Entity :=
  omap (λ relation,
          if decide (relationType relation = "contains"
                     ∧ from relation = name dataset)
          then findTyped (to relation) "variable" (entities g)
          else None)
       (relations g).

Definition countVariables (g : KnowledgeGraph) (dsets : list Entity) : nat :=
  foldl (λ total dataset, total + List.length (datasetVariables g dataset)) 0 dsets.

Definition mentionsAny (keywords : list string) (o : string) : bool :=
  existsb (λ k, JS.includes (JS.toLowerCase o) k) keywords.

Definition getProjectOverview (projectName : string) : M ProjectOverview :=
  loadGraph ;;
  g ← getGraph;
  match findTyped projectName "project" (entities g) with
  | None => throw (ProjectNotFound projectName)
  | Some project =>
      let researchQuestions := partOfProject g projectName "researchQuestion" in
      let datasets := partOfProject g projectName "dataset" in
      let hypotheses := partOfProject g projectName "hypothesis" in
      let models := partOfProject g projectName "model" in
      let findings := partOfProject g projectName "finding" in
      let methodologyObs :=
        filter (λ o, mentionsAny ["method"; "approach"; "design"] o = true)
               (observations project) in
      let participantInfo :=
        filter (λ o, mentionsAny ["participant"; "sample"; "subject"] o = true)
               (observations project) in
      let totalVariables := countVariables g datasets in
      mret (mkProjectOverview project researchQuestions methodologyObs
              participantInfo
              (mkDataCollection (List.length datasets) totalVariables datasets)
              (mkAnalysis (List.length hypotheses) (List.length models) hypotheses models)
              findings)
  end.

(** ** Status and priority subsystem (compiled build) *)

(** One round of the start-up loops: add the entity [prefix:value] of type
    [type] unless an entity of that name and type is there. *)
Definition ensureValueEntity (type : string) (es : list Entity) (value : string)
    : list Entity :=
  let valueName := type +:+ ":" +:+ value in
  if decide (Exists (λ e, name e = valueName ∧ entityType e = type) es) then es
  else es ++ [mkEntity valueName type ["A " +:+ value +:+ " " +:+ type +:+ " value"]].

Definition initializeStatusAndPriority : M unit :=
  loadGraph ;;
  g ← getGraph;
  setEntities (foldl (ensureValueEntity "status") (entities g) VALID_STATUS_VALUES) ;;
  g ← getGraph;
  setEntities (foldl (ensureValueEntity "priority") (entities g) VALID_PRIORITY_VALUES) ;;
  saveGraph.

Definition setEntityStatus (entityName statusValue : string) : M unit :=
  throwIf (negb (includes VALID_STATUS_VALUES statusValue))
          (InvalidStatusValue statusValue) ;;
  loadGraph ;;
  g ← getGraph;
  setRelations
    (filter (λ r, ¬ (from r = entityName ∧ relationType r = "has_status"))
            (relations g)
     ++ [mkRelation entityName ("status:" +:+ statusValue) "has_status"]) ;;
  saveGraph.

Definition setEntityPriority (entityName priorityValue : string) : M unit :=
  throwIf (negb (includes VALID_PRIORITY_VALUES priorityValue))
          (InvalidPriorityValue priorityValue) ;;
  loadGraph ;;
  g ← getGraph;
  setRelations
    (filter (λ r, ¬ (from r = entityName ∧ relationType r = "has_priority"))
            (relations g)
     ++ [mkRelation entityName ("priority:" +:+ priorityValue) "has_priority"]) ;;
  saveGraph.

(** The calls of the mutation interface, and the method each one runs. *)
Inductive Call :=
  | CreateEntities (ents : list Entity)
  | CreateRelations (rels : list Relation)
  | AddObservations (obs : list ObservationInput)
  | DeleteEntities (entityNames : list string)
  | DeleteObservations (deletions : list ObservationDeletion)
  | DeleteRelations (rels : list Relation)
  | InitializeStatusAndPriority
  | SetEntityStatus (entityName statusValue : string)
  | SetEntityPriority (entityName priorityValue : string).

Definition exec `{Deployment} (c : Call) : M unit :=
  match c with
  | CreateEntities ents => createEntities ents ;; mret tt
  | CreateRelations rels => createRelations rels ;; mret tt
  | AddObservations obs => addObservations obs ;; mret tt
  | DeleteEntities entityNames => deleteEntities entityNames
  | DeleteObservations deletions => deleteObservations deletions
  | DeleteRelations rels => deleteRelations rels
  | InitializeStatusAndPriority => initializeStatusAndPriority
  | SetEntityStatus n v => setEntityStatus n v
  | SetEntityPriority n v => setEntityPriority n v
  end.

(** ** The commit of a session (src/index.ts, stage [assembly])

    The commit reads the staged data and issues a sequence of calls of the
    manager.  Modelled here are its four update-or-create steps: one round
    of the loop over [datasetUpdates], of the loop over [hypothesisResults],
    of the loop over [modelUpdates], and the final project-status step.
    Optional fields of the staged JSON objects are [option string];
    [modelUpdate.metrics] is an optional JSON value. *)

Record DatasetUpdate := mkDatasetUpdate {
  du_name : string;
  du_size : option string;
  du_variables : option string;
  du_status : option string;
  du_description : option string
}.

Record HypothesisResult := mkHypothesisResult {
  hr_name : string;
  hr_status : string;
  hr_pValue : option string;
  hr_notes : option string;
  hr_testName : option string
}.

Record ModelUpdate := mkModelUpdate {
  mu_name : string;
  mu_type : option string;
  mu_metrics : option JSON.Value;
  mu_notes : option string;
  mu_datasetName : option string
}.

(** [if (field) observations.push(text)] *)
Definition pushIf (field : option string) (text : string) : list string :=
  if JS.truthy field then [text] else [].

(** The observations the update branch of a dataset gives the entity it
    re-creates, from those of the first entity the search returned. *)
Definition datasetObservations (date : string) (datasetUpdate : DatasetUpdate)
    (datasetEntity : Entity) : list string :=
  filter (λ o, JS.startsWith o "size:" = false
               ∧ JS.startsWith o "variables:" = false
               ∧ JS.startsWith o "updated:" = false
               ∧ JS.startsWith o "status:" = false)
         (observations datasetEntity)
  ++ ["size:" +:+ JS.orElse (du_size datasetUpdate) "unknown";
      "variables:" +:+ JS.orElse (du_variables datasetUpdate) "unknown";
      "updated:" +:+ date]
  ++ pushIf (du_status datasetUpdate)
            ("status:" +:+ default EmptyString (du_status datasetUpdate))
  ++ pushIf (du_description datasetUpdate)
            (default EmptyString (du_description datasetUpdate)).

Definition hypothesisObservations (date : string) (hypothesis : HypothesisResult)
    (hypEntity : Entity) : list string :=
  filter (λ o, JS.startsWith o "status:" = false
               ∧ JS.startsWith o "p-value:" = false
               ∧ JS.startsWith o "updated:" = false)
         (observations hypEntity)
  ++ ["status:" +:+ hr_status hypothesis; "updated:" +:+ date]
  ++ pushIf (hr_pValue hypothesis)
            ("p-value:" +:+ default EmptyString (hr_pValue hypothesis))
  ++ pushIf (hr_notes hypothesis) (default EmptyString (hr_notes hypothesis)).

Definition modelObservations (date : string) (modelUpdate : ModelUpdate)
    (modelEntity : Entity) : list string :=
  filter (λ o, JS.startsWith o "performance:" = false
               ∧ JS.startsWith o "updated:" = false)
         (observations modelEntity)
  ++ ["performance:" +:+ JSON.stringifyField (mu_metrics modelUpdate);
      "updated:" +:+ date]
  ++ pushIf (mu_notes modelUpdate) (default EmptyString (mu_notes modelUpdate)).

Definition projectObservations (date projectStatus : string)
    (projectObservation : option string) (projectEntity : Entity) : list string :=
  filter (λ o, JS.startsWith o "status:" = false
               ∧ JS.startsWith o "updated:" = false)
         (observations projectEntity)
  ++ ["status:" +:+ projectStatus; "updated:" +:+ date]
  ++ pushIf projectObservation (default EmptyString projectObservation).

Section Commit.

Context `{Deployment}.

(** [if (field) await knowledgeGraphManager.createRelations([r])] *)
Definition linkIf (field : option string) (r : Relation) : M unit :=
  if JS.truthy field then createRelations [r] ;; mret tt else mret tt.

Definition commitDatasetUpdate (date project : string)
    (datasetUpdate : DatasetUpdate) : M unit :=
  datasetGraph ← searchNodes ("name:" +:+ du_name datasetUpdate);
  match entities datasetGraph with
  | datasetEntity :: _ =>
      deleteEntities [du_name datasetUpdate] ;;
      createEntities
        [mkEntity (du_name datasetUpdate) "dataset"
                  (datasetObservations date datasetUpdate datasetEntity)] ;;
      mret tt
  | [] =>
      createEntities
        [mkEntity (du_name datasetUpdate) "dataset"
           ["size:" +:+ JS.orElse (du_size datasetUpdate) "unknown";
            "variables:" +:+ JS.orElse (du_variables datasetUpdate) "unknown";
            "created:" +:+ date;
            "status:" +:+ JS.orElse (du_status datasetUpdate) "active";
            JS.orElse (du_description datasetUpdate) "No description"]] ;;
      createRelations [mkRelation project (du_name datasetUpdate) "contains"] ;;
      mret tt
  end.

Definition commitHypothesisResult (date project : string)
    (hypothesis : HypothesisResult) : M unit :=
  hypGraph ← searchNodes ("name:" +:+ hr_name hypothesis);
  match entities hypGraph with
  | hypEntity :: _ =>
      deleteEntities [hr_name hypothesis] ;;
      createEntities
        [mkEntity (hr_name hypothesis) "hypothesis"
                  (hypothesisObservations date hypothesis hypEntity)] ;;
      mret tt
  | [] =>
      createEntities
        [mkEntity (hr_name hypothesis) "hypothesis"
           (["status:" +:+ hr_status hypothesis;
             "created:" +:+ date;
             "updated:" +:+ date]
            ++ pushIf (hr_pValue hypothesis)
                      ("p-value:" +:+ default EmptyString (hr_pValue hypothesis))
            ++ [JS.orElse (hr_notes hypothesis) "No notes";
                "project:" +:+ project])] ;;
      createRelations [mkRelation project (hr_name hypothesis) "contains"] ;;
      mret tt
  end ;;
  linkIf (hr_testName hypothesis)
         (mkRelation (hr_name hypothesis)
                     (default EmptyString (hr_testName hypothesis)) "tested_by").

Definition commitModelUpdate (date project : string)
    (modelUpdate : ModelUpdate) : M unit :=
  modelGraph ← searchNodes ("name:" +:+ mu_name modelUpdate);
  match entities modelGraph with
  | modelEntity :: _ =>
      deleteEntities [mu_name modelUpdate] ;;
      createEntities
        [mkEntity (mu_name modelUpdate) "model"
                  (modelObservations date modelUpdate modelEntity)] ;;
      mret tt
  | [] =>
      createEntities
        [mkEntity (mu_name modelUpdate) "model"
           ["type:" +:+ JS.orElse (mu_type modelUpdate) "unknown";
            "performance:" +:+ JSON.stringifyOrEmptyObject (mu_metrics modelUpdate);
            "created:" +:+ date;
            "updated:" +:+ date;
            JS.orElse (mu_notes modelUpdate) "No notes";
            "project:" +:+ project]] ;;
      createRelations [mkRelation project (mu_name modelUpdate) "contains"] ;;
      linkIf (mu_datasetName modelUpdate)
             (mkRelation (mu_name modelUpdate)
                         (default EmptyString (mu_datasetName modelUpdate))
                         "trained_on")
  end.

Definition commitProjectStatus (date project projectStatus : string)
    (projectObservation : option string) : M unit :=
  projectGraph ← searchNodes ("name:" +:+ project);
  match entities projectGraph with
  | projectEntity :: _ =>
      deleteEntities [project] ;;
      createEntities
        [mkEntity project "project"
                  (projectObservations date projectStatus projectObservation
                                       projectEntity)] ;;
      mret tt
  | [] => mret tt
  end.

End Commit.

(** One of the four steps. *)
Inductive UpdateStep :=
  | DatasetStep (date project : string) (datasetUpdate : DatasetUpdate)
  | HypothesisStep (date project : string) (hypothesis : HypothesisResult)
  | ModelStep (date project : string) (modelUpdate : ModelUpdate)
  | ProjectStep (date project projectStatus : string)
                (projectObservation : option string).

Definition runStep `{Deployment} (step : UpdateStep) : M unit :=
  match step with
  | DatasetStep date project u => commitDatasetUpdate date project u
  | HypothesisStep date project h => commitHypothesisResult date project h
  | ModelStep date project m => commitModelUpdate date project m
  | ProjectStep date project status observation =>
      commitProjectStatus date project status observation
  end.

(** The name of the entity the step is about. *)
Definition stepEntity (step : UpdateStep) : string :=
  match step with
  | DatasetStep _ _ u => du_name u
  | HypothesisStep _ _ h => hr_name h
  | ModelStep _ _ m => mu_name m
  | ProjectStep _ project _ _ => project
  end.

(** The entity the update branch of the step re-creates when [found] is the
    first entity its search returned. *)
Definition stepRecreates (step : UpdateStep) (found : Entity) : Entity :=
  match step with
  | DatasetStep date _ u =>
      mkEntity (du_name u) "dataset" (datasetObservations date u found)
  | HypothesisStep date _ h =>
      mkEntity (hr_name h) "hypothesis" (hypothesisObservations date h found)
  | ModelStep date _ m =>
      mkEntity (mu_name m) "model" (modelObservations date m found)
  | ProjectStep date project status observation =>
      mkEntity project "project" (projectObservations date status observation found)
  end.

(** The relations the update branch of the step passes to [createRelations]
    after it has re-created the entity. *)
Definition stepLinks (step : UpdateStep) : list Relation :=
  match step with
  | HypothesisStep _ _ h =>
      if JS.truthy (hr_testName h)
      then [mkRelation (hr_name h) (default EmptyString (hr_testName h)) "tested_by"]
      else []
  | _ => []
  end.

(** What follows a step in the commit: further calls of the mutation
    interface and searches whose result decides how to go on. *)
Inductive Script :=
  | Done
  | Mutate (c : Call) (next : Script)
  | Search (query : string) (next : KnowledgeGraph → Script).

Fixpoint run `{Deployment} (s : Script) : M unit :=
  match s with
  | Done => mret tt
  | Mutate c next => exec c ;; run next
  | Search query next => found ← searchNodes query; run (next found)
  end.



(** The entities the search of a step returns. *)
Definition searchHits (query : string) (w : World) : list Entity :=
  match (searchNodes query w).1 with
  | inr found => entities found
  | inl _ => []
  end.

(** ** Reading status and priority (compiled build)

    The two getters answer [null] without an edge, and otherwise whatever
    [split(':')[1]] gives on the name of the edge's target, which is
    [undefined] when that name has no colon.  [None] stands for [null],
    [Some None] for [undefined]. *)

Definition getEntityStatus (entityName : string) (g : KnowledgeGraph)
    : option (option string) :=
  match list_find (λ r, from r = entityName ∧ relationType r = "has_status")
                  (relations g) with
  | Some (_, statusRelation) => Some (JS.split (to statusRelation) ":" !! 1)
  | None => None
  end.

Definition getEntityPriority (entityName : string) (g : KnowledgeGraph)
    : option (option string) :=
  match list_find (λ r, from r = entityName ∧ relationType r = "has_priority")
                  (relations g) with
  | Some (_, priorityRelation) => Some (JS.split (to priorityRelation) ":" !! 1)
  | None => None
  end.

(** ** Views of a dataset, of hypotheses and of a variable (src/index.ts)

    These methods load the graph, never save it, and compute their answer
    from the graph loaded: they are functions of that graph. *)

Inductive ViewError :=
  | ViewProjectNotFound (projectName : string)
  | DatasetNotFound (datasetName : string)
  | HypothesisNotFound (hypothesisName : string)
  | VariableNotFound (variableName : string)
  | DoesNotContain (datasetName variableName : string).

Definition viewMessage (e : ViewError) : string :=
  match e with
  | ViewProjectNotFound n => "Project '" +:+ n +:+ "' not found"
  | DatasetNotFound n => "Dataset '" +:+ n +:+ "' not found"
  | HypothesisNotFound n => "Hypothesis '" +:+ n +:+ "' not found"
  | VariableNotFound n => "Variable '" +:+ n +:+ "' not found"
  | DoesNotContain d v =>
      "Dataset '" +:+ d +:+ "' does not contain variable '" +:+ v +:+ "'"
  end.

(** The loop "for each relation of type [relType] into [target], find the
    entity it comes from with the wanted type and push it". *)
Definition sources (g : KnowledgeGraph) (relType target type : string)
    : list Entity :=
  omap (λ relation,
          if decide (relationType relation = relType ∧ to relation = target)
          then findTyped (from relation) type (entities g)
          else None)
       (relations g).

(** The loop "for each relation of type [relType] out of [source], find the
    entity it goes to with the wanted type and push it". *)
Definition targets (g : KnowledgeGraph) (relType source type : string)
    : list Entity :=
  omap (λ relation,
          if decide (relationType relation = relType ∧ from relation = source)
          then findTyped (to relation) type (entities g)
          else None)
       (relations g).

(** [observations.find(o => o.startsWith(p1) || o.startsWith(p2) || ...)] *)
Definition findPrefixed (prefixes : list string) (obs : list string)
    : option string :=
  List.find (λ o, existsb (JS.startsWith o) prefixes) obs.

(** [o.split(':')[1]?.trim()] and [o.split('=')[1]?.trim()] *)
Definition afterColon (o : string) : option string :=
  JS.trim <$> (JS.split o ":" !! 1).

Definition afterEquals (o : string) : option string :=
  JS.trim <$> (JS.split o "=" !! 1).

(** [o.split(':')[1]?.trim() || o.split('=')[1]?.trim()]: the second value,
    which may be [undefined] or empty, when the first is [undefined] or
    empty. *)
Definition colonOrEquals (o : string) : option string :=
  if JS.truthy (afterColon o) then afterColon o else afterEquals o.

(** [obs ? obs.split(':')[1].trim() : 'unknown'] for an observation found by
    a prefix that ends in a colon, so that [split(':')[1]] is defined. *)
Definition colonField (found : option string) : string :=
  match found with
  | Some o => default EmptyString (afterColon o)
  | None => "unknown"
  end.

(** [v.observations.some(o => o.toLowerCase().includes(k1) || ...)] *)
Definition someMentions (keywords : list string) (v : Entity) : bool :=
  existsb (mentionsAny keywords) (observations v).

Module DatasetAnalysis.

Record Metadata := mkMetadata {
  size : option string;
  source : string;
  date : string;
  status : string
}.

Record Variables := mkVariables {
  count : nat;
  independent : list Entity;
  dependent : list Entity;
  control : list Entity;
  other : list Entity
}.

Record Analyses := mkAnalyses {
  statisticalTests : list Entity;
  models : list Entity;
  visualizations : list Entity
}.

Record Result := mkResult {
  dataset : Entity;
  metadata : Metadata;
  variables : Variables;
  analysis : Analyses
}.

(** The elements of [variables] are found by name in the entity list, so
    two of them are the same object exactly when they are equal; the
    [includes] of the [other] bucket is modelled by membership. *)
Definition getDatasetAnalysis (datasetName : string) (g : KnowledgeGraph)
    : ViewError + Result :=
  match findTyped datasetName "dataset" (entities g) with
  | None => inl (DatasetNotFound datasetName)
  | Some dataset =>
      let variables := targets g "contains" datasetName "variable" in
      let statisticalTests := sources g "analyzes" datasetName "statisticalTest" in
      let models := sources g "analyzes" datasetName "model" in
      let visualizations := sources g "visualizes" datasetName "visualization" in
      let size :=
        match findPrefixed ["Size:"; "n="; "N="] (observations dataset) with
        | Some sizeObs => colonOrEquals sizeObs
        | None => Some "unknown"
        end in
      let source := colonField (findPrefixed ["Source:"] (observations dataset)) in
      let date :=
        colonField (findPrefixed ["Date:"; "Collected:"] (observations dataset)) in
      let status := colonField (findPrefixed ["Status:"] (observations dataset)) in
      let independentVariables :=
        filter (λ v, someMentions ["independent"; "predictor"; "iv"] v = true)
               variables in
      let dependentVariables :=
        filter (λ v, someMentions ["dependent"; "outcome"; "dv"] v = true)
               variables in
      let controlVariables :=
        filter (λ v, someMentions ["control"; "covariate"] v = true) variables in
      let otherVariables :=
        filter (λ v, (v ∉ independentVariables) ∧ (v ∉ dependentVariables)
                     ∧ (v ∉ controlVariables)) variables in
      inr (mkResult dataset
             (mkMetadata size source date status)
             (mkVariables (List.length variables) independentVariables
                          dependentVariables controlVariables otherVariables)
             (mkAnalyses statisticalTests models visualizations))
  end.

End DatasetAnalysis.

Module HypothesisTests.

Record TestResults := mkTestResults {
  test : Entity;
  results : list Entity
}.

Record HypothesisAnalysis := mkHypothesisAnalysis {
  hypothesis : Entity;
  status : string;
  isSupported : bool;
  tests : list TestResults
}.

Record Result := mkResult {
  project : Entity;
  hypotheses : list HypothesisAnalysis
}.

(** The callback of [hypotheses.map]. *)
Definition analyse (g : KnowledgeGraph) (hypothesis : Entity)
    : HypothesisAnalysis :=
  let tests := sources g "tests" (name hypothesis) "statisticalTest" in
  let testResults :=
    (λ test, mkTestResults test (targets g "produces" (name test) "result"))
      <$> tests in
  let status := colonField (findPrefixed ["Status:"] (observations hypothesis)) in
  mkHypothesisAnalysis hypothesis status (String.eqb status "supported")
                       testResults.

(** [hypothesisName] is [None] when the argument is left out; the empty
    string is falsy too. *)
Definition getHypothesisTests (projectName : string)
    (hypothesisName : option string) (g : KnowledgeGraph) : ViewError + Result :=
  match findTyped projectName "project" (entities g) with
  | None => inl (ViewProjectNotFound projectName)
  | Some project =>
      if JS.truthy hypothesisName then
        let wanted := default EmptyString hypothesisName in
        match findTyped wanted "hypothesis" (entities g) with
        | None => inl (HypothesisNotFound wanted)
        | Some hypothesis => inr (mkResult project [analyse g hypothesis])
        end
      else
        inr (mkResult project
               (analyse g <$> sources g "part_of" projectName "hypothesis"))
  end.

End HypothesisTests.

Module VariableDistribution.

Record Metadata := mkMetadata {
  dataType : string;
  role : string;
  scale : string
}.

Record Distribution := mkDistribution {
  descriptiveStats : list (string * string);
  normality : list string
}.

Record Result := mkResult {
  variable : Entity;
  datasets : list Entity;
  metadata : Metadata;
  distribution : Distribution;
  visualizations : list Entity
}.

Definition statKeys : list string :=
  ["Mean:"; "Median:"; "Mode:"; "Range:"; "Minimum:"; "Maximum:";
   "Standard Deviation:"; "Variance:"; "Skewness:"; "Kurtosis:"; "n="; "N="].

(** One round of the loop over [statKeys]: the entry it adds to
    [descriptiveStats], if any.  The keys of the object are distinct, so the
    object is the list of its entries in the order they are added. *)
Definition statEntry (obs : list string) (key : string)
    : option (string * string) :=
  match List.find (λ o, JS.startsWith o key) obs with
  | Some o =>
      if JS.truthy (colonOrEquals o)
      then Some (JS.removeFirst ":" key, default EmptyString (colonOrEquals o))
      else None
  | None => None
  end.

(** [datasetName] is [None] when the argument is left out; the empty string
    is falsy too. *)
Definition getVariableDistribution (variableName : string)
    (datasetName : option string) (g : KnowledgeGraph) : ViewError + Result :=
  match findTyped variableName "variable" (entities g) with
  | None => inl (VariableNotFound variableName)
  | Some variable =>
      let datasetsOrError : ViewError + list Entity :=
        if JS.truthy datasetName then
          let wanted := default EmptyString datasetName in
          match findTyped wanted "dataset" (entities g) with
          | None => inl (DatasetNotFound wanted)
          | Some dataset =>
              match list_find (λ r, relationType r = "contains"
                                    ∧ from r = wanted ∧ to r = variableName)
                              (relations g) with
              | None => inl (DoesNotContain wanted variableName)
              | Some _ => inr [dataset]
              end
          end
        else inr (sources g "contains" variableName "dataset") in
      match datasetsOrError with
      | inl e => inl e
      | inr datasets =>
          let descriptiveStats := omap (statEntry (observations variable)) statKeys in
          let normalityObs :=
            filter (λ o, mentionsAny ["normality"; "shapiro"; "kolmogorov"] o = true)
                   (observations variable) in
          let visualizations := sources g "visualizes" variableName "visualization" in
          let dataType :=
            colonField (findPrefixed ["Type:"; "Data Type:"] (observations variable)) in
          let role := colonField (findPrefixed ["Role:"] (observations variable)) in
          let scale :=
            colonField (findPrefixed ["Scale:"; "Measurement Scale:"]
                                     (observations variable)) in
          inr (mkResult variable datasets
                 (mkMetadata dataType role scale)
                 (mkDistribution descriptiveStats normalityObs)
                 visualizations)
      end
  end.

End VariableDistribution.

(** ** The tool [buildcontext] (src/index.ts)

    The handler checks the types itself, with a shorter message than the
    manager's, then calls the manager; whatever is thrown is caught and
    returned as [{ success: false, error: message }]. *)

Inductive ToolResult (A : Type) :=
  | ToolSuccess (created : A)
  | ToolFailure (error : string).

Arguments ToolSuccess {A} created.
Arguments ToolFailure {A} error.

Section BuildContext.

Context `{Deployment}.

(** Runs a manager method inside the handler's [try]. *)
Definition caught {A} (m : M A) (w : World) : ToolResult A * World :=
  match m w with
  | (inr a, w') => (ToolSuccess a, w')
  | (inl e, w') => (ToolFailure (message e), w')
  end.

Definition buildcontext_entities (data : list Entity) (w : World)
    : ToolResult (list Entity) * World :=
  match List.find (λ entity, negb (validateEntityType (entityType entity))) data with
  | Some entity =>
      (ToolFailure ("Invalid entity type: " +:+ entityType entity), w)
  | None => caught (createEntities data) w
  end.

Definition buildcontext_relations (data : list Relation) (w : World)
    : ToolResult (list Relation) * World :=
  match List.find (λ relation, negb (validateRelationType (relationType relation)))
                  data with
  | Some relation =>
      (ToolFailure ("Invalid relation type: " +:+ relationType relation), w)
  | None => caught (createRelations data) w
  end.

End BuildContext.

(** ** The dataset step of the commit in the compiled build

    The compiled build updates an existing dataset in place: it deletes the
    observations of the entity found, adds the rebuilt ones and sets the
    status through [setEntityStatus]. *)

Module CompiledBuild.

Definition datasetObservations (datasetUpdate : DatasetUpdate)
    (datasetEntity : Entity) : list string :=
  filter (λ o, JS.startsWith o "size:" = false
               ∧ JS.startsWith o "variables:" = false)
         (observations datasetEntity)
  ++ ["size:" +:+ JS.orElse (du_size datasetUpdate) "unknown";
      "variables:" +:+ JS.orElse (du_variables datasetUpdate) "unknown"]
  ++ pushIf (du_description datasetUpdate)
            (default EmptyString (du_description datasetUpdate)).

(** [if (datasetUpdate.status) await setEntityStatus(name, status)] *)
Definition setStatusIf (entityName : string) (status : option string) : M unit :=
  if JS.truthy status
  then setEntityStatus entityName (default EmptyString status)
  else mret tt.

Section Commit.

Context `{Deployment}.

Definition commitDatasetUpdate (project : string) (datasetUpdate : DatasetUpdate)
    : M unit :=
  datasetGraph ← searchNodes ("name:" +:+ du_name datasetUpdate);
  match entities datasetGraph with
  | datasetEntity :: _ =>
      deleteObservations
        [mkObservationDeletion (du_name datasetUpdate)
                               (observations datasetEntity)] ;;
      addObservations
        [mkObservationInput (du_name datasetUpdate)
                            (datasetObservations datasetUpdate datasetEntity)] ;;
      setStatusIf (du_name datasetUpdate) (du_status datasetUpdate)
  | [] =>
      createEntities
        [mkEntity (du_name datasetUpdate) "dataset"
           ["size:" +:+ JS.orElse (du_size datasetUpdate) "unknown";
            "variables:" +:+ JS.orElse (du_variables datasetUpdate) "unknown";
            JS.orElse (du_description datasetUpdate) "No description"]] ;;
      setStatusIf (du_name datasetUpdate) (du_status datasetUpdate) ;;
      createRelations [mkRelation project (du_name datasetUpdate) "contains"] ;;
      mret tt
  end.

End Commit.

End CompiledBuild.

(** ** Recording a stage of a session (src/index.ts, tool [endsession])

    A session is the array of the items recorded for it.  An item is a stage
    result tagged with a [type]; the handler only ever adds items of type
    [analysis_stage].  [Data] is the type of the stage data, which the
    recording does not look into. *)

Module Session.

Section Stages.

Variable Data : Type.

Record StageResult := mkStageResult {
  stage : string;
  stageNumber : nat;
  analysis : string;
  stageData : Data;
  completed : bool
}.

Record Item := mkItem {
  type : string;
  result : StageResult
}.

(** [{ type: 'analysis_stage', ...stageResult }] *)
Definition analysisStage (stageResult : StageResult) : Item :=
  mkItem "analysis_stage" stageResult.

(** The update of [sessionState] in the handler.  [isRevision] is [false]
    when the parameter is left out.  [revisesStage] is [None] when it is
    left out; the schema of the tool, [z.number().int().positive()], lets
    the handler run with a positive integer only, so that a value given is
    truthy. *)
Definition recordStage (isRevision : bool) (revisesStage : option positive)
    (stageResult : StageResult) (sessionState : list Item) : list Item :=
  match revisesStage with
  | Some stageNumber =>
      if isRevision then
        let analysisStages :=
          filter (λ item, type item = "analysis_stage") sessionState in
        let revised :=
          if Pos.to_nat stageNumber <=? List.length analysisStages
          then <[Pos.to_nat stageNumber - 1 := analysisStage stageResult]>
                 analysisStages
          else analysisStages ++ [analysisStage stageResult] in
        filter (λ item, type item ≠ "analysis_stage") sessionState ++ revised
      else sessionState ++ [analysisStage stageResult]
  | None => sessionState ++ [analysisStage stageResult]
  end.

(** [stages.find(s => s.stage === kind)], by which the assembly and the
    list of recent sessions pick the stage of a kind. *)
Definition findStage (kind : string) (stages : list Item) : option Item :=
  List.find (λ s, String.eqb (stage (result s)) kind) stages.

End Stages.

Arguments stage {Data} _.
Arguments stageNumber {Data} _.
Arguments analysis {Data} _.
Arguments stageData {Data} _.
Arguments completed {Data} _.
Arguments mkStageResult {Data} _ _ _ _ _.
Arguments type {Data} _.
Arguments result {Data} _.
Arguments mkItem {Data} _ _.
Arguments analysisStage {Data} _.
Arguments recordStage {Data} _ _ _ _.
Arguments findStage {Data} _ _.

End Session.

(** ** Vocabulary of the properties *)

(** An entity of that name is in the graph. *)
Definition present (g : KnowledgeGraph) (n : string) : Prop :=
  n ∈ name <$> entities g.

(** Both endpoints of every relation name entities of the graph. *)
Definition referentialIntegrity (g : KnowledgeGraph) : Prop :=
  Forall (λ r, present g (from r) ∧ present g (to r)) (relations g).

(** The relation starts or ends at the entity of that name. *)
Definition touches (r : Relation) (n : string) : Prop :=
  from r = n ∨ to r = n.

(** Number of copies of [x] in [l]. *)
Definition copies `{EqDecision A} (x : A) (l : list A) : nat :=
  List.length (filter (λ y, y = x) l).

(** [t] occurs in [s]. *)
Definition occursIn (t s : string) : Prop :=
  ∃ before after, s = before +:+ t +:+ after.

(** What the validation callback of [createEntities] does with one entity. *)
Definition entityFailure `{Deployment} (entity : Entity) : option Error :=
  if validateEntityType (entityType entity) then None
  else Some (InvalidEntityType (entityType entity) VALID_ENTITY_TYPES).

(** What the validation callback of [createRelations] does with one relation
    when the entities of the graph are [es]: the three checks in their order. *)
Definition relationFailure `{Deployment} (es : list Entity) (relation : Relation)
    : option Error :=
  if negb (bool_decide (from relation ∈ name <$> es))
  then Some (EntityNotFound (from relation))
  else if negb (bool_decide (to relation ∈ name <$> es))
  then Some (EntityNotFound (to relation))
  else if negb (validateRelationType (relationType relation))
  then Some (InvalidRelationType (relationType relation) VALID_RELATION_TYPES)
  else None.

(** The failure of the first element of [l] that has one. *)
Fixpoint firstFailure {A} (check : A → option Error) (l : list A) : option Error :=
  match l with
  | [] => None
  | x :: l' =>
      match check x with
      | Some e => Some e
      | None => firstFailure check l'
      end
  end.

(** The code units of a string. *)
Fixpoint codeUnits (s : string) : list ascii :=
  match s with
  | EmptyString => []
  | String c s' => c :: codeUnits s'
  end.

(** The entity matches the query of [searchNodes]: every term of the query
    occurs in its lower-cased name, in its lower-cased type or in one of its
    lower-cased observations. *)
Definition matchesQuery (query : string) (e : Entity) : Prop :=
  ∀ term, term ∈ searchTerms query →
    occursIn term (JS.toLowerCase (name e))
    ∨ occursIn term (JS.toLowerCase (entityType e))
    ∨ ∃ o, o ∈ observations e ∧ occursIn term (JS.toLowerCase o).

(** The graph has an entity of that name and type. *)
Definition hasTyped (g : KnowledgeGraph) (n t : string) : Prop :=
  Exists (λ e, name e = n ∧ entityType e = t) (entities g).

(** The [part_of] edges that link a dataset to the project. *)
Definition datasetEdges (g : KnowledgeGraph) (projectName : string)
    : list Relation :=
  filter (λ r, relationType r = "part_of" ∧ to r = projectName
               ∧ hasTyped g (from r) "dataset") (relations g).

(** The [contains] edges from the dataset of that name to a variable. *)
Definition variableEdges (g : KnowledgeGraph) (datasetName : string)
    : list Relation :=
  filter (λ r, relationType r = "contains" ∧ from r = datasetName
               ∧ hasTyped g (to r) "variable") (relations g).

(** What a call of a status or priority setter needs for its new edge to join
    two entities of the graph: the subject and the value entity are there.
    The other calls need nothing. *)
Definition endpointsPresent (c : Call) (g : KnowledgeGraph) : Prop :=
  match c with
  | SetEntityStatus n v =>
      v ∈ VALID_STATUS_VALUES → present g n ∧ present g ("status:" +:+ v)
  | SetEntityPriority n v =>
      v ∈ VALID_PRIORITY_VALUES → present g n ∧ present g ("priority:" +:+ v)
  | _ => True
  end.

(** The graph file after a call, whether it returned or threw. *)
Definition fileAfter `{Deployment} (c : Call) (g : KnowledgeGraph) : KnowledgeGraph :=
  file (exec c (stored g)).2.

(** The graphs obtained from the empty graph by calls of the mutation
    interface in which every status or priority setter finds its endpoints. *)
Inductive reachable `{Deployment} : KnowledgeGraph → Prop :=
  | reachable_empty : reachable emptyGraph
  | reachable_call (c : Call) (g : KnowledgeGraph) :
      reachable g → endpointsPresent c g → reachable (fileAfter c g).

(** The first entity named as the target of [o] holds every content of
    [o]. *)
Definition covered (g : KnowledgeGraph) (o : ObservationInput) : Prop :=
  ∃ i e, findEntity (entityName o) (entities g) = Some (i, e)
         ∧ ∀ c, c ∈ contents o → c ∈ observations e.







(** ** Basic facts *)

Ltac munfold :=
  unfold mbind, M_bind, mret, M_ret, loadGraph, saveGraph, getGraph,
    setEntities, setRelations, throwIf, throw in *.

Lemma has_list_to_set (l : list string) (x : string) :
  has (list_to_set l) x = bool_decide (x ∈ l).
Proof.
  unfold has. apply bool_decide_ext. apply elem_of_list_to_set.
Qed.

Lemma includes_true (l : list string) (x : string) :
  includes l x = true ↔ x ∈ l.
Proof. unfold includes. apply bool_decide_eq_true. Qed.

Lemma includes_false (l : list string) (x : string) :
  includes l x = false ↔ x ∉ l.
Proof. unfold includes. apply bool_decide_eq_false. Qed.

Lemma forEach_validate {A} (check : A → option Error) (f : A → M unit)
    (l : list A) (w : World) :
  (∀ x w0, f x w0 = (match check x with Some e => inl e | None => inr tt end, w0)) →
  forEach l f w
  = (match firstFailure check l with Some e => inl e | None => inr tt end, w).
Proof.
  intros Hf. induction l as [|x l IH]; simpl; [done|].
  munfold. rewrite Hf. destruct (check x); [done|]. apply IH.
Qed.

Lemma firstFailure_None {A} (check : A → option Error) (l : list A) :
  firstFailure check l = None ↔ Forall (λ x, check x = None) l.
Proof.
  induction l as [|x l IH]; simpl.
  - split; [constructor|done].
  - destruct (check x) eqn:E.
    + split; [done|]. intros HF. inversion HF; congruence.
    + rewrite IH. split; [by constructor|]. by inversion 1.
Qed.

Lemma firstFailure_Some {A} (check : A → option Error) (l : list A) (e : Error) :
  firstFailure check l = Some e ↔
  ∃ l1 x l2, l = l1 ++ x :: l2 ∧ Forall (λ y, check y = None) l1 ∧ check x = Some e.
Proof.
  revert e. induction l as [|x l IH]; intros e; simpl.
  - split; [done|]. intros (l1 & y & l2 & Hl & _). by destruct l1.
  - destruct (check x) eqn:E.
    + split.
      * intros [= <-]. exists [], x, l. split; [done|]. split; [constructor|done].
      * intros (l1 & y & l2 & Hl & Hall & Hy).
        destruct l1 as [|z l1]; simplify_eq/=; try congruence.
        inversion Hall; congruence.
    + rewrite IH. split.
      * intros (l1 & y & l2 & -> & Hall & Hy).
        exists (x :: l1), y, l2. split; [done|]. split; [by constructor|done].
      * intros (l1 & y & l2 & Hl & Hall & Hy).
        destruct l1 as [|z l1]; simplify_eq/=; try congruence.
        exists l1, y, l2. split; [done|]. split; [by inversion Hall|done].
Qed.

(** Closed forms of [createEntities] and [createRelations]. *)

Lemma filter_has_false {A} (f : A → string) (l : list string) (xs : list A) :
  filter (λ x, has (list_to_set l) (f x) = false) xs = filter (λ x, f x ∉ l) xs.
Proof.
  apply list_filter_iff. intros x. rewrite has_list_to_set.
  apply bool_decide_eq_false.
Qed.

Lemma createEntities_eq `{Deployment} (ents : list Entity) (w : World) :
  createEntities ents w =
  match firstFailure entityFailure ents with
  | Some e => (inl e, stored (file w))
  | None =>
      let newEntities :=
        filter (λ entity, name entity ∉ name <$> entities (file w)) ents in
      (inr newEntities,
       stored (mkGraph (entities (file w) ++ newEntities) (relations (file w))))
  end.
Proof.
  unfold createEntities.
  unfold mbind at 1 2, M_bind at 1 2, loadGraph, getGraph; simpl.
  unfold mbind at 1, M_bind at 1.
  rewrite (forEach_validate entityFailure).
  - destruct (firstFailure entityFailure ents); [done|].
    munfold. simpl. by rewrite filter_has_false.
  - intros x w0. unfold entityFailure. munfold.
    by destruct (validateEntityType (entityType x)).
Qed.

Lemma createRelations_eq `{Deployment} (rels : list Relation) (w : World) :
  createRelations rels w =
  match firstFailure (relationFailure (entities (file w))) rels with
  | Some e => (inl e, stored (file w))
  | None =>
      let newRelations :=
        filter (λ r, relationKey r ∉ relationKey <$> relations (file w)) rels in
      (inr newRelations,
       stored (mkGraph (entities (file w)) (relations (file w) ++ newRelations)))
  end.
Proof.
  unfold createRelations.
  unfold mbind at 1 2, M_bind at 1 2, loadGraph, getGraph; simpl.
  unfold mbind at 1, M_bind at 1.
  rewrite (forEach_validate (relationFailure (entities (file w)))).
  - destruct (firstFailure _ rels); [done|].
    munfold. simpl. by rewrite filter_has_false.
  - intros x w0. unfold relationFailure. munfold.
    rewrite !has_list_to_set.
    destruct (bool_decide (from x ∈ _)); simpl; [|done].
    destruct (bool_decide (to x ∈ _)); simpl; [|done].
    by destruct (validateRelationType (relationType x)).
Qed.

(** ** Referential check of [createRelations] *)

Lemma relationFailure_None `{Deployment} (es : list Entity) (r : Relation) :
  relationFailure es r = None ↔
  from r ∈ (name <$> es) ∧ to r ∈ (name <$> es)
  ∧ validateRelationType (relationType r) = true.
Proof.
  unfold relationFailure.
  destruct (bool_decide (from r ∈ _)) eqn:Hf; simpl.
  - destruct (bool_decide (to r ∈ _)) eqn:Ht; simpl.
    + apply bool_decide_eq_true in Hf, Ht.
      destruct (validateRelationType (relationType r)); simpl; intuition congruence.
    + apply bool_decide_eq_false in Ht. intuition congruence.
  - apply bool_decide_eq_false in Hf. intuition congruence.
Qed.

Lemma relationFailure_Some `{Deployment} (es : list Entity) (r : Relation)
    (e : Error) :
  relationFailure es r = Some e ↔
  ((from r ∉ name <$> es) ∧ e = EntityNotFound (from r))
  ∨ (from r ∈ (name <$> es) ∧ (to r ∉ name <$> es) ∧ e = EntityNotFound (to r))
  ∨ (from r ∈ (name <$> es) ∧ to r ∈ (name <$> es)
     ∧ validateRelationType (relationType r) = false
     ∧ e = InvalidRelationType (relationType r) VALID_RELATION_TYPES).
Proof.
  unfold relationFailure.
  destruct (bool_decide (from r ∈ _)) eqn:Hf; simpl.
  - apply bool_decide_eq_true in Hf.
    destruct (bool_decide (to r ∈ _)) eqn:Ht; simpl.
    + apply bool_decide_eq_true in Ht.
      destruct (validateRelationType (relationType r)); simpl; intuition congruence.
    + apply bool_decide_eq_false in Ht. intuition congruence.
  - apply bool_decide_eq_false in Hf. intuition congruence.
Qed.

(** C1 (as amended).  When some relation of the batch names an endpoint that
    is absent from the graph, [createRelations] throws and the graph file is
    what it was.  The error is the one of the first relation of the batch
    that fails a check, the checks of one relation being made in the order
    [from], [to], relation type: it is [EntityNotFound] naming a missing
    endpoint, unless an earlier relation of the batch has both endpoints in
    the graph and an invalid relation type, in which case it is
    [InvalidRelationType].  In particular it is [EntityNotFound] when every
    relation type of the batch is valid. *)
Theorem createRelations_missing_endpoint `{Deployment}
    (batch : list Relation) (w : World) :
  (∃ r, r ∈ batch ∧ (¬ present (file w) (from r) ∨ ¬ present (file w) (to r))) →
  ∃ err w',
    createRelations batch w = (inl err, w')
    ∧ file w' = file w
    ∧ (∃ earlier r later,
         batch = earlier ++ r :: later
         ∧ Forall (λ r', present (file w) (from r') ∧ present (file w) (to r')
                         ∧ validateRelationType (relationType r') = true) earlier
         ∧ ((¬ present (file w) (from r) ∧ err = EntityNotFound (from r))
            ∨ (present (file w) (from r) ∧ ¬ present (file w) (to r)
               ∧ err = EntityNotFound (to r))
            ∨ (present (file w) (from r) ∧ present (file w) (to r)
               ∧ validateRelationType (relationType r) = false
               ∧ err = InvalidRelationType (relationType r) VALID_RELATION_TYPES)))
    ∧ (Forall (λ r, validateRelationType (relationType r) = true) batch →
       ∃ n, err = EntityNotFound n ∧ ¬ present (file w) n
            ∧ ∃ r, r ∈ batch ∧ touches r n).
Proof.
  intros (r0 & Hin & Hmiss).
  rewrite createRelations_eq.
  destruct (firstFailure _ batch) as [err|] eqn:Hff.
  - exists err, (stored (file w)). split; [done|]. split; [done|].
    apply firstFailure_Some in Hff as (l1 & r & l2 & -> & Hall & Hr).
    apply relationFailure_Some in Hr.
    split.
    + exists l1, r, l2. split; [done|]. split; [|done].
      eapply Forall_impl; [exact Hall|]. intros x Hx.
      by apply relationFailure_None in Hx.
    + intros Hvalid.
      assert (validateRelationType (relationType r) = true) as Hv.
      { rewrite Forall_forall in Hvalid. apply Hvalid.
        apply elem_of_app. right. apply elem_of_cons. by left. }
      assert (r ∈ l1 ++ r :: l2) as Hrin.
      { apply elem_of_app. right. apply elem_of_cons. by left. }
      destruct Hr as [[Hf ->]|[(Hf & Ht & ->)|(_ & _ & Hbad & _)]].
      * exists (from r). split; [done|]. split; [done|].
        exists r. split; [done|]. by left.
      * exists (to r). split; [done|]. split; [done|].
        exists r. split; [done|]. by right.
      * congruence.
  - exfalso. apply firstFailure_None in Hff.
    rewrite Forall_forall in Hff. specialize (Hff r0 Hin).
    apply relationFailure_None in Hff as (Hf & Ht & _).
    unfold present in Hmiss. tauto.
Qed.

Lemma createRelations_missing_endpoint_witness :
  let w := stored (mkGraph [mkEntity "A" "project" []] []) in
  let batch := [mkRelation "A" "Ghost" "contains"] in
  (∃ r, r ∈ batch ∧ (¬ present (file w) (from r) ∨ ¬ present (file w) (to r)))
  ∧ ∃ err w', createRelations (H := index_ts) batch w = (inl err, w')
              ∧ file w' = file w.
Proof.
  intros w batch.
  assert (∃ r, r ∈ batch
               ∧ (¬ present (file w) (from r) ∨ ¬ present (file w) (to r))) as Hyp.
  { exists (mkRelation "A" "Ghost" "contains"). split.
    - apply list_elem_of_singleton. reflexivity.
    - right. unfold present. simpl. intros Hin.
      apply list_elem_of_singleton in Hin. discriminate Hin. }
  split; [exact Hyp|].
  destruct (createRelations_missing_endpoint (H := index_ts) batch w Hyp)
    as (err & w' & Heq & Hfile & _).
  exists err, w'. split; [exact Heq | exact Hfile].
Defined.

(** C1, as stated, fails: an invalid relation type earlier in the batch is
    reported instead of the missing entity. *)
Lemma createRelations_missing_endpoint_counterexample :
  let g := mkGraph [mkEntity "A" "project" []] [] in
  let batch := [mkRelation "A" "A" "bogus"; mkRelation "A" "Ghost" "contains"] in
  ¬ present g "Ghost"
  ∧ mkRelation "A" "Ghost" "contains" ∈ batch
  ∧ createRelations (H := index_ts) batch (stored g)
    = (inl (InvalidRelationType "bogus" (VALID_RELATION_TYPES (Deployment := index_ts))),
       stored g)
  ∧ ¬ ∃ n, (createRelations (H := index_ts) batch (stored g)).1
           = inl (EntityNotFound n).
Proof.
  intros g batch. split; [|split; [|split]].
  - unfold present. simpl. intros Hin.
    apply list_elem_of_singleton in Hin. discriminate Hin.
  - apply elem_of_cons. right. apply list_elem_of_singleton. reflexivity.
  - vm_compute. reflexivity.
  - intros [n Hn]. vm_compute in Hn. discriminate Hn.
Qed.

(** ** Duplicate entities *)

Lemma entityFailure_None `{Deployment} (e : Entity) :
  entityFailure e = None ↔ validateEntityType (entityType e) = true.
Proof.
  unfold entityFailure.
  destruct (validateEntityType (entityType e)); intuition congruence.
Qed.

(** C2 (as amended).  For every graph and every entity [E] of a valid entity
    type whose name is already in the graph, [createEntities [E]] returns the
    empty list and writes back the graph it read: same entities with the
    same observations, same relations.  With an invalid entity type the
    call throws [InvalidEntityType] instead, and the file is untouched. *)
Theorem createEntities_existing_name `{Deployment} (E : Entity) (w : World) :
  present (file w) (name E) →
  (validateEntityType (entityType E) = true →
     createEntities [E] w = (inr [], stored (file w)))
  ∧ (validateEntityType (entityType E) = false →
     createEntities [E] w
     = (inl (InvalidEntityType (entityType E) VALID_ENTITY_TYPES),
        stored (file w))).
Proof.
  intros Hpresent. rewrite createEntities_eq. simpl.
  unfold entityFailure. split; intros ->; simpl; [|done].
  rewrite filter_cons_False; [|by intros Hn; apply Hn].
  rewrite filter_nil, app_nil_r. by destruct (file w).
Qed.

Lemma createEntities_existing_name_witness :
  let g := mkGraph [mkEntity "A" "project" ["kept"]] [] in
  let E := mkEntity "A" "dataset" ["dropped"] in
  present g (name E)
  ∧ createEntities (H := index_ts) [E] (stored g) = (inr [], stored g).
Proof.
  intros g E.
  assert (present g (name E)) as Hyp.
  { unfold present. simpl. apply list_elem_of_singleton. reflexivity. }
  split; [exact Hyp|].
  apply (createEntities_existing_name (H := index_ts) E (stored g) Hyp).
  vm_compute. reflexivity.
Defined.

(** C2, as stated, fails: a duplicate whose entity type is outside the
    closed set is reported as an error, it is not dropped silently. *)
Lemma createEntities_existing_name_counterexample :
  let g := mkGraph [mkEntity "A" "project" []] [] in
  let E := mkEntity "A" "bogus" [] in
  present g (name E)
  ∧ createEntities (H := index_ts) [E] (stored g)
    = (inl (InvalidEntityType "bogus" (VALID_ENTITY_TYPES (Deployment := index_ts))),
       stored g)
  ∧ (createEntities (H := index_ts) [E] (stored g)).1 ≠ inr [].
Proof.
  intros g E. split; [|split].
  - unfold present. simpl. apply list_elem_of_singleton. reflexivity.
  - vm_compute. reflexivity.
  - vm_compute. discriminate.
Qed.

(** ** No partial commit *)

Lemma findEntity_present (n : string) (es : list Entity) :
  n ∈ name <$> es →
  ∃ i e, findEntity n es = Some (i, e) ∧ es !! i = Some e ∧ name e = n.
Proof.
  intros Hin. apply list_elem_of_fmap in Hin as (e0 & -> & Hin).
  destruct (list_find_elem_of (λ e, name e = name e0) es e0 Hin eq_refl)
    as [[i e] Hfind].
  exists i, e. split; [exact Hfind|].
  apply list_find_Some in Hfind as (Hi & He & _). done.
Qed.

Lemma findEntity_absent (n : string) (es : list Entity) :
  (n ∉ name <$> es) → findEntity n es = None.
Proof.
  intros Hnin. apply list_find_None. apply Forall_forall. intros e He Hn.
  apply Hnin. apply list_elem_of_fmap. by exists e.
Qed.

Lemma names_withObservations (es : list Entity) (i : nat) (e : Entity)
    (obs : list string) :
  es !! i = Some e →
  name <$> <[i := withObservations e obs]> es = name <$> es.
Proof.
  intros Hi. rewrite list_fmap_insert. simpl.
  apply list_insert_id. by rewrite list_lookup_fmap, Hi.
Qed.

Lemma addObservations_loop_file (obs : list ObservationInput)
    (results : list ObservationResult) (w : World) :
  file (addObservations_loop obs results w).2 = file w.
Proof.
  revert results w. induction obs as [|o obs IH]; intros results w; simpl; [done|].
  munfold.
  destruct (findEntity (entityName o) (entities (graph w))) as [[i e]|]; [|done].
  rewrite IH. done.
Qed.

Lemma addObservations_throws (obs : list ObservationInput) (w : World)
    (e : Error) (w' : World) :
  addObservations obs w = (inl e, w') → file w' = file w.
Proof.
  unfold addObservations. munfold.
  pose proof (addObservations_loop_file obs []
                {| file := file w; graph := file w |}) as Hfile.
  destruct (addObservations_loop obs [] _) as [[e0|res] w0]; simpl in *.
  - intros [= _ <-]. exact Hfile.
  - discriminate.
Qed.

(** C3 (as amended).  A call of [createEntities], [createRelations] or
    [addObservations] that throws leaves the graph file as it was: each of
    them writes the file once, after the whole batch has been processed.
    [createEntities] and [createRelations] validate the whole batch before
    they touch the graph they read, which is still unchanged at the throw.
    ([addObservations] checks each target when it reaches it.)  In
    particular [addObservations] on a batch whose first target exists and
    whose second target is absent throws [EntityNotFound] for the second
    target and writes nothing. *)
Theorem validation_error_persists_nothing `{Deployment} (w : World) :
  (∀ ents e w',
     createEntities ents w = (inl e, w') → file w' = file w ∧ graph w' = file w)
  ∧ (∀ rels e w',
       createRelations rels w = (inl e, w') → file w' = file w ∧ graph w' = file w)
  ∧ (∀ obs e w', addObservations obs w = (inl e, w') → file w' = file w)
  ∧ (∀ first second,
       present (file w) (entityName first) →
       ¬ present (file w) (entityName second) →
       ∃ w', addObservations [first; second] w
             = (inl (EntityNotFound (entityName second)), w')
             ∧ file w' = file w).
Proof.
  split; [|split; [|split]].
  - intros ents e w'. rewrite createEntities_eq.
    destruct (firstFailure entityFailure ents); [|discriminate].
    by intros [= _ <-].
  - intros rels e w'. rewrite createRelations_eq.
    destruct (firstFailure _ rels); [|discriminate].
    by intros [= _ <-].
  - intros obs e w'. apply addObservations_throws.
  - intros o1 o2 Hp1 Hp2.
    destruct (findEntity_present _ _ Hp1) as (i & e1 & Hfind & Hi & Hname).
    unfold addObservations. simpl. munfold. simpl.
    rewrite Hfind. simpl.
    rewrite findEntity_absent.
    + eexists. split; [reflexivity|done].
    + rewrite names_withObservations; [exact Hp2 | exact Hi].
Qed.

Lemma validation_error_persists_nothing_witness :
  let g := mkGraph [mkEntity "A" "project" []] [] in
  let first := mkObservationInput "A" ["x"] in
  let second := mkObservationInput "Ghost" ["y"] in
  present g (entityName first) ∧ ¬ present g (entityName second)
  ∧ ∃ w', addObservations [first; second] (stored g)
          = (inl (EntityNotFound "Ghost"), w')
          ∧ file w' = g.
Proof.
  intros g first second.
  assert (present g (entityName first)) as H1.
  { unfold present. simpl. apply list_elem_of_singleton. reflexivity. }
  assert (¬ present g (entityName second)) as H2.
  { unfold present. simpl. intros Hin.
    apply list_elem_of_singleton in Hin. discriminate Hin. }
  split; [exact H1|]. split; [exact H2|].
  destruct (validation_error_persists_nothing (H := index_ts) (stored g))
    as (_ & _ & _ & Hadd).
  exact (Hadd first second H1 H2).
Defined.

(** C3, as stated, fails in its reason: [addObservations] does not validate
    before it mutates.  On a batch whose first target exists and whose second
    is absent, the graph in memory already carries the first target's new
    observation when the error for the second is thrown; only the file is
    untouched. *)
Lemma validation_error_persists_nothing_counterexample :
  let g := mkGraph [mkEntity "A" "project" []] [] in
  let batch := [mkObservationInput "A" ["x"]; mkObservationInput "Ghost" ["y"]] in
  ∃ w', addObservations batch (stored g) = (inl (EntityNotFound "Ghost"), w')
        ∧ file w' = g
        ∧ graph w' = mkGraph [mkEntity "A" "project" ["x"]] []
        ∧ graph w' ≠ g.
Proof.
  intros g batch.
  exists (mkWorld g (mkGraph [mkEntity "A" "project" ["x"]] [])).
  split; [vm_compute; reflexivity|].
  split; [reflexivity|]. split; [reflexivity|]. discriminate.
Qed.

(** ** Duplicate suppression *)

Lemma copies_app `{EqDecision A} (x : A) (l1 l2 : list A) :
  copies x (l1 ++ l2) = copies x l1 + copies x l2.
Proof. unfold copies. by rewrite filter_app, length_app. Qed.

Lemma copies_singleton `{EqDecision A} (x : A) : copies x [x] = 1.
Proof. unfold copies. by rewrite filter_cons_True. Qed.

Lemma copies_absent `{EqDecision A} (x : A) (l : list A) :
  x ∉ l → copies x l = 0.
Proof.
  intros Hnin. unfold copies.
  destruct (filter (λ y, y = x) l) as [|y l'] eqn:Hf; [done|].
  assert (y ∈ filter (λ y, y = x) l) as Hy by (rewrite Hf; left).
  apply list_elem_of_filter in Hy as [-> Hy]. done.
Qed.

Lemma copies_present `{EqDecision A} (x : A) (l : list A) :
  x ∈ l → 1 ≤ copies x l.
Proof.
  intros Hin. unfold copies.
  assert (x ∈ filter (λ y, y = x) l) as Hx by (by apply list_elem_of_filter).
  destruct (filter (λ y, y = x) l); [by apply elem_of_nil in Hx | simpl; lia].
Qed.

Lemma findEntity_update (n : string) (es : list Entity) (i : nat) (e : Entity)
    (obs : list string) :
  findEntity n es = Some (i, e) →
  findEntity n (<[i := withObservations e obs]> es)
  = Some (i, withObservations e obs).
Proof.
  unfold findEntity. intros Hfind.
  apply list_find_Some in Hfind as (Hi & Hn & Hbefore).
  apply list_find_Some. split; [|split].
  - apply list_lookup_insert_eq. by eapply lookup_lt_Some.
  - done.
  - intros j y Hj Hlt. rewrite list_lookup_insert_ne in Hj by lia.
    by eapply Hbefore.
Qed.

(** One call of [addObservations] with one target that exists. *)
Lemma addObservations_one (n : string) (cs : list string) (w : World)
    (i : nat) (e : Entity) :
  findEntity n (entities (file w)) = Some (i, e) →
  let newObservations := filter (λ o, o ∉ observations e) cs in
  addObservations [mkObservationInput n cs] w
  = (inr [mkObservationResult n newObservations],
     stored (mkGraph
               (<[i := withObservations e (observations e ++ newObservations)]>
                  (entities (file w)))
               (relations (file w)))).
Proof.
  intros Hfind. unfold addObservations. simpl. munfold. simpl.
  rewrite Hfind. simpl.
  rewrite (filter_has_false (λ o, o)). done.
Qed.

(** C4 (as amended).  When both endpoints of a relation [r] are in the graph,
    its relation type is valid, the graph holds at most one copy of [r] and
    no other relation with the key of [r], calling [createRelations [r]]
    twice succeeds twice and leaves exactly one copy of [r] in the stored
    graph.  When the entity named [n] exists and its observation list holds
    at most one copy of a string, calling [addObservations] twice with that
    string for [n] succeeds twice and leaves exactly one copy of it in the
    observation list of that entity. *)
Theorem duplicate_suppression `{Deployment} (w : World) :
  (∀ r,
     present (file w) (from r) → present (file w) (to r) →
     validateRelationType (relationType r) = true →
     copies r (relations (file w)) ≤ 1 →
     (∀ r', r' ∈ relations (file w) → relationKey r' = relationKey r → r' = r) →
     ∃ created1 w1 w2,
       createRelations [r] w = (inr created1, w1)
       ∧ createRelations [r] w1 = (inr [], w2)
       ∧ copies r (relations (file w2)) = 1)
  ∧ (∀ n content i e,
       findEntity n (entities (file w)) = Some (i, e) →
       copies content (observations e) ≤ 1 →
       ∃ added1 w1 w2 e2,
         addObservations [mkObservationInput n [content]] w = (inr added1, w1)
         ∧ addObservations [mkObservationInput n [content]] w1
           = (inr [mkObservationResult n []], w2)
         ∧ findEntity n (entities (file w2)) = Some (i, e2)
         ∧ copies content (observations e2) = 1).
Proof.
  split.
  - intros r Hf Ht Hv Hcopies Hkey.
    assert (relationFailure (entities (file w)) r = None) as Hok
      by (by apply relationFailure_None).
    rewrite createRelations_eq. simpl. rewrite Hok.
    set (rs1 := relations (file w)
                ++ filter (λ r0, relationKey r0 ∉ relationKey <$> relations (file w)) [r]).
    assert (r ∈ rs1 ∧ copies r rs1 = 1) as [Hin1 Hcount1].
    { unfold rs1. destruct (decide (r ∈ relations (file w))) as [Hin|Hnin].
      - rewrite filter_cons_False, filter_nil, app_nil_r.
        + split; [done|]. pose proof (copies_present r _ Hin). lia.
        + intros Hk. apply Hk. by apply list_elem_of_fmap_2.
      - rewrite filter_cons_True, filter_nil.
        + split; [apply elem_of_app; right; by left|].
          rewrite copies_app, copies_singleton, copies_absent; done.
        + intros Hk. apply list_elem_of_fmap in Hk as (r' & Heq & Hr').
          apply Hnin. by rewrite <- (Hkey r' Hr' (eq_sym Heq)). }
    eexists _, _, _. split; [reflexivity|].
    rewrite createRelations_eq. simpl. rewrite Hok.
    rewrite filter_cons_False, filter_nil, app_nil_r.
    + split; [reflexivity|]. simpl. exact Hcount1.
    + intros Hk. apply Hk. by apply list_elem_of_fmap_2.
  - intros n content i e Hfind Hcopies.
    rewrite (addObservations_one n [content] w i e Hfind).
    set (obs1 := observations e ++ filter (λ o, o ∉ observations e) [content]).
    assert (content ∈ obs1 ∧ copies content obs1 = 1) as [Hin1 Hcount1].
    { unfold obs1. destruct (decide (content ∈ observations e)) as [Hin|Hnin].
      - rewrite filter_cons_False, filter_nil, app_nil_r by (by intros Hc; apply Hc).
        split; [done|]. pose proof (copies_present content _ Hin). lia.
      - rewrite filter_cons_True, filter_nil by done.
        split; [apply elem_of_app; right; by left|].
        rewrite copies_app, copies_singleton, copies_absent; done. }
    pose proof (findEntity_update n _ i e obs1 Hfind) as Hfind1.
    set (w1 := stored (mkGraph (<[i := withObservations e obs1]> (entities (file w)))
                               (relations (file w)))).
    exists [mkObservationResult n (filter (λ o, o ∉ observations e) [content])], w1.
    change (findEntity n (entities (file w1)) = Some (i, withObservations e obs1))
      in Hfind1.
    rewrite (addObservations_one n [content] w1 i _ Hfind1). simpl.
    assert (filter (λ o, o ∉ obs1) [content] = []) as ->.
    { rewrite filter_cons_False; [done|]. intros Hc. by apply Hc. }
    rewrite app_nil_r.
    eexists _, (withObservations e obs1).
    split; [reflexivity|]. split; [reflexivity|]. simpl.
    split; [|exact Hcount1].
    rewrite list_insert_insert_eq.
    exact Hfind1.
Qed.

Lemma duplicate_suppression_witness :
  let g := mkGraph [mkEntity "A" "dataset" ["x"]; mkEntity "B" "variable" []] [] in
  let r := mkRelation "A" "B" "contains" in
  (∃ created1 w1 w2,
     createRelations (H := index_ts) [r] (stored g) = (inr created1, w1)
     ∧ createRelations (H := index_ts) [r] w1 = (inr [], w2)
     ∧ copies r (relations (file w2)) = 1)
  ∧ (∃ added1 w1 w2 e2,
       addObservations [mkObservationInput "A" ["x"]] (stored g) = (inr added1, w1)
       ∧ addObservations [mkObservationInput "A" ["x"]] w1
         = (inr [mkObservationResult "A" []], w2)
       ∧ findEntity "A" (entities (file w2)) = Some (0, e2)
       ∧ copies "x" (observations e2) = 1).
Proof.
  intros g r.
  destruct (duplicate_suppression (H := index_ts) (stored g)) as [Hrel Hobs].
  split.
  - apply Hrel.
    + unfold present. simpl. apply elem_of_cons. left. reflexivity.
    + unfold present. simpl. apply elem_of_cons. right.
      apply list_elem_of_singleton. reflexivity.
    + vm_compute. reflexivity.
    + vm_compute. lia.
    + simpl. intros r' Hr'. apply elem_of_nil in Hr'. destruct Hr'.
  - apply (Hobs "A" "x" 0 (mkEntity "A" "dataset" ["x"])).
    + vm_compute. reflexivity.
    + vm_compute. lia.
Defined.

(** C4, as stated for every graph, fails in four ways.
    - The endpoints are not in the graph: both calls throw, no copy.
    - The graph already holds two copies, which [createRelations [r; r]]
      itself produces since a batch is only compared with the relations
      read from the file: two copies remain.
    - Another relation has the same key [from:to:relationType]: the new
      relation is taken for a duplicate, no copy.
    - The entity already holds the string twice, as [createEntities]
      accepts it: two copies remain. *)
Lemma duplicate_suppression_counterexample :
  let twice (c : Call) (g : KnowledgeGraph) :=
    fileAfter (H := index_ts) c (fileAfter (H := index_ts) c g) in
  let r := mkRelation "A" "B" "contains" in
  let gAB := mkGraph [mkEntity "A" "dataset" []; mkEntity "B" "variable" []] [] in
  let r2 := mkRelation "survey" "2024:age" "contains" in
  let gKey :=
    mkGraph [mkEntity "survey:2024" "dataset" []; mkEntity "age" "variable" [];
             mkEntity "survey" "project" []; mkEntity "2024:age" "variable" []]
            [mkRelation "survey:2024" "age" "contains"] in
  let E := mkEntity "A" "dataset" ["x"; "x"] in
  copies r (relations (twice (CreateRelations [r]) emptyGraph)) = 0
  ∧ copies r (relations
                (twice (CreateRelations [r])
                   (fileAfter (H := index_ts) (CreateRelations [r; r]) gAB))) = 2
  ∧ copies r2 (relations (twice (CreateRelations [r2]) gKey)) = 0
  ∧ (∃ e, findEntity "A"
            (entities (twice (AddObservations [mkObservationInput "A" ["x"]])
                         (fileAfter (H := index_ts) (CreateEntities [E]) emptyGraph)))
          = Some (0, e)
          ∧ copies "x" (observations e) = 2).
Proof.
  intros twice r gAB r2 gKey E. split; [|split; [|split]].
  - vm_compute. reflexivity.
  - vm_compute. reflexivity.
  - vm_compute. reflexivity.
  - exists (mkEntity "A" "dataset" ["x"; "x"]). split; vm_compute; reflexivity.
Qed.

(** ** Cascade delete *)

Lemma deleteEntities_eq (entityNames : list string) (w : World) :
  deleteEntities entityNames w =
  (inr tt,
   stored (mkGraph
             (filter (λ e, name e ∉ entityNames) (entities (file w)))
             (filter (λ r, (from r ∉ entityNames) ∧ (to r ∉ entityNames))
                     (relations (file w))))).
Proof.
  unfold deleteEntities. munfold. simpl. unfold stored.
  assert (filter (λ e, includes entityNames (name e) = false) (entities (file w))
          = filter (λ e, name e ∉ entityNames) (entities (file w))) as ->.
  { apply list_filter_iff. intros e. apply includes_false. }
  assert (filter (λ r, includes entityNames (from r) = false
                       ∧ includes entityNames (to r) = false) (relations (file w))
          = filter (λ r, (from r ∉ entityNames) ∧ (to r ∉ entityNames))
                   (relations (file w))) as ->.
  { apply list_filter_iff. intros r. by rewrite !includes_false. }
  done.
Qed.

Lemma filter_all {A} (P : A → Prop) `{∀ x, Decision (P x)} (l : list A) :
  Forall P l → filter P l = l.
Proof.
  induction 1 as [|x l Hx _ IH]; [done|].
  by rewrite filter_cons_True, IH.
Qed.

(** C5 (as amended).  [deleteEntities names] never fails.  It keeps, in
    their order, the entities whose name is not in [names] and the relations
    neither endpoint of which is in [names], and removes all the others: an
    entity is in the stored graph afterwards exactly when it was there and
    its name is not in [names], a relation exactly when it was there and
    neither its [from] nor its [to] is in [names].  Names that match no
    entity remove no entity and raise no error, but the relations that start
    or end at such a name go all the same: the call leaves the whole graph
    as it was exactly when no stored relation starts or ends at a listed
    name, which is so in a graph whose relations all join existing
    entities. *)
Theorem deleteEntities_cascade (entityNames : list string) (w : World) :
  ∃ w',
    deleteEntities entityNames w = (inr tt, w')
    ∧ entities (file w')
      = filter (λ e, name e ∉ entityNames) (entities (file w))
    ∧ relations (file w')
      = filter (λ r, (from r ∉ entityNames) ∧ (to r ∉ entityNames))
               (relations (file w))
    ∧ (∀ e, e ∈ entities (file w')
            ↔ e ∈ entities (file w) ∧ (name e ∉ entityNames))
    ∧ (∀ r, r ∈ relations (file w')
            ↔ r ∈ relations (file w) ∧ ¬ ∃ n, n ∈ entityNames ∧ touches r n)
    ∧ ((∀ n, n ∈ entityNames → ¬ present (file w) n) →
       entities (file w') = entities (file w)
       ∧ (referentialIntegrity (file w) → file w' = file w))
    ∧ ((∀ n, n ∈ entityNames → ¬ present (file w) n) →
       file w' = file w
       ↔ ∀ r n, r ∈ relations (file w) → n ∈ entityNames → ¬ touches r n).
Proof.
  rewrite deleteEntities_eq. eexists. split; [reflexivity|]. simpl.
  split; [done|]. split; [done|]. split; [|split; [|split]].
  - intros e. rewrite list_elem_of_filter. tauto.
  - intros r. rewrite list_elem_of_filter. unfold touches. split.
    + intros [[Hf Ht] Hin]. split; [done|].
      intros (n & Hn & [Heq|Heq]); subst n; tauto.
    + intros [Hin Hno]. split; [|done]. split; intros Hn; apply Hno; eauto.
  - intros Habsent.
    assert (filter (λ e, name e ∉ entityNames) (entities (file w))
            = entities (file w)) as Hents.
    { apply filter_all. apply Forall_forall. intros e He Hn.
      apply (Habsent _ Hn). unfold present. by apply list_elem_of_fmap_2. }
    split; [done|]. intros HRI. rewrite Hents.
    rewrite filter_all; [by destruct (file w)|].
    eapply Forall_impl; [exact HRI|]. intros r [Hf Ht]. simpl in *.
    split; intros Hn; by apply (Habsent _ Hn).
  - intros Habsent.
    assert (filter (λ e, name e ∉ entityNames) (entities (file w))
            = entities (file w)) as ->.
    { apply filter_all. apply Forall_forall. intros e He Hn.
      apply (Habsent _ Hn). unfold present. by apply list_elem_of_fmap_2. }
    split.
    + intros Hsame r n Hr Hn [Hf|Ht].
      * rewrite <- Hsame in Hr. cbn [relations] in Hr.
        apply list_elem_of_filter in Hr as [[Hno _] _]. apply Hno. by rewrite Hf.
      * rewrite <- Hsame in Hr. cbn [relations] in Hr.
        apply list_elem_of_filter in Hr as [[_ Hno] _]. apply Hno. by rewrite Ht.
    + intros Hfree. rewrite filter_all; [by destruct (file w)|].
      apply Forall_forall. intros r Hr.
      split; intros Hn; apply (Hfree r _ Hr Hn); [by left|by right].
Qed.

Lemma deleteEntities_cascade_witness :
  let g := mkGraph [mkEntity "X" "dataset" []; mkEntity "Y" "variable" []]
                   [mkRelation "X" "Y" "contains"] in
  deleteEntities ["X"] (stored g)
  = (inr tt, stored (mkGraph [mkEntity "Y" "variable" []] []))
  ∧ deleteEntities ["Ghost"] (stored g) = (inr tt, stored g).
Proof.
  intros g. split.
  - destruct (deleteEntities_cascade ["X"] (stored g))
      as (w' & Heq & Hents & Hrels & _).
    rewrite Heq. f_equal. destruct w' as [[es rs] g'].
    rewrite deleteEntities_eq in Heq. injection Heq as Hes Hrs Hg.
    rewrite <- Hes, <- Hrs, <- Hg. vm_compute. reflexivity.
  - destruct (deleteEntities_cascade ["Ghost"] (stored g))
      as (w' & Heq & _ & _ & _ & _ & Hnoop & _).
    rewrite Heq. f_equal.
    assert (file w' = file (stored g)) as Hfile.
    { apply Hnoop.
      - intros n Hn. apply list_elem_of_singleton in Hn. subst n.
        unfold present. simpl. intros Hin.
        apply elem_of_cons in Hin as [Hin|Hin]; [discriminate Hin|].
        apply list_elem_of_singleton in Hin. discriminate Hin.
      - unfold referentialIntegrity. simpl. constructor; [|constructor].
        unfold present. simpl. split.
        + apply elem_of_cons. left. reflexivity.
        + apply elem_of_cons. right. apply list_elem_of_singleton. reflexivity. }
    rewrite deleteEntities_eq in Heq. injection Heq as Hw'. subst w'.
    simpl in Hfile. unfold stored. rewrite Hfile. reflexivity.
Defined.

(** C5, as stated for every graph, fails in its last clause: a name that
    matches no entity is not always a no-op.  The graph below is built by
    the store itself, whose status setter does not look for the entity it
    is given; deleting the name that matches no entity removes the edge
    that starts at it. *)
Lemma deleteEntities_cascade_counterexample :
  let edge := mkRelation "Ghost" "status:active" "has_status" in
  let g := fileAfter (H := compiled_build) (SetEntityStatus "Ghost" "active")
                     emptyGraph in
  g = mkGraph [] [edge]
  ∧ ¬ present g "Ghost"
  ∧ deleteEntities ["Ghost"] (stored g) = (inr tt, stored emptyGraph)
  ∧ edge ∈ relations g
  ∧ (edge ∉ relations (file (deleteEntities ["Ghost"] (stored g)).2))
  ∧ file (deleteEntities ["Ghost"] (stored g)).2 ≠ g.
Proof.
  intros edge g.
  assert (g = mkGraph [] [edge]) as Hg by (vm_compute; reflexivity).
  assert (deleteEntities ["Ghost"] (stored g) = (inr tt, stored emptyGraph))
    as Hrun by (vm_compute; reflexivity).
  split; [exact Hg|]. split; [|split; [exact Hrun|split; [|split]]].
  - rewrite Hg. unfold present. cbn. apply not_elem_of_nil.
  - rewrite Hg. cbn. apply list_elem_of_here.
  - rewrite Hrun. cbn. apply not_elem_of_nil.
  - rewrite Hrun, Hg. cbn. discriminate.
Qed.

(** ** Search *)

Lemma prefix_spec (t s : string) :
  String.prefix t s = true ↔ ∃ after, s = t +:+ after.
Proof.
  revert s. induction t as [|a t IH]; intros s.
  - split; [intros _; by exists s | by destruct s].
  - destruct s as [|b s]; simpl.
    + split; [done|]. intros [after Heq]. discriminate Heq.
    + destruct (ascii_dec a b) as [->|Hne].
      * rewrite IH. split; intros [after Heq]; exists after.
        -- by rewrite Heq.
        -- by injection Heq.
      * split; [done|]. intros [after Heq]. injection Heq as Hab _. done.
Qed.

Lemma startsWith_spec (s t : string) :
  JS.startsWith s t = true ↔ ∃ after, s = t +:+ after.
Proof. apply prefix_spec. Qed.

Lemma includes_spec (s t : string) :
  JS.includes s t = true ↔ occursIn t s.
Proof.
  unfold occursIn. induction s as [|c s IH].
  - change (JS.includes EmptyString t)
      with (JS.startsWith EmptyString t || false).
    rewrite orb_false_r, startsWith_spec. split.
    + intros [after Heq]. by exists EmptyString, after.
    + intros (before & after & Heq).
      destruct before; [by exists after | discriminate Heq].
  - change (JS.includes (String c s) t)
      with (JS.startsWith (String c s) t || JS.includes s t).
    rewrite orb_true_iff, IH, startsWith_spec. split.
    + intros [[after Heq]|(before & after & Heq)].
      * by exists EmptyString, after.
      * exists (String c before), after. simpl. by rewrite Heq.
    + intros (before & after & Heq). destruct before as [|c' before]; simpl in Heq.
      * left. by exists after.
      * right. injection Heq as _ Heq. by exists before, after.
Qed.

Lemma termMatches_spec (e : Entity) (term : string) :
  termMatches e term = true ↔
  occursIn term (JS.toLowerCase (name e))
  ∨ occursIn term (JS.toLowerCase (entityType e))
  ∨ ∃ o, o ∈ observations e ∧ occursIn term (JS.toLowerCase o).
Proof.
  unfold termMatches. rewrite <- !includes_spec.
  destruct (JS.includes (JS.toLowerCase (name e)) term); [tauto|].
  destruct (JS.includes (JS.toLowerCase (entityType e)) term); [tauto|].
  rewrite existsb_exists. split.
  - intros (o & Hin & Ho). right. right. exists o.
    rewrite <- includes_spec. split; [by apply list_elem_of_In | done].
  - intros [?|[?|(o & Hin & Ho)]]; [done..|]. exists o.
    rewrite <- includes_spec in Ho. split; [by apply list_elem_of_In | done].
Qed.

Lemma matchesAllTerms_spec (query : string) (e : Entity) :
  matchesAllTerms (searchTerms query) e = true ↔ matchesQuery query e.
Proof.
  unfold matchesAllTerms, matchesQuery. rewrite forallb_forall. split.
  - intros Hall term Hin. apply termMatches_spec, Hall. by apply list_elem_of_In.
  - intros Hall term Hin. apply termMatches_spec, Hall. by apply list_elem_of_In.
Qed.

Lemma codeUnits_app (s t : string) :
  codeUnits (s +:+ t) = codeUnits s ++ codeUnits t.
Proof. induction s as [|c s IH]; simpl; [done|]. by rewrite IH. Qed.

(** No piece of a split holds white space. *)
Lemma split_from_no_whitespace (inSep : bool) (cur s : string) :
  Forall (λ c, JS.isWhiteSpace c = false) (codeUnits cur) →
  Forall (λ term, Forall (λ c, JS.isWhiteSpace c = false) (codeUnits term))
         (JS.split_from inSep cur s).
Proof.
  revert inSep cur. induction s as [|c s IH]; intros inSep cur Hcur; simpl.
  - by constructor.
  - destruct (JS.isWhiteSpace c) eqn:Hc.
    + destruct inSep.
      * by apply IH.
      * constructor; [done|]. apply IH. constructor.
    + apply IH. rewrite codeUnits_app. apply Forall_app. split; [done|].
      simpl. by repeat constructor.
Qed.

(** Splitting loses nothing but white space: the code units of the pieces,
    in order, are the code units of the string that are not white space. *)
Lemma split_from_codeUnits (inSep : bool) (cur s : string) :
  List.concat (codeUnits <$> JS.split_from inSep cur s)
  = codeUnits cur ++ filter (λ c, JS.isWhiteSpace c = false) (codeUnits s).
Proof.
  revert inSep cur. induction s as [|c s IH]; intros inSep cur; simpl.
  - by rewrite !app_nil_r.
  - destruct (JS.isWhiteSpace c) eqn:Hc.
    + rewrite filter_cons_False by (by rewrite Hc).
      destruct inSep.
      * apply IH.
      * rewrite fmap_cons. simpl. by rewrite IH.
    + rewrite filter_cons_True by done.
      rewrite IH, codeUnits_app. simpl. by rewrite <- app_assoc.
Qed.

Lemma searchNodes_eq (query : string) (w : World) :
  searchNodes query w =
  let matchingEntityNames :=
    name <$> filter (λ e, matchesAllTerms (searchTerms query) e = true)
                    (entities (file w)) in
  (inr (mkGraph
          (filter (λ e, name e ∈ matchingEntityNames) (entities (file w)))
          (filter (λ r, from r ∈ matchingEntityNames ∧ to r ∈ matchingEntityNames)
                  (relations (file w)))),
   stored (file w)).
Proof.
  unfold searchNodes. munfold. cbn [graph file fst snd]. unfold stored.
  do 3 f_equal.
  - apply list_filter_iff. intros e. rewrite has_list_to_set.
    apply bool_decide_eq_true.
  - apply list_filter_iff. intros r. rewrite !has_list_to_set.
    by rewrite !bool_decide_eq_true.
Qed.

Lemma NoDup_names_eq (es : list Entity) (e e' : Entity) :
  NoDup (name <$> es) → e ∈ es → e' ∈ es → name e' = name e → e' = e.
Proof.
  induction es as [|x es IH]; simpl; intros Hnd He He' Hname.
  - by apply elem_of_nil in He.
  - apply NoDup_cons in Hnd as [Hx Hnd].
    apply elem_of_cons in He as [->|He]; apply elem_of_cons in He' as [->|He'].
    + done.
    + exfalso. apply Hx. rewrite <- Hname. by apply list_elem_of_fmap_2.
    + exfalso. apply Hx. rewrite Hname. by apply list_elem_of_fmap_2.
    + by apply IH.
Qed.

(** C6 (as amended).  [searchNodes query] lower-cases the query, splits it at
    white space (the terms hold no white space and, put end to end, are the
    lower-cased query without its white space) and always returns.  It selects the names of the entities
    that match, i.e. for which every term occurs in the lower-cased name, in
    the lower-cased entity type or in at least one lower-cased observation,
    and returns exactly the entities that bear a selected name, together
    with exactly the relations whose two endpoints are names of returned
    entities.  When the entity names of the graph are pairwise distinct the
    returned entities are exactly the matching ones, so that an entity for
    which only some terms match is not returned.  The graph file is not
    changed. *)
Theorem searchNodes_induced_subgraph (query : string) (w : World) :
  Forall (λ term, Forall (λ c, JS.isWhiteSpace c = false) (codeUnits term))
         (searchTerms query)
  ∧ List.concat (codeUnits <$> searchTerms query)
    = filter (λ c, JS.isWhiteSpace c = false) (codeUnits (JS.toLowerCase query))
  ∧ ∃ result w',
    searchNodes query w = (inr result, w')
    ∧ file w' = file w
    ∧ (∀ e, e ∈ entities result
            ↔ e ∈ entities (file w)
              ∧ ∃ e', e' ∈ entities (file w) ∧ name e' = name e
                      ∧ matchesQuery query e')
    ∧ (∀ r, r ∈ relations result
            ↔ r ∈ relations (file w)
              ∧ from r ∈ (name <$> entities result)
              ∧ to r ∈ (name <$> entities result))
    ∧ (NoDup (name <$> entities (file w)) →
       ∀ e, e ∈ entities result ↔ e ∈ entities (file w) ∧ matchesQuery query e).
Proof.
  split; [by apply split_from_no_whitespace; constructor|].
  split; [apply (split_from_codeUnits false EmptyString)|].
  rewrite searchNodes_eq. cbv zeta.
  set (selected := name <$> filter (λ e, matchesAllTerms (searchTerms query) e = true)
                                   (entities (file w))).
  eexists _, _. split; [reflexivity|]. cbn [file stored entities relations].
  split; [done|].
  assert (∀ n, n ∈ selected
               ↔ ∃ e', e' ∈ entities (file w) ∧ name e' = n ∧ matchesQuery query e')
    as Hsel.
  { intros n. unfold selected. rewrite list_elem_of_fmap. split.
    - intros (e' & -> & He'). apply list_elem_of_filter in He' as [Hm He'].
      exists e'. split; [done|]. split; [done|]. by apply matchesAllTerms_spec.
    - intros (e' & He' & <- & Hm). exists e'. split; [done|].
      apply list_elem_of_filter. split; [|done]. by apply matchesAllTerms_spec. }
  assert (∀ e, e ∈ filter (λ e, name e ∈ selected) (entities (file w))
               ↔ e ∈ entities (file w)
                 ∧ ∃ e', e' ∈ entities (file w) ∧ name e' = name e
                         ∧ matchesQuery query e') as Hents.
  { intros e. rewrite list_elem_of_filter, Hsel. tauto. }
  assert (∀ n, n ∈ name <$> filter (λ e, name e ∈ selected) (entities (file w))
               ↔ n ∈ selected) as Hnames.
  { intros n. rewrite list_elem_of_fmap. split.
    - intros (e & -> & He). by apply list_elem_of_filter in He as [Hn _].
    - intros Hn. pose proof Hn as Hn'. apply Hsel in Hn' as (e' & He' & <- & Hm).
      exists e'. split; [done|]. by apply list_elem_of_filter. }
  split; [exact Hents|]. split.
  - intros r. rewrite list_elem_of_filter, !Hnames. tauto.
  - intros Hnd e. rewrite Hents. split.
    + intros [He (e' & He' & Hname & Hm)]. split; [done|].
      by rewrite <- (NoDup_names_eq _ e e' Hnd He He' Hname).
    + intros [He Hm]. split; [done|]. by exists e.
Qed.

Lemma searchNodes_induced_subgraph_witness :
  let test := mkEntity "Age_Income_Regression" "statisticalTest"
                       ["tests income vs age"] in
  let other := mkEntity "Income" "variable" ["yearly income"] in
  let g := mkGraph [test; other] [mkRelation "Age_Income_Regression" "Income" "analyzes"] in
  NoDup (name <$> entities g)
  ∧ searchTerms "income regression" = ["income"; "regression"]
  ∧ searchNodes "income regression" (stored g) = (inr (mkGraph [test] []), stored g)
  ∧ (∀ e, e ∈ [test] ↔ e ∈ entities g ∧ matchesQuery "income regression" e).
Proof.
  intros test other g.
  assert (NoDup (name <$> entities g)) as Hnd.
  { simpl. apply NoDup_cons. split.
    - intros Hin. apply list_elem_of_singleton in Hin. discriminate Hin.
    - apply NoDup_singleton. }
  split; [exact Hnd|]. split; [vm_compute; reflexivity|].
  destruct (searchNodes_induced_subgraph "income regression" (stored g))
    as (_ & _ & result & w' & Heq & _ & _ & _ & Hdistinct).
  assert (searchNodes "income regression" (stored g)
          = (inr (mkGraph [test] []), stored g)) as Hrun
    by (vm_compute; reflexivity).
  split; [exact Hrun|].
  rewrite Hrun in Heq. injection Heq as <- _.
  exact (Hdistinct Hnd).
Defined.

(** C6, as stated, fails when two entities bear the same name, which
    [createEntities] lets in when both come in one batch: the search selects
    names, so the namesake of a matching entity is returned although the
    term occurs nowhere in it. *)
Lemma searchNodes_induced_subgraph_counterexample :
  let matching := mkEntity "Survey" "dataset" ["household income"] in
  let namesake := mkEntity "Survey" "dataset" [] in
  let g := fileAfter (H := index_ts) (CreateEntities [matching; namesake]) emptyGraph in
  g = mkGraph [matching; namesake] []
  ∧ (∃ result, searchNodes "income" (stored g) = (inr result, stored g)
               ∧ namesake ∈ entities result)
  ∧ matchesAllTerms (searchTerms "income") namesake = false
  ∧ ¬ matchesQuery "income" namesake.
Proof.
  intros matching namesake g.
  assert (g = mkGraph [matching; namesake] []) as Hg by (vm_compute; reflexivity).
  assert (matchesAllTerms (searchTerms "income") namesake = false) as Hno
    by (vm_compute; reflexivity).
  split; [exact Hg|]. rewrite Hg. split; [|split; [exact Hno|]].
  - exists (mkGraph [matching; namesake] []). split; [vm_compute; reflexivity|].
    apply elem_of_cons. right. apply list_elem_of_singleton. reflexivity.
  - intros Hm. apply matchesAllTerms_spec in Hm. congruence.
Qed.

(** ** Status singularity *)

Lemma setEntityStatus_eq (n v : string) (w : World) :
  setEntityStatus n v w =
  if includes VALID_STATUS_VALUES v then
    (inr tt,
     stored (mkGraph
               (entities (file w))
               (filter (λ r, ¬ (from r = n ∧ relationType r = "has_status"))
                       (relations (file w))
                ++ [mkRelation n ("status:" +:+ v) "has_status"])))
  else (inl (InvalidStatusValue v), w).
Proof.
  unfold setEntityStatus. munfold.
  by destruct (includes VALID_STATUS_VALUES v).
Qed.

Lemma setEntityPriority_eq (n v : string) (w : World) :
  setEntityPriority n v w =
  if includes VALID_PRIORITY_VALUES v then
    (inr tt,
     stored (mkGraph
               (entities (file w))
               (filter (λ r, ¬ (from r = n ∧ relationType r = "has_priority"))
                       (relations (file w))
                ++ [mkRelation n ("priority:" +:+ v) "has_priority"])))
  else (inl (InvalidPriorityValue v), w).
Proof.
  unfold setEntityPriority. munfold.
  by destruct (includes VALID_PRIORITY_VALUES v).
Qed.

(** The [has_status] edges that leave the entity [n]. *)
Lemma statusEdges_after_set (n v : string) (rs : list Relation) :
  filter (λ r, from r = n ∧ relationType r = "has_status")
         (filter (λ r, ¬ (from r = n ∧ relationType r = "has_status")) rs
          ++ [mkRelation n ("status:" +:+ v) "has_status"])
  = [mkRelation n ("status:" +:+ v) "has_status"].
Proof.
  rewrite filter_app, filter_cons_True, filter_nil by done.
  rewrite list_filter_filter.
  assert (filter (λ r, (from r = n ∧ relationType r = "has_status")
                       ∧ ¬ (from r = n ∧ relationType r = "has_status")) rs = [])
    as ->; [|done].
  induction rs as [|r rs IH]; [done|].
  rewrite filter_cons_False; [exact IH | tauto].
Qed.

(** C7.  [setEntityStatus name value] throws [InvalidStatusValue] when the
    value is outside the closed status set, and then changes nothing.
    Otherwise it returns, leaves the entities alone, removes every
    [has_status] edge that leaves [name], keeps every other relation, and
    adds the one edge from [name] to [status:value]; that edge is then the
    only [has_status] edge leaving [name].  So after
    [setEntityStatus "P1" "active"] and [setEntityStatus "P1" "completed"]
    there is exactly one [has_status] edge from [P1], to [status:completed]. *)
Theorem status_singularity (w : World) :
  (∀ n v, v ∉ VALID_STATUS_VALUES →
          setEntityStatus n v w = (inl (InvalidStatusValue v), w))
  ∧ (∀ n v, v ∈ VALID_STATUS_VALUES →
       ∃ w',
         setEntityStatus n v w = (inr tt, w')
         ∧ entities (file w') = entities (file w)
         ∧ relations (file w')
           = filter (λ r, ¬ (from r = n ∧ relationType r = "has_status"))
                    (relations (file w))
             ++ [mkRelation n ("status:" +:+ v) "has_status"]
         ∧ filter (λ r, from r = n ∧ relationType r = "has_status")
                  (relations (file w'))
           = [mkRelation n ("status:" +:+ v) "has_status"])
  ∧ (∃ w1 w2,
       setEntityStatus "P1" "active" w = (inr tt, w1)
       ∧ setEntityStatus "P1" "completed" w1 = (inr tt, w2)
       ∧ filter (λ r, from r = "P1" ∧ relationType r = "has_status")
                (relations (file w2))
         = [mkRelation "P1" "status:completed" "has_status"]).
Proof.
  split; [|split].
  - intros n v Hv. rewrite setEntityStatus_eq.
    apply includes_false in Hv. by rewrite Hv.
  - intros n v Hv. rewrite setEntityStatus_eq.
    apply includes_true in Hv. rewrite Hv.
    eexists. split; [reflexivity|]. cbn [file stored entities relations].
    split; [done|]. split; [done|]. apply statusEdges_after_set.
  - rewrite setEntityStatus_eq.
    change (includes VALID_STATUS_VALUES "active") with true. cbv iota.
    eexists _, _. split; [reflexivity|].
    rewrite setEntityStatus_eq.
    change (includes VALID_STATUS_VALUES "completed") with true. cbv iota.
    split; [reflexivity|]. cbn [file stored entities relations].
    apply (statusEdges_after_set "P1" "completed").
Qed.

Lemma status_singularity_witness :
  let w := stored (mkGraph [mkEntity "P1" "project" []]
                           [mkRelation "P1" "status:pending" "has_status";
                            mkRelation "P1" "status:active" "has_status"]) in
  ("bogus" ∉ VALID_STATUS_VALUES) ∧ "completed" ∈ VALID_STATUS_VALUES
  ∧ setEntityStatus "P1" "bogus" w = (inl (InvalidStatusValue "bogus"), w)
  ∧ ∃ w', setEntityStatus "P1" "completed" w = (inr tt, w')
          ∧ relations (file w')
            = [mkRelation "P1" "status:completed" "has_status"].
Proof.
  intros w.
  assert ("bogus" ∉ VALID_STATUS_VALUES) as Hbad.
  { apply (bool_decide_eq_false_1 ("bogus" ∈ VALID_STATUS_VALUES)).
    vm_compute. reflexivity. }
  assert ("completed" ∈ VALID_STATUS_VALUES) as Hgood.
  { apply (bool_decide_eq_true_1 ("completed" ∈ VALID_STATUS_VALUES)).
    vm_compute. reflexivity. }
  split; [exact Hbad|]. split; [exact Hgood|].
  destruct (status_singularity w) as (Hinvalid & Hvalid & _).
  split; [exact (Hinvalid "P1" "bogus" Hbad)|].
  destruct (Hvalid "P1" "completed" Hgood) as (w' & Heq & _ & Hrels & _).
  exists w'. split; [exact Heq|]. rewrite Hrels. vm_compute. reflexivity.
Defined.

(** ** Referential integrity *)

Lemma referentialIntegrity_step (g g' : KnowledgeGraph) :
  (∀ n, present g n → present g' n) →
  (∀ r, r ∈ relations g' →
        r ∈ relations g ∨ (present g' (from r) ∧ present g' (to r))) →
  referentialIntegrity g → referentialIntegrity g'.
Proof.
  unfold referentialIntegrity. rewrite !Forall_forall.
  intros Hnames Hrels HRI r Hr.
  destruct (Hrels r Hr) as [Hold|Hnew]; [|done].
  destruct (HRI r Hold). split; by apply Hnames.
Qed.

Lemma addObservations_loop_frame (obs : list ObservationInput)
    (results : list ObservationResult) (w : World) :
  name <$> entities (graph (addObservations_loop obs results w).2)
  = name <$> entities (graph w)
  ∧ relations (graph (addObservations_loop obs results w).2)
    = relations (graph w).
Proof.
  revert results w. induction obs as [|o obs IH]; intros results w; simpl; [done|].
  munfold.
  destruct (findEntity (entityName o) (entities (graph w))) as [[i e]|] eqn:Hfind;
    [|done].
  destruct (IH (results ++ [mkObservationResult (entityName o)
                 (filter (λ o0, has (list_to_set (observations e)) o0 = false)
                         (contents o))])
               {| file := file w;
                  graph := {| entities :=
                                <[i := withObservations e
                                         (observations e
                                          ++ filter (λ o0, has (list_to_set (observations e)) o0 = false)
                                                    (contents o))]> (entities (graph w));
                              relations := relations (graph w) |} |})
    as [Hn Hr].
  rewrite Hn, Hr. simpl. split; [|done].
  apply names_withObservations.
  apply list_find_Some in Hfind as (Hi & _). done.
Qed.

Lemma addObservations_frame (obs : list ObservationInput) (w : World) :
  name <$> entities (file (addObservations obs w).2) = name <$> entities (file w)
  ∧ relations (file (addObservations obs w).2) = relations (file w).
Proof.
  unfold addObservations. munfold.
  pose proof (addObservations_loop_frame obs []
                {| file := file w; graph := file w |}) as [Hn Hr].
  pose proof (addObservations_loop_file obs []
                {| file := file w; graph := file w |}) as Hf.
  destruct (addObservations_loop obs [] _) as [[e|res] w0]; simpl in *.
  - by rewrite Hf.
  - done.
Qed.

Lemma deleteObservations_loop_frame (deletions : list ObservationDeletion)
    (w : World) :
  ∃ w',
    forEach deletions (λ deletion : ObservationDeletion,
      g ← getGraph;
      match findEntity (deletionEntityName deletion) (entities g) with
      | Some (i, entity) =>
          setEntities
            (<[i := withObservations entity
                      (filter (λ o, includes (deletedObservations deletion) o = false)
                              (observations entity))]> (entities g))
      | None => mret tt
      end) w = (inr tt, w')
    ∧ file w' = file w
    ∧ name <$> entities (graph w') = name <$> entities (graph w)
    ∧ relations (graph w') = relations (graph w).
Proof.
  revert w. induction deletions as [|d ds IH]; intros w; simpl.
  - by exists w.
  - munfold.
    destruct (findEntity (deletionEntityName d) (entities (graph w)))
      as [[i e]|] eqn:Hfind.
    + edestruct IH as (w' & Heq & Hf & Hn & Hr). rewrite Heq.
      exists w'. split; [done|]. rewrite Hf, Hn, Hr. simpl.
      split; [done|]. split; [|done].
      apply names_withObservations.
      apply list_find_Some in Hfind as (Hi & _). done.
    + destruct (IH w) as (w' & Heq & Hf & Hn & Hr). rewrite Heq. by exists w'.
Qed.

Lemma deleteObservations_frame (deletions : list ObservationDeletion) (w : World) :
  ∃ w', deleteObservations deletions w = (inr tt, w')
        ∧ name <$> entities (file w') = name <$> entities (file w)
        ∧ relations (file w') = relations (file w).
Proof.
  unfold deleteObservations.
  unfold mbind at 1 2, M_bind at 1 2, loadGraph.
  destruct (deleteObservations_loop_frame deletions
              {| file := file w; graph := file w |}) as (w' & Heq & Hf & Hn & Hr).
  rewrite Heq. unfold saveGraph.
  eexists. split; [reflexivity|]. done.
Qed.

Lemma deleteRelations_eq (rels : list Relation) (w : World) :
  deleteRelations rels w =
  (inr tt,
   stored (mkGraph
             (entities (file w))
             (filter (λ r, ¬ Exists (λ toDelete,
                              from r = from toDelete ∧ to r = to toDelete
                              ∧ relationType r = relationType toDelete) rels)
                     (relations (file w))))).
Proof. reflexivity. Qed.

Lemma ensureValueEntity_names (type : string) (values : list string)
    (es : list Entity) (n : string) :
  n ∈ (name <$> es) → n ∈ (name <$> foldl (ensureValueEntity type) es values).
Proof.
  revert es. induction values as [|v values IH]; intros es Hn; simpl; [done|].
  apply IH. unfold ensureValueEntity. case_decide; [done|].
  rewrite fmap_app. apply elem_of_app. by left.
Qed.

Lemma initializeStatusAndPriority_eq (w : World) :
  initializeStatusAndPriority w =
  (inr tt,
   stored (mkGraph
             (foldl (ensureValueEntity "priority")
                    (foldl (ensureValueEntity "status") (entities (file w))
                           VALID_STATUS_VALUES)
                    VALID_PRIORITY_VALUES)
             (relations (file w)))).
Proof. reflexivity. Qed.

Lemma referentialIntegrity_same (g g' : KnowledgeGraph) :
  name <$> entities g' = name <$> entities g →
  relations g' = relations g →
  referentialIntegrity g → referentialIntegrity g'.
Proof.
  intros Hn Hr. apply referentialIntegrity_step.
  - intros n. unfold present. by rewrite Hn.
  - intros r. rewrite Hr. by left.
Qed.

(** C8 (as amended).  Every call of [createEntities], [createRelations],
    [addObservations], [deleteEntities], [deleteObservations],
    [deleteRelations] and [initializeStatusAndPriority], applied to a graph
    in which every relation joins two entities of the graph, yields such a
    graph, whether it returns or throws.  [setEntityStatus] and
    [setEntityPriority] do so when the entity they are called for and the
    entity [status:value], respectively [priority:value], are in the graph.
    Hence every graph reached from the empty graph by such calls has
    referential integrity. *)
Theorem referential_integrity_preserved `{Deployment} :
  (∀ c w,
     referentialIntegrity (file w) → endpointsPresent c (file w) →
     referentialIntegrity (file (exec c w).2))
  ∧ (∀ g, reachable g → referentialIntegrity g).
Proof.
  assert (∀ c w,
            referentialIntegrity (file w) → endpointsPresent c (file w) →
            referentialIntegrity (file (exec c w).2)) as Hstep.
  { intros c w HRI Hguard. destruct c as [ents|rels|obs|ns|ds|rels| |n v|n v];
      cbn [exec].
    - (* createEntities *)
      unfold mbind, M_bind. rewrite createEntities_eq.
      destruct (firstFailure entityFailure ents); cbn; [done|].
      revert HRI. apply referentialIntegrity_step; cbn.
      + intros n. unfold present. cbn. rewrite fmap_app, elem_of_app. by left.
      + intros r Hr. by left.
    - (* createRelations *)
      unfold mbind, M_bind. rewrite createRelations_eq.
      destruct (firstFailure _ rels) eqn:Hff; cbn; [done|].
      apply firstFailure_None in Hff. rewrite Forall_forall in Hff.
      revert HRI. apply referentialIntegrity_step; cbn.
      + done.
      + intros r Hr. apply elem_of_app in Hr as [Hr|Hr]; [by left|right].
        apply list_elem_of_filter in Hr as [_ Hr].
        apply Hff, relationFailure_None in Hr as (Hf & Ht & _). done.
    - (* addObservations *)
      destruct (addObservations_frame obs w) as [Hn Hr].
      assert (file ((addObservations obs ;; mret tt) w).2
              = file (addObservations obs w).2) as ->.
      { unfold mbind, M_bind, mret, M_ret.
        by destruct (addObservations obs w) as [[e|res] w0]. }
      by apply (referentialIntegrity_same (file w)).
    - (* deleteEntities *)
      rewrite deleteEntities_eq. cbn.
      unfold referentialIntegrity in *. rewrite Forall_forall in *. cbn.
      intros r Hr. apply list_elem_of_filter in Hr as [[Hf Ht] Hr].
      destruct (HRI r Hr) as [Hpf Hpt]. unfold present in *. cbn.
      apply list_elem_of_fmap in Hpf as (ef & Hef & Hinf).
      apply list_elem_of_fmap in Hpt as (et & Het & Hint).
      split; apply list_elem_of_fmap.
      + exists ef. split; [done|]. apply list_elem_of_filter. by rewrite <- Hef.
      + exists et. split; [done|]. apply list_elem_of_filter. by rewrite <- Het.
    - (* deleteObservations *)
      destruct (deleteObservations_frame ds w) as (w' & Heq & Hn & Hr).
      rewrite Heq. cbn. by apply (referentialIntegrity_same (file w)).
    - (* deleteRelations *)
      rewrite deleteRelations_eq. cbn.
      revert HRI. apply referentialIntegrity_step; cbn; [done|].
      intros r Hr. apply list_elem_of_filter in Hr as [_ Hr]. by left.
    - (* initializeStatusAndPriority *)
      rewrite initializeStatusAndPriority_eq. cbn [snd file stored].
      revert HRI. apply referentialIntegrity_step; cbn [entities relations].
      + intros n Hn. unfold present in *. cbn [entities].
        by do 2 apply ensureValueEntity_names.
      + intros r Hr. by left.
    - (* setEntityStatus *)
      rewrite setEntityStatus_eq.
      destruct (includes VALID_STATUS_VALUES v) eqn:Hv; cbn; [|done].
      apply includes_true in Hv. destruct (Hguard Hv) as [Hpn Hpv].
      revert HRI. apply referentialIntegrity_step; cbn; [done|].
      intros r Hr. apply elem_of_app in Hr as [Hr|Hr].
      + apply list_elem_of_filter in Hr as [_ Hr]. by left.
      + apply list_elem_of_singleton in Hr as ->. by right.
    - (* setEntityPriority *)
      rewrite setEntityPriority_eq.
      destruct (includes VALID_PRIORITY_VALUES v) eqn:Hv; cbn; [|done].
      apply includes_true in Hv. destruct (Hguard Hv) as [Hpn Hpv].
      revert HRI. apply referentialIntegrity_step; cbn; [done|].
      intros r Hr. apply elem_of_app in Hr as [Hr|Hr].
      + apply list_elem_of_filter in Hr as [_ Hr]. by left.
      + apply list_elem_of_singleton in Hr as ->. by right. }
  split; [exact Hstep|].
  induction 1 as [|c g _ IH Hguard].
  - constructor.
  - unfold fileAfter. by apply Hstep.
Qed.

Lemma referential_integrity_preserved_witness :
  let g := fileAfter (H := compiled_build) (CreateEntities [mkEntity "P1" "project" []])
             (fileAfter (H := compiled_build) InitializeStatusAndPriority emptyGraph) in
  referentialIntegrity g
  ∧ endpointsPresent (SetEntityStatus "P1" "active") g
  ∧ referentialIntegrity (fileAfter (H := compiled_build) (SetEntityStatus "P1" "active") g)
  ∧ relations (fileAfter (H := compiled_build) (SetEntityStatus "P1" "active") g)
    = [mkRelation "P1" "status:active" "has_status"].
Proof.
  intros g.
  destruct (referential_integrity_preserved (H := compiled_build)) as [Hstep Hreach].
  assert (reachable (H := compiled_build) g) as Hg.
  { apply reachable_call; [|exact I]. apply reachable_call; [|exact I].
    apply reachable_empty. }
  assert (endpointsPresent (SetEntityStatus "P1" "active") g) as Hguard.
  { intros _. unfold present. split.
    - apply (bool_decide_eq_true_1 ("P1" ∈ (name <$> entities g))).
      vm_compute. reflexivity.
    - apply (bool_decide_eq_true_1 ("status:active" ∈ (name <$> entities g))).
      vm_compute. reflexivity. }
  split; [exact (Hreach g Hg)|]. split; [exact Hguard|].
  split; [exact (Hstep _ (stored g) (Hreach g Hg) Hguard)|].
  vm_compute. reflexivity.
Defined.

(** C8, as stated, fails for the status and priority setters, which check
    the value only.  After the start-up [initializeStatusAndPriority],
    [setEntityStatus "P1" "active"] on a graph without [P1] stores an edge
    that leaves no entity; on the empty graph neither endpoint exists. *)
Lemma referential_integrity_preserved_counterexample :
  let started := fileAfter (H := compiled_build) InitializeStatusAndPriority emptyGraph in
  let g := fileAfter (H := compiled_build) (SetEntityStatus "P1" "active") started in
  referentialIntegrity started
  ∧ mkRelation "P1" "status:active" "has_status" ∈ relations g
  ∧ ¬ present g "P1"
  ∧ ¬ referentialIntegrity g
  ∧ ¬ referentialIntegrity
        (fileAfter (H := compiled_build) (SetEntityPriority "P1" "high") emptyGraph).
Proof.
  intros started g.
  assert (relations started = []) as Hrs by (vm_compute; reflexivity).
  assert (relations g = [mkRelation "P1" "status:active" "has_status"]) as Hrg
    by (vm_compute; reflexivity).
  assert (¬ present g "P1") as Hno.
  { unfold present.
    apply (bool_decide_eq_false_1 ("P1" ∈ (name <$> entities g))).
    vm_compute. reflexivity. }
  split; [|split; [|split; [exact Hno|split]]].
  - unfold referentialIntegrity. rewrite Hrs. constructor.
  - rewrite Hrg. apply list_elem_of_singleton. reflexivity.
  - unfold referentialIntegrity. rewrite Hrg. intros HRI.
    apply Forall_cons in HRI as [[Hf _] _]. exact (Hno Hf).
  - unfold referentialIntegrity.
    assert (relations (fileAfter (H := compiled_build)
                         (SetEntityPriority "P1" "high") emptyGraph)
            = [mkRelation "P1" "priority:high" "has_priority"]) as ->
      by (vm_compute; reflexivity).
    intros HRI. apply Forall_cons in HRI as [[Hf _] _].
    unfold present in Hf. vm_compute in Hf. apply elem_of_nil in Hf. exact Hf.
Qed.

(** ** Project overview *)

Lemma findTyped_Some (n t : string) (es : list Entity) (e : Entity) :
  findTyped n t es = Some e → e ∈ es ∧ name e = n ∧ entityType e = t.
Proof.
  unfold findTyped. destruct (list_find _ es) as [[i x]|] eqn:Hfind; [|done].
  intros [= <-]. apply list_find_Some in Hfind as (Hi & [Hn Ht] & _).
  split; [|done]. apply list_elem_of_lookup. by exists i.
Qed.

Lemma findTyped_is_Some (g : KnowledgeGraph) (n t : string) :
  is_Some (findTyped n t (entities g)) ↔ hasTyped g n t.
Proof.
  unfold findTyped, hasTyped. rewrite Exists_exists. split.
  - intros [e He]. apply findTyped_Some in He as (Hin & Hn & Ht). by exists e.
  - intros (e & Hin & Hn & Ht).
    destruct (list_find_elem_of (λ e, name e = n ∧ entityType e = t)
                (entities g) e Hin (conj Hn Ht)) as [[i x] ->].
    by eexists.
Qed.

Lemma fmap_omap_filter {A B C} (f : A → option B) (P : A → Prop)
    `{∀ x, Decision (P x)} (h : B → C) (h' : A → C) (l : list A) :
  (∀ x, match f x with Some y => P x ∧ h y = h' x | None => ¬ P x end) →
  h <$> omap f l = h' <$> filter P l.
Proof.
  intros Hf. induction l as [|x l IH]; [done|].
  specialize (Hf x).
  change (omap f (x :: l))
    with (match f x with Some y => y :: omap f l | None => omap f l end).
  destruct (f x) as [y|].
  - destruct Hf as [HP Hh]. rewrite filter_cons_True by done.
    rewrite !fmap_cons. by rewrite Hh, IH.
  - by rewrite filter_cons_False.
Qed.

Lemma foldl_add_sum {A} (h : A → nat) (l : list A) (n : nat) :
  foldl (λ total x, total + h x) n l = n + sum_list (h <$> l).
Proof.
  revert n. induction l as [|x l IH]; intros n.
  - cbn. lia.
  - rewrite fmap_cons. cbn [foldl]. rewrite IH.
    change (sum_list (h x :: (h <$> l))) with (h x + sum_list (h <$> l)). lia.
Qed.

Lemma datasetVariables_length (g : KnowledgeGraph) (d : Entity) :
  List.length (datasetVariables g d) = List.length (variableEdges g (name d)).
Proof.
  unfold datasetVariables, variableEdges.
  rewrite <- (length_fmap (λ _, tt) (omap _ _)).
  rewrite <- (length_fmap (λ _, tt) (filter _ _)).
  f_equal. apply fmap_omap_filter. intros r.
  case_decide as Hr.
  - destruct (findTyped (to r) "variable" (entities g)) as [v|] eqn:Hv.
    + split; [|done]. destruct Hr. split; [done|]. split; [done|].
      apply findTyped_is_Some. by rewrite Hv.
    + intros (_ & _ & Hex). apply findTyped_is_Some in Hex.
      rewrite Hv in Hex. by destruct Hex.
  - tauto.
Qed.

Lemma countVariables_edges (g : KnowledgeGraph) (projectName : string) :
  countVariables g (partOfProject g projectName "dataset")
  = sum_list ((λ r, List.length (variableEdges g (from r)))
                <$> datasetEdges g projectName).
Proof.
  unfold countVariables. rewrite foldl_add_sum. simpl. f_equal.
  unfold partOfProject, datasetEdges. apply fmap_omap_filter. intros r.
  case_decide as Hr.
  - destruct (findTyped (from r) "dataset" (entities g)) as [d|] eqn:Hd.
    + split.
      * destruct Hr. split; [done|]. split; [done|].
        apply findTyped_is_Some. by rewrite Hd.
      * apply findTyped_Some in Hd as (_ & Hn & _).
        by rewrite datasetVariables_length, Hn.
    + intros (_ & _ & Hex). apply findTyped_is_Some in Hex.
      rewrite Hd in Hex. by destruct Hex.
  - tauto.
Qed.

Lemma getProjectOverview_eq (projectName : string) (w : World) :
  getProjectOverview projectName w =
  match findTyped projectName "project" (entities (file w)) with
  | None => (inl (ProjectNotFound projectName), stored (file w))
  | Some project =>
      let g := file w in
      let dsets := partOfProject g projectName "dataset" in
      let hyps := partOfProject g projectName "hypothesis" in
      let mods := partOfProject g projectName "model" in
      (inr (mkProjectOverview project
              (partOfProject g projectName "researchQuestion")
              (filter (λ o, mentionsAny ["method"; "approach"; "design"] o = true)
                      (observations project))
              (filter (λ o, mentionsAny ["participant"; "sample"; "subject"] o = true)
                      (observations project))
              (mkDataCollection (List.length dsets) (countVariables g dsets) dsets)
              (mkAnalysis (List.length hyps) (List.length mods) hyps mods)
              (partOfProject g projectName "finding")),
       stored (file w))
  end.
Proof.
  unfold getProjectOverview. munfold. cbn [graph file].
  by destruct (findTyped projectName "project" (entities (file w))).
Qed.

Lemma sum_list_elem {A} (h : A → nat) (l : list A) (x : A) :
  x ∈ l → h x ≤ sum_list (h <$> l).
Proof.
  induction l as [|y l IH]; intros Hin; [by apply elem_of_nil in Hin|].
  rewrite fmap_cons.
  change (sum_list (h y :: (h <$> l))) with (h y + sum_list (h <$> l)).
  apply elem_of_cons in Hin as [->|Hin]; [lia|]. specialize (IH Hin). lia.
Qed.

(** C9 (as amended).  [getProjectOverview] never changes the graph file,
    whether it returns or throws.  When it returns, [totalVariables] is the
    sum, over the [part_of] edges that link a dataset to the project, of the
    number of [contains] edges from that dataset to an entity of type
    variable.  In every graph that contains the project, a dataset [D]
    with a [part_of] edge to the project and a variable [V] with a [contains]
    edge from [D], the call returns and [totalVariables] is at least 1; it
    equals 1 when these two edges are the only dataset edge of the project
    and the only variable edge of [D]. *)
Theorem project_overview_totalVariables (projectName : string) (w : World) :
  file (getProjectOverview projectName w).2 = file w
  ∧ (∀ overview w',
       getProjectOverview projectName w = (inr overview, w') →
       totalVariables (dataCollection overview)
       = sum_list ((λ r, List.length (variableEdges (file w) (from r)))
                     <$> datasetEdges (file w) projectName))
  ∧ (∀ D V,
       hasTyped (file w) projectName "project" →
       hasTyped (file w) D "dataset" →
       hasTyped (file w) V "variable" →
       mkRelation D projectName "part_of" ∈ relations (file w) →
       mkRelation D V "contains" ∈ relations (file w) →
       ∃ overview w',
         getProjectOverview projectName w = (inr overview, w')
         ∧ 1 ≤ totalVariables (dataCollection overview)
         ∧ (datasetEdges (file w) projectName = [mkRelation D projectName "part_of"] →
            variableEdges (file w) D = [mkRelation D V "contains"] →
            totalVariables (dataCollection overview) = 1)).
Proof.
  rewrite getProjectOverview_eq. split; [|split].
  - by destruct (findTyped projectName "project" (entities (file w))).
  - intros overview w'.
    destruct (findTyped projectName "project" (entities (file w))); [|done].
    cbv zeta. intros [= <- _]. cbn [dataCollection totalVariables].
    apply countVariables_edges.
  - intros D V Hproj HD HV Hpart Hcontains.
    apply findTyped_is_Some in Hproj as [p Hp]. rewrite Hp. cbv zeta.
    eexists _, _. split; [reflexivity|]. cbn [dataCollection totalVariables].
    rewrite countVariables_edges. split.
    + assert (mkRelation D projectName "part_of" ∈ datasetEdges (file w) projectName)
        as Hedge by (by apply list_elem_of_filter).
      assert (mkRelation D V "contains" ∈ variableEdges (file w) D)
        as Hvar by (by apply list_elem_of_filter).
      pose proof (sum_list_elem (λ r, List.length (variableEdges (file w) (from r)))
                    _ _ Hedge) as Hle.
      cbn [from] in Hle.
      destruct (variableEdges (file w) D); [by apply elem_of_nil in Hvar|].
      simpl in Hle. lia.
    + intros -> . cbn. intros ->. reflexivity.
Qed.

Lemma project_overview_totalVariables_witness :
  let g := mkGraph [mkEntity "Proj" "project" []; mkEntity "D" "dataset" [];
                    mkEntity "V" "variable" []]
                   [mkRelation "D" "Proj" "part_of"; mkRelation "D" "V" "contains"] in
  ∃ overview w',
    getProjectOverview "Proj" (stored g) = (inr overview, w')
    ∧ file w' = g
    ∧ totalVariables (dataCollection overview) = 1.
Proof.
  intros g.
  destruct (project_overview_totalVariables "Proj" (stored g))
    as (Hfile & _ & Hone).
  destruct (Hone "D" "V") as (overview & w' & Heq & _ & H1).
  - apply (bool_decide_eq_true_1
             (Exists (λ e, name e = "Proj" ∧ entityType e = "project") (entities g))).
    vm_compute. reflexivity.
  - apply (bool_decide_eq_true_1
             (Exists (λ e, name e = "D" ∧ entityType e = "dataset") (entities g))).
    vm_compute. reflexivity.
  - apply (bool_decide_eq_true_1
             (Exists (λ e, name e = "V" ∧ entityType e = "variable") (entities g))).
    vm_compute. reflexivity.
  - apply elem_of_cons. left. reflexivity.
  - apply elem_of_cons. right. apply list_elem_of_singleton. reflexivity.
  - exists overview, w'. split; [exact Heq|]. split.
    + rewrite Heq in Hfile. exact Hfile.
    + apply H1; vm_compute; reflexivity.
Defined.

(** C9, as stated for every graph that contains the three entities and the
    two edges, fails: a second variable of the dataset is counted too.  The
    graph below is built by the store itself. *)
Lemma project_overview_totalVariables_counterexample :
  let g :=
    fileAfter (H := index_ts)
      (CreateRelations [mkRelation "D" "Proj" "part_of";
                        mkRelation "D" "V" "contains";
                        mkRelation "D" "V2" "contains"])
      (fileAfter (H := index_ts)
         (CreateEntities [mkEntity "Proj" "project" []; mkEntity "D" "dataset" [];
                          mkEntity "V" "variable" []; mkEntity "V2" "variable" []])
         emptyGraph) in
  mkEntity "Proj" "project" [] ∈ entities g
  ∧ mkEntity "D" "dataset" [] ∈ entities g
  ∧ mkEntity "V" "variable" [] ∈ entities g
  ∧ mkRelation "D" "Proj" "part_of" ∈ relations g
  ∧ mkRelation "D" "V" "contains" ∈ relations g
  ∧ ∃ overview, getProjectOverview "Proj" (stored g) = (inr overview, stored g)
                ∧ totalVariables (dataCollection overview) = 2.
Proof.
  intros g.
  assert (g = mkGraph [mkEntity "Proj" "project" []; mkEntity "D" "dataset" [];
                       mkEntity "V" "variable" []; mkEntity "V2" "variable" []]
                      [mkRelation "D" "Proj" "part_of";
                       mkRelation "D" "V" "contains";
                       mkRelation "D" "V2" "contains"]) as ->
    by (vm_compute; reflexivity).
  cbn [entities relations].
  split; [apply elem_of_cons; left; reflexivity|].
  split; [apply elem_of_cons; right; apply elem_of_cons; left; reflexivity|].
  split; [do 2 (apply elem_of_cons; right); apply elem_of_cons; left; reflexivity|].
  split; [apply elem_of_cons; left; reflexivity|].
  split; [apply elem_of_cons; right; apply elem_of_cons; left; reflexivity|].
  eexists. split; vm_compute; reflexivity.
Qed.

(** ** The update steps of the session commit *)

Lemma searchNodes_returns (query : string) (w : World) :
  ∃ found, searchNodes query w = (inr found, stored (file w))
           ∧ searchHits query w = entities found.
Proof.
  unfold searchHits. rewrite searchNodes_eq. cbv zeta.
  eexists. split; reflexivity.
Qed.

(** [deleteEntities [n]] followed by [createEntities] of one entity of that
    name. *)
Lemma delete_then_create `{Deployment} (ent : Entity) (w : World) :
  (deleteEntities [name ent] ;; createEntities [ent] ;; mret tt) w =
  let deleted :=
    mkGraph (filter (λ e, name e ≠ name ent) (entities (file w)))
            (filter (λ r, ¬ touches r (name ent)) (relations (file w))) in
  if validateEntityType (entityType ent)
  then (inr tt, stored (mkGraph (entities deleted ++ [ent]) (relations deleted)))
  else (inl (InvalidEntityType (entityType ent) VALID_ENTITY_TYPES), stored deleted).
Proof.
  unfold mbind at 1, M_bind at 1. rewrite deleteEntities_eq.
  assert (filter (λ e, name e ∉ [name ent]) (entities (file w))
          = filter (λ e, name e ≠ name ent) (entities (file w))) as ->.
  { apply list_filter_iff. intros e. by rewrite list_elem_of_singleton. }
  assert (filter (λ r, (from r ∉ [name ent]) ∧ (to r ∉ [name ent])) (relations (file w))
          = filter (λ r, ¬ touches r (name ent)) (relations (file w))) as ->.
  { apply list_filter_iff. intros r. unfold touches.
    rewrite !list_elem_of_singleton. tauto. }
  unfold mbind, M_bind. rewrite createEntities_eq.
  cbn [firstFailure file stored entities relations]. unfold entityFailure.
  destruct (validateEntityType (entityType ent)); [|done].
  cbv zeta. rewrite filter_cons_True, filter_nil; [done|].
  intros Hin. apply list_elem_of_fmap in Hin as (e & Hname & He).
  apply list_elem_of_filter in He as [Hne _]. by apply Hne.
Qed.




(** The update branch of a step: the entity is deleted and re-created, then
    the links of the step, if any, are created. *)
Lemma runStep_update_branch `{Deployment} (step : UpdateStep) (w w1 : World)
    (found : Entity) (others : list Entity) :
  searchHits ("name:" +:+ stepEntity step) w = found :: others →
  runStep step w = (inr tt, w1) →
  ∃ w0,
    (deleteEntities [name (stepRecreates step found)] ;;
     createEntities [stepRecreates step found] ;; mret tt) (stored (file w))
    = (inr tt, w0)
    ∧ (w1 = w0
       ∨ ∃ created, createRelations (stepLinks step) w0 = (inr created, w1)).
Proof.
  intros Hhits Hrun.
  destruct (searchNodes_returns ("name:" +:+ stepEntity step) w)
    as (res & Hsearch & Hres).
  rewrite Hhits in Hres.
  destruct step as [date project u|date project h|date project m
                    |date project status observation];
    cbn [runStep stepEntity stepRecreates stepLinks name] in *.
  - unfold commitDatasetUpdate in Hrun.
    unfold mbind at 1, M_bind at 1 in Hrun. rewrite Hsearch, <- Hres in Hrun.
    exists w1. split; [exact Hrun | by left].
  - unfold commitHypothesisResult in Hrun.
    unfold mbind at 1 2, M_bind at 1 2 in Hrun. rewrite Hsearch, <- Hres in Hrun.
    destruct ((deleteEntities [hr_name h] ;;
               createEntities [mkEntity (hr_name h) "hypothesis"
                                 (hypothesisObservations date h found)] ;;
               mret tt) (stored (file w))) as [[e|[]] w0] eqn:Hcore; [done|].
    exists w0. split; [done|].
    unfold linkIf in Hrun. destruct (JS.truthy (hr_testName h)).
    + right. unfold mbind, M_bind, mret, M_ret in Hrun.
      destruct (createRelations _ w0) as [[e|created] w'] eqn:Hlink; [done|].
      exists created. by injection Hrun as <-.
    + left. unfold mret, M_ret in Hrun. by injection Hrun.
  - unfold commitModelUpdate in Hrun.
    unfold mbind at 1, M_bind at 1 in Hrun. rewrite Hsearch, <- Hres in Hrun.
    exists w1. split; [exact Hrun | by left].
  - unfold commitProjectStatus in Hrun.
    unfold mbind at 1, M_bind at 1 in Hrun. rewrite Hsearch, <- Hres in Hrun.
    exists w1. split; [exact Hrun | by left].
Qed.








(** * Further properties of the code *)

Lemma filter_none {A} (P : A → Prop) `{∀ x, Decision (P x)} (l : list A) :
  Forall (λ x, ¬ P x) l → filter P l = [].
Proof.
  induction 1 as [|x l Hx _ IH]; [done|].
  by rewrite filter_cons_False.
Qed.

Lemma withObservations_same (e : Entity) : withObservations e (observations e) = e.
Proof. by destruct e. Qed.

(** ** Creating twice *)

(** X1.  When [createEntities] returns, it returns the entities of the batch
    whose name was not in the graph, in the order of the batch, and has
    appended exactly those to the stored entities, leaving the relations
    alone; every name of the batch is then in the graph, and the same call
    made again returns the empty list and leaves the file as it is. *)
Theorem createEntities_idempotent `{Deployment} (ents created : list Entity)
    (w w1 : World) :
  createEntities ents w = (inr created, w1) →
  created = filter (λ e, name e ∉ name <$> entities (file w)) ents
  ∧ file w1 = mkGraph (entities (file w) ++ created) (relations (file w))
  ∧ (∀ e, e ∈ ents → present (file w1) (name e))
  ∧ createEntities ents w1 = (inr [], w1).
Proof.
  rewrite createEntities_eq.
  destruct (firstFailure entityFailure ents) eqn:Hvalid; [done|].
  cbv zeta. intros [= <- <-]. split; [done|]. split; [done|].
  assert (∀ e, e ∈ ents →
               name e ∈ name <$> (entities (file w)
                                  ++ filter (λ e, name e ∉ name <$> entities (file w)) ents))
    as Hall.
  { intros e He. rewrite fmap_app, elem_of_app.
    destruct (decide (name e ∈ name <$> entities (file w))) as [Hin|Hnin];
      [by left|right].
    apply list_elem_of_fmap_2. by apply list_elem_of_filter. }
  split; [exact Hall|].
  rewrite createEntities_eq, Hvalid. cbn [file stored entities relations].
  rewrite filter_none; [by rewrite app_nil_r|].
  apply Forall_forall. intros e He Hn. by apply Hn, Hall.
Qed.

Lemma createEntities_idempotent_witness :
  let g := mkGraph [mkEntity "A" "project" []] [] in
  let batch := [mkEntity "A" "dataset" ["ignored"]; mkEntity "B" "dataset" []] in
  let w1 := stored (mkGraph [mkEntity "A" "project" []; mkEntity "B" "dataset" []] []) in
  createEntities (H := index_ts) batch (stored g) = (inr [mkEntity "B" "dataset" []], w1)
  ∧ createEntities (H := index_ts) batch w1 = (inr [], w1).
Proof.
  intros g batch w1.
  assert (createEntities (H := index_ts) batch (stored g)
          = (inr [mkEntity "B" "dataset" []], w1)) as Hrun
    by (vm_compute; reflexivity).
  split; [exact Hrun|].
  exact (proj2 (proj2 (proj2 (createEntities_idempotent (H := index_ts)
                                 batch _ (stored g) w1 Hrun)))).
Defined.

(** X2.  [createEntities] keeps entity names unique only as far as the
    batch does: when the names of the graph are pairwise distinct and the
    call returns, the names of the graph afterwards are pairwise distinct
    exactly when the names of the entities it created are; two new entities
    of one name in a batch are both stored. *)
Theorem createEntities_unique_names `{Deployment} (ents created : list Entity)
    (w w1 : World) :
  createEntities ents w = (inr created, w1) →
  NoDup (name <$> entities (file w)) →
  NoDup (name <$> entities (file w1)) ↔ NoDup (name <$> created).
Proof.
  rewrite createEntities_eq.
  destruct (firstFailure entityFailure ents); [done|].
  cbv zeta. intros [= <- <-] Hnd. cbn [file stored entities].
  rewrite fmap_app, NoDup_app. split; [tauto|].
  intros Hcreated. split; [done|]. split; [|done].
  intros n Hn Hn'. apply list_elem_of_fmap in Hn' as (e & -> & He).
  by apply list_elem_of_filter in He as [Hnew _].
Qed.

Lemma createEntities_unique_names_witness :
  let twin1 := mkEntity "S" "dataset" ["first"] in
  let twin2 := mkEntity "S" "dataset" ["second"] in
  let w := stored (mkGraph [mkEntity "A" "project" []] []) in
  ∃ w1, createEntities (H := index_ts) [twin1; twin2] w = (inr [twin1; twin2], w1)
        ∧ NoDup (name <$> entities (file w))
        ∧ ¬ NoDup (name <$> entities (file w1)).
Proof.
  intros twin1 twin2 w.
  exists (stored (mkGraph [mkEntity "A" "project" []; twin1; twin2] [])).
  assert (createEntities (H := index_ts) [twin1; twin2] w
          = (inr [twin1; twin2],
             stored (mkGraph [mkEntity "A" "project" []; twin1; twin2] []))) as Hrun
    by (vm_compute; reflexivity).
  assert (NoDup (name <$> entities (file w))) as Hnd
    by (simpl; apply NoDup_singleton).
  split; [exact Hrun|]. split; [exact Hnd|].
  rewrite (createEntities_unique_names (H := index_ts) _ _ _ _ Hrun Hnd).
  simpl. intros Hdup. apply NoDup_cons in Hdup as [Hnin _].
  apply Hnin. apply list_elem_of_singleton. reflexivity.
Defined.

(** X3.  When [createRelations] returns, it returns the relations of the
    batch whose key [from:to:relationType] was not among the keys of the
    stored relations and has appended exactly those, leaving the entities
    alone; the same call made again returns the empty list and leaves the
    file as it is. *)
Theorem createRelations_idempotent `{Deployment} (rels created : list Relation)
    (w w1 : World) :
  createRelations rels w = (inr created, w1) →
  created = filter (λ r, relationKey r ∉ relationKey <$> relations (file w)) rels
  ∧ file w1 = mkGraph (entities (file w)) (relations (file w) ++ created)
  ∧ createRelations rels w1 = (inr [], w1).
Proof.
  rewrite createRelations_eq.
  destruct (firstFailure _ rels) eqn:Hvalid; [done|].
  cbv zeta. intros [= <- <-]. split; [done|]. split; [done|].
  rewrite createRelations_eq. cbn [file stored entities relations].
  rewrite Hvalid. cbv zeta.
  rewrite filter_none; [by rewrite app_nil_r|].
  apply Forall_forall. intros r Hr Hn. apply Hn.
  rewrite fmap_app, elem_of_app.
  destruct (decide (relationKey r ∈ relationKey <$> relations (file w)))
    as [Hin|Hnin]; [by left|right].
  apply list_elem_of_fmap_2. by apply list_elem_of_filter.
Qed.

Lemma createRelations_idempotent_witness :
  let g := mkGraph [mkEntity "D" "dataset" []; mkEntity "V" "variable" []]
                   [mkRelation "D" "V" "contains"] in
  let batch := [mkRelation "D" "V" "contains"; mkRelation "V" "D" "part_of"] in
  let w1 := stored (mkGraph [mkEntity "D" "dataset" []; mkEntity "V" "variable" []]
                            [mkRelation "D" "V" "contains";
                             mkRelation "V" "D" "part_of"]) in
  createRelations (H := index_ts) batch (stored g)
  = (inr [mkRelation "V" "D" "part_of"], w1)
  ∧ createRelations (H := index_ts) batch w1 = (inr [], w1).
Proof.
  intros g batch w1.
  assert (createRelations (H := index_ts) batch (stored g)
          = (inr [mkRelation "V" "D" "part_of"], w1)) as Hrun
    by (vm_compute; reflexivity).
  split; [exact Hrun|].
  exact (proj2 (proj2 (createRelations_idempotent (H := index_ts)
                          batch _ (stored g) w1 Hrun))).
Defined.

(** ** Deleting relations *)

Lemma same_triple (r : Relation) (rels : list Relation) :
  Exists (λ toDelete, from r = from toDelete ∧ to r = to toDelete
                      ∧ relationType r = relationType toDelete) rels
  ↔ r ∈ rels.
Proof.
  rewrite Exists_exists. split.
  - intros (d & Hd & Hf & Ht & Hty). destruct r, d; simpl in *. by subst.
  - intros Hr. by exists r.
Qed.

(** X4.  [deleteRelations] never throws and leaves the entities alone; it
    removes every stored copy of each relation listed and keeps the others
    in their order.  It undoes [createRelations]: when no relation of a
    batch is stored, [createRelations] of the batch, whether it returns or
    throws, followed by [deleteRelations] of the batch leaves the file as it
    was. *)
Theorem deleteRelations_undoes_create `{Deployment} (rels : list Relation)
    (w : World) :
  deleteRelations rels w
  = (inr tt, stored (mkGraph (entities (file w))
                             (filter (λ r, r ∉ rels) (relations (file w)))))
  ∧ ((∀ r, r ∈ rels → r ∉ relations (file w)) →
     deleteRelations rels (createRelations rels w).2 = (inr tt, stored (file w))).
Proof.
  assert (∀ w0, deleteRelations rels w0
                = (inr tt, stored (mkGraph (entities (file w0))
                                           (filter (λ r, r ∉ rels)
                                                   (relations (file w0))))))
    as Hdelete.
  { intros w0. rewrite deleteRelations_eq. do 3 f_equal.
    apply list_filter_iff. intros r. by rewrite same_triple. }
  split; [apply Hdelete|]. intros Hfresh.
  assert (filter (λ r, r ∉ rels) (relations (file w)) = relations (file w))
    as Hkeep.
  { apply filter_all, Forall_forall. intros r Hr Hin. by apply (Hfresh r). }
  rewrite Hdelete, createRelations_eq.
  destruct (firstFailure _ rels); cbn [snd file stored entities relations].
  - rewrite Hkeep. by destruct (file w).
  - rewrite filter_app, Hkeep, filter_none.
    + rewrite app_nil_r. by destruct (file w).
    + apply Forall_forall. intros r Hr Hn. apply Hn.
      by apply list_elem_of_filter in Hr as [_ Hr].
Qed.

Lemma deleteRelations_undoes_create_witness :
  let g := mkGraph [mkEntity "D" "dataset" []; mkEntity "V" "variable" []]
                   [mkRelation "D" "V" "contains"] in
  let batch := [mkRelation "V" "D" "part_of"] in
  (∀ r, r ∈ batch → r ∉ relations g)
  ∧ deleteRelations batch (createRelations (H := index_ts) batch (stored g)).2
    = (inr tt, stored g).
Proof.
  intros g batch.
  assert (∀ r, r ∈ batch → r ∉ relations g) as Hfresh.
  { intros r Hr Hin. apply list_elem_of_singleton in Hr. subst r.
    simpl in Hin. apply list_elem_of_singleton in Hin. discriminate Hin. }
  split; [exact Hfresh|].
  exact (proj2 (deleteRelations_undoes_create (H := index_ts) batch (stored g))
               Hfresh).
Defined.

(** ** Deleting entities *)

(** X5.  Deleting in two calls is deleting in one: [deleteEntities first]
    followed by [deleteEntities second] leaves the file that
    [deleteEntities (first ++ second)] leaves; in particular a call made
    twice does what it does once, and after it no entity bears a listed name
    and no relation starts or ends at one. *)
Theorem deleteEntities_compose (first second : list string) (w : World) :
  file (deleteEntities second (deleteEntities first w).2).2
  = file (deleteEntities (first ++ second) w).2
  ∧ file (deleteEntities first (deleteEntities first w).2).2
    = file (deleteEntities first w).2
  ∧ (∀ n, n ∈ first →
       ¬ present (file (deleteEntities first w).2) n
       ∧ ∀ r, r ∈ relations (file (deleteEntities first w).2) → ¬ touches r n).
Proof.
  rewrite !deleteEntities_eq. cbn [snd file stored entities relations].
  split; [|split].
  - f_equal.
    + rewrite list_filter_filter. apply list_filter_iff. intros e.
      rewrite elem_of_app. tauto.
    + rewrite list_filter_filter. apply list_filter_iff. intros r.
      rewrite !elem_of_app. tauto.
  - f_equal.
    + rewrite list_filter_filter. apply list_filter_iff. tauto.
    + rewrite list_filter_filter. apply list_filter_iff. tauto.
  - intros n Hn. split.
    + unfold present. cbn. intros Hp.
      apply list_elem_of_fmap in Hp as (e & -> & He).
      by apply list_elem_of_filter in He as [Hno _].
    + intros r Hr [Hf|Ht]; apply list_elem_of_filter in Hr as [[Hnf Hnt] _];
        subst n; tauto.
Qed.

Lemma deleteEntities_compose_witness :
  let g := mkGraph [mkEntity "D" "dataset" []; mkEntity "V" "variable" [];
                    mkEntity "W" "variable" []]
                   [mkRelation "D" "V" "contains"; mkRelation "D" "W" "contains"] in
  "V" ∈ ["V"; "Ghost"]
  ∧ file (deleteEntities ["V"; "Ghost"] (stored g)).2
    = mkGraph [mkEntity "D" "dataset" []; mkEntity "W" "variable" []]
              [mkRelation "D" "W" "contains"]
  ∧ ¬ present (file (deleteEntities ["V"; "Ghost"] (stored g)).2) "V".
Proof.
  intros g.
  assert ("V" ∈ ["V"; "Ghost"]) as Hin by (apply elem_of_cons; left; reflexivity).
  split; [exact Hin|]. split; [vm_compute; reflexivity|].
  destruct (deleteEntities_compose ["V"; "Ghost"] [] (stored g)) as (_ & _ & Hgone).
  exact (proj1 (Hgone "V" Hin)).
Defined.

(** X6.  [deleteEntities] undoes [createEntities]: when the name of an
    entity of a valid type is not in the graph and no stored relation starts
    or ends at that name, creating the entity and then deleting its name
    leaves the file as it was. *)
Theorem deleteEntities_undoes_create `{Deployment} (E : Entity) (w : World) :
  validateEntityType (entityType E) = true →
  ¬ present (file w) (name E) →
  (∀ r, r ∈ relations (file w) → ¬ touches r (name E)) →
  ∃ w1, createEntities [E] w = (inr [E], w1)
        ∧ present (file w1) (name E)
        ∧ deleteEntities [name E] w1 = (inr tt, stored (file w)).
Proof.
  intros Hvalid Habsent Hfree.
  rewrite createEntities_eq. cbn [firstFailure]. unfold entityFailure.
  rewrite Hvalid. cbv zeta.
  rewrite filter_cons_True, filter_nil by done.
  eexists. split; [reflexivity|]. split.
  - unfold present. cbn. rewrite fmap_app, elem_of_app. right.
    apply list_elem_of_singleton. reflexivity.
  - rewrite deleteEntities_eq. cbn [file stored entities relations].
    rewrite filter_app, filter_cons_False, filter_nil, app_nil_r.
    + rewrite !filter_all; [by destruct (file w)| |].
      * apply Forall_forall. intros r Hr. specialize (Hfree r Hr).
        unfold touches in Hfree. rewrite !list_elem_of_singleton. tauto.
      * apply Forall_forall. intros e He Hn.
        apply list_elem_of_singleton in Hn. apply Habsent.
        unfold present. rewrite <- Hn. by apply list_elem_of_fmap_2.
    + intros Hn. apply Hn. apply list_elem_of_singleton. reflexivity.
Qed.

Lemma deleteEntities_undoes_create_witness :
  let g := mkGraph [mkEntity "D" "dataset" []; mkEntity "V" "variable" []]
                   [mkRelation "D" "V" "contains"] in
  let E := mkEntity "H1" "hypothesis" ["proposed"] in
  ∃ w1, createEntities (H := index_ts) [E] (stored g) = (inr [E], w1)
        ∧ present (file w1) (name E)
        ∧ deleteEntities [name E] w1 = (inr tt, stored g).
Proof.
  intros g E.
  apply (deleteEntities_undoes_create (H := index_ts) E (stored g)).
  - vm_compute. reflexivity.
  - unfold present. simpl. intros Hin.
    apply elem_of_cons in Hin as [Hin|Hin]; [discriminate Hin|].
    apply list_elem_of_singleton in Hin. discriminate Hin.
  - simpl. intros r Hr. apply list_elem_of_singleton in Hr. subst r.
    intros [Hf|Ht]; discriminate.
Defined.

(** ** Adding and deleting observations *)

Lemma findEntity_insert (n : string) (es : list Entity) (i j : nat)
    (e found : Entity) (obs : list string) :
  findEntity n es = Some (j, found) →
  es !! i = Some e →
  findEntity n (<[i := withObservations e obs]> es)
  = Some (j, if decide (j = i) then withObservations e obs else found).
Proof.
  unfold findEntity. intros Hfind Hi.
  apply list_find_Some in Hfind as (Hj & Hn & Hbefore).
  apply list_find_Some. split; [|split].
  - case_decide as Hji.
    + subst j. apply list_lookup_insert_eq. by eapply lookup_lt_Some.
    + by rewrite list_lookup_insert_ne.
  - case_decide as Hji; [|done]. subst j. simpl. congruence.
  - intros k y Hk Hlt. destruct (decide (k = i)) as [->|Hki].
    + rewrite list_lookup_insert_eq in Hk by (by eapply lookup_lt_Some).
      injection Hk as <-. simpl. by apply (Hbefore i e).
    + rewrite list_lookup_insert_ne in Hk by done. by apply (Hbefore k y).
Qed.

(** The loop only adds: the file is untouched, and an entity found under a
    name before is found at the same place afterwards with at least its
    observations; every target of the batch is covered afterwards. *)
Lemma addObservations_loop_grows (obs : list ObservationInput)
    (results res : list ObservationResult) (w w' : World) :
  addObservations_loop obs results w = (inr res, w') →
  (∀ n j found,
     findEntity n (entities (graph w)) = Some (j, found) →
     ∃ found', findEntity n (entities (graph w')) = Some (j, found')
               ∧ ∀ c, c ∈ observations found → c ∈ observations found')
  ∧ Forall (covered (graph w')) obs
  ∧ resultEntityName <$> res
    = (resultEntityName <$> results) ++ (entityName <$> obs).
Proof.
  revert results w. induction obs as [|o obs IH]; intros results w; simpl.
  - intros [= <- <-]. split; [|split].
    + intros n j found Hf. by exists found.
    + constructor.
    + by rewrite app_nil_r.
  - munfold.
    destruct (findEntity (entityName o) (entities (graph w))) as [[i e]|] eqn:Hfind;
      [|done].
    set (added := filter (λ c, has (list_to_set (observations e)) c = false)
                         (contents o)).
    set (e1 := withObservations e (observations e ++ added)).
    intros Hrun. apply IH in Hrun as (Hgrow & Hcov & Hnames).
    cbn [graph entities] in Hgrow.
    assert (entities (graph w) !! i = Some e) as Hi
      by (by apply list_find_Some in Hfind as (Hi & _)).
    assert (∀ n j found,
              findEntity n (entities (graph w)) = Some (j, found) →
              ∃ found', findEntity n (entities (graph w')) = Some (j, found')
                        ∧ ∀ c, c ∈ observations found → c ∈ observations found')
      as Hgrow'.
    { intros n j found Hf.
      pose proof (findEntity_insert n _ i j e found (observations e ++ added) Hf Hi)
        as Hf1.
      destruct (Hgrow n j _ Hf1) as (found' & Hf' & Hsub).
      exists found'. split; [done|]. intros c Hc. apply Hsub.
      case_decide as Hji; [|done]. subst j.
      assert (found = e) as -> .
      { apply list_find_Some in Hf as (Hj & _). congruence. }
      simpl. apply elem_of_app. by left. }
    split; [exact Hgrow'|]. split.
    + constructor; [|exact Hcov].
      pose proof (findEntity_insert (entityName o) _ i i e e
                    (observations e ++ added) Hfind Hi) as Hf1.
      rewrite decide_True in Hf1 by done.
      destruct (Hgrow _ _ _ Hf1) as (found' & Hf' & Hsub).
      exists i, found'. split; [done|]. intros c Hc. apply Hsub. simpl.
      apply elem_of_app.
      destruct (decide (c ∈ observations e)) as [Hin|Hnin]; [by left|right].
      unfold added. apply list_elem_of_filter. split; [|done].
      rewrite has_list_to_set. by apply bool_decide_eq_false.
    + rewrite Hnames, fmap_app. simpl. by rewrite <- app_assoc.
Qed.

(** On targets that are covered the loop adds nothing. *)
Lemma addObservations_loop_covered (obs : list ObservationInput)
    (results : list ObservationResult) (w : World) :
  Forall (covered (graph w)) obs →
  addObservations_loop obs results w
  = (inr (results ++ ((λ o, mkObservationResult (entityName o) []) <$> obs)), w).
Proof.
  revert results. induction obs as [|o obs IH]; intros results Hcov; simpl.
  - by rewrite app_nil_r.
  - apply Forall_cons in Hcov as [(i & e & Hfind & Hsub) Hcov].
    munfold. rewrite Hfind.
    assert (filter (λ c, has (list_to_set (observations e)) c = false) (contents o)
            = []) as ->.
    { apply filter_none, Forall_forall. intros c Hc.
      rewrite has_list_to_set, bool_decide_eq_false. intros Hn. by apply Hn, Hsub. }
    rewrite app_nil_r, withObservations_same.
    rewrite list_insert_id by (by apply list_find_Some in Hfind as (Hi & _)).
    assert ({| file := file w;
               graph := {| entities := entities (graph w);
                           relations := relations (graph w) |} |} = w) as ->
      by (by destruct w as [f [es rs]]).
    rewrite IH by done. by rewrite <- app_assoc.
Qed.

(** X7.  When [addObservations] returns, it returns one result per target,
    in the order of the batch, and has changed neither the entity names nor
    the relations; the same call made again adds nothing: it returns an
    empty list of added observations for every target and leaves the file
    as it is. *)
Theorem addObservations_idempotent (obs : list ObservationInput)
    (results : list ObservationResult) (w w1 : World) :
  addObservations obs w = (inr results, w1) →
  resultEntityName <$> results = entityName <$> obs
  ∧ name <$> entities (file w1) = name <$> entities (file w)
  ∧ relations (file w1) = relations (file w)
  ∧ addObservations obs w1
    = (inr ((λ o, mkObservationResult (entityName o) []) <$> obs), w1).
Proof.
  intros Hrun.
  pose proof (addObservations_frame obs w) as [Hnames Hrels].
  rewrite Hrun in Hnames, Hrels. cbn [snd] in Hnames, Hrels.
  unfold addObservations in Hrun. munfold.
  destruct (addObservations_loop obs [] {| file := file w; graph := file w |})
    as [[e|res] w'] eqn:Hloop; [done|].
  injection Hrun as <- <-.
  apply addObservations_loop_grows in Hloop as (_ & Hcov & Hres).
  split; [exact Hres|]. split; [exact Hnames|]. split; [exact Hrels|].
  unfold addObservations. munfold. cbn [file graph].
  by rewrite (addObservations_loop_covered obs []
                {| file := graph w'; graph := graph w' |} Hcov).
Qed.

Lemma addObservations_idempotent_witness :
  let g := mkGraph [mkEntity "D" "dataset" ["raw"]] [] in
  let batch := [mkObservationInput "D" ["raw"; "n=40"];
                mkObservationInput "D" ["n=40"; "cleaned"]] in
  let w1 := stored (mkGraph [mkEntity "D" "dataset" ["raw"; "n=40"; "cleaned"]] []) in
  addObservations batch (stored g)
  = (inr [mkObservationResult "D" ["n=40"]; mkObservationResult "D" ["cleaned"]], w1)
  ∧ addObservations batch w1
    = (inr [mkObservationResult "D" []; mkObservationResult "D" []], w1).
Proof.
  intros g batch w1.
  assert (addObservations batch (stored g)
          = (inr [mkObservationResult "D" ["n=40"];
                  mkObservationResult "D" ["cleaned"]], w1)) as Hrun
    by (vm_compute; reflexivity).
  split; [exact Hrun|].
  exact (proj2 (proj2 (proj2 (addObservations_idempotent batch _ (stored g) w1
                                 Hrun)))).
Defined.

Lemma deleteObservations_one (n : string) (obs : list string) (w : World)
    (i : nat) (e : Entity) :
  findEntity n (entities (file w)) = Some (i, e) →
  deleteObservations [mkObservationDeletion n obs] w
  = (inr tt,
     stored (mkGraph
               (<[i := withObservations e
                         (filter (λ o, o ∉ obs) (observations e))]>
                  (entities (file w)))
               (relations (file w)))).
Proof.
  intros Hfind. unfold deleteObservations. simpl. munfold. simpl.
  rewrite Hfind. simpl. unfold stored. do 5 f_equal.
  all: apply list_filter_iff; intros o; apply includes_false.
Qed.

(** X8.  [deleteObservations] is not the mirror of [addObservations] on a
    missing entity: a deletion whose entity is not in the graph is skipped
    without an error, and when none of the entities named is in the graph
    the call returns and leaves the file as it was, whereas [addObservations]
    for an entity that is not in the graph throws [EntityNotFound]. *)
Theorem deleteObservations_skips_missing (deletions : list ObservationDeletion)
    (w : World) :
  (∀ d, d ∈ deletions → ¬ present (file w) (deletionEntityName d)) →
  deleteObservations deletions w = (inr tt, stored (file w))
  ∧ ∀ d cs, d ∈ deletions →
      addObservations [mkObservationInput (deletionEntityName d) cs] w
      = (inl (EntityNotFound (deletionEntityName d)), stored (file w)).
Proof.
  intros Habsent. split.
  - unfold deleteObservations.
    unfold mbind at 1 2, M_bind at 1 2, loadGraph.
    assert (∀ w0 : World,
              entities (graph w0) = entities (file w) →
              forEach deletions (λ deletion : ObservationDeletion,
                g ← getGraph;
                match findEntity (deletionEntityName deletion) (entities g) with
                | Some (i, entity) =>
                    setEntities
                      (<[i := withObservations entity
                                (filter (λ o, includes (deletedObservations deletion) o = false)
                                        (observations entity))]> (entities g))
                | None => mret tt
                end) w0 = (inr tt, w0)) as Hloop.
    { intros w0 Hw0. induction deletions as [|d ds IH]; simpl; [done|].
      munfold. rewrite Hw0, findEntity_absent.
      - apply IH. intros d' Hd'. apply Habsent. by right.
      - apply Habsent. by left. }
    rewrite Hloop by done. reflexivity.
  - intros d cs Hd. unfold addObservations. simpl. munfold. simpl.
    by rewrite findEntity_absent by (by apply Habsent).
Qed.

Lemma deleteObservations_skips_missing_witness :
  let g := mkGraph [mkEntity "D" "dataset" ["raw"]] [] in
  let deletions := [mkObservationDeletion "Ghost" ["raw"]] in
  (∀ d, d ∈ deletions → ¬ present g (deletionEntityName d))
  ∧ deleteObservations deletions (stored g) = (inr tt, stored g)
  ∧ addObservations [mkObservationInput "Ghost" ["raw"]] (stored g)
    = (inl (EntityNotFound "Ghost"), stored g).
Proof.
  intros g deletions.
  assert (∀ d, d ∈ deletions → ¬ present g (deletionEntityName d)) as Habsent.
  { intros d Hd. apply list_elem_of_singleton in Hd. subst d.
    unfold present. simpl. intros Hin.
    apply list_elem_of_singleton in Hin. discriminate Hin. }
  split; [exact Habsent|].
  destruct (deleteObservations_skips_missing deletions (stored g) Habsent)
    as [Hdelete Hadd].
  split; [exact Hdelete|].
  apply (Hadd (mkObservationDeletion "Ghost" ["raw"]) ["raw"]).
  apply list_elem_of_singleton. reflexivity.
Defined.

(** X9.  [deleteObservations] undoes [addObservations] of new observations:
    when the entity exists and holds none of the given strings, adding them
    and then deleting them leaves the file as it was.  (Strings the entity
    already held would be deleted too.) *)
Theorem deleteObservations_undoes_add (n : string) (cs : list string)
    (w : World) (i : nat) (e : Entity) :
  findEntity n (entities (file w)) = Some (i, e) →
  (∀ c, c ∈ cs → c ∉ observations e) →
  ∃ w1, addObservations [mkObservationInput n cs] w
        = (inr [mkObservationResult n cs], w1)
        ∧ deleteObservations [mkObservationDeletion n cs] w1
          = (inr tt, stored (file w)).
Proof.
  intros Hfind Hnew.
  rewrite (addObservations_one n cs w i e Hfind). cbv zeta.
  assert (filter (λ o, o ∉ observations e) cs = cs) as ->.
  { apply filter_all, Forall_forall. intros c Hc. by apply Hnew. }
  eexists. split; [reflexivity|].
  pose proof (findEntity_update n _ i e (observations e ++ cs) Hfind) as Hfind1.
  rewrite (deleteObservations_one n cs
             (stored (mkGraph (<[i := withObservations e (observations e ++ cs)]>
                                 (entities (file w)))
                              (relations (file w)))) i _ Hfind1).
  cbn [file stored entities relations observations withObservations name entityType].
  rewrite filter_app, filter_all, filter_none.
  - rewrite app_nil_r, list_insert_insert_eq.
    change (withObservations (withObservations e (observations e ++ cs))
                             (observations e))
      with (withObservations e (observations e)).
    rewrite withObservations_same, list_insert_id.
    + by destruct (file w).
    + by apply list_find_Some in Hfind as (Hi & _).
  - apply Forall_forall. intros c Hc Hn. by apply Hn.
  - apply Forall_forall. intros c Hc Hin. by apply (Hnew c).
Qed.

Lemma deleteObservations_undoes_add_witness :
  let g := mkGraph [mkEntity "D" "dataset" ["raw"]] [] in
  ∃ w1, addObservations [mkObservationInput "D" ["n=40"; "cleaned"]] (stored g)
        = (inr [mkObservationResult "D" ["n=40"; "cleaned"]], w1)
        ∧ deleteObservations [mkObservationDeletion "D" ["n=40"; "cleaned"]] w1
          = (inr tt, stored g).
Proof.
  intros g.
  apply (deleteObservations_undoes_add "D" ["n=40"; "cleaned"] (stored g) 0
           (mkEntity "D" "dataset" ["raw"])).
  - vm_compute. reflexivity.
  - simpl. intros c Hc Hin. apply list_elem_of_singleton in Hin. subst c.
    apply elem_of_cons in Hc as [Hc|Hc]; [discriminate Hc|].
    apply list_elem_of_singleton in Hc. discriminate Hc.
Defined.

(** ** Reading parts of the graph *)

Lemma openNodes_eq (names : list string) (w : World) :
  openNodes names w =
  (inr (mkGraph
          (filter (λ e, name e ∈ names) (entities (file w)))
          (filter (λ r, from r ∈ names ∧ to r ∈ names) (relations (file w)))),
   stored (file w)).
Proof.
  unfold openNodes. munfold. cbn [graph file]. unfold stored. do 3 f_equal.
  - apply list_filter_iff. intros e. apply includes_true.
  - apply list_filter_iff. intros r. by rewrite !includes_true.
Qed.

(** X10.  [openNodes names] never throws and never changes the file; names
    that match no entity are ignored.  It returns the entities whose name is
    listed (compared exactly, in the order of the graph) and the relations
    both endpoints of which are listed.  When every relation of the graph
    joins two entities of the graph, so does every relation of the answer:
    the answer is a graph on its own. *)
Theorem openNodes_subgraph (names : list string) (w : World) :
  ∃ answer,
    openNodes names w = (inr answer, stored (file w))
    ∧ (∀ e, e ∈ entities answer ↔ e ∈ entities (file w) ∧ name e ∈ names)
    ∧ (∀ r, r ∈ relations answer
            ↔ r ∈ relations (file w) ∧ from r ∈ names ∧ to r ∈ names)
    ∧ (referentialIntegrity (file w) → referentialIntegrity answer).
Proof.
  rewrite openNodes_eq. eexists. split; [reflexivity|].
  cbn [entities relations]. split; [|split].
  - intros e. rewrite list_elem_of_filter. tauto.
  - intros r. rewrite list_elem_of_filter. tauto.
  - unfold referentialIntegrity, present. rewrite !Forall_forall.
    cbn [entities relations]. intros HRI r Hr.
    apply list_elem_of_filter in Hr as [[Hf Ht] Hr].
    destruct (HRI r Hr) as [Hpf Hpt].
    apply list_elem_of_fmap in Hpf as (ef & Hef & Hinf).
    apply list_elem_of_fmap in Hpt as (et & Het & Hint).
    split; apply list_elem_of_fmap.
    + exists ef. split; [done|]. apply list_elem_of_filter. by rewrite <- Hef.
    + exists et. split; [done|]. apply list_elem_of_filter. by rewrite <- Het.
Qed.

Lemma openNodes_subgraph_witness :
  let g := mkGraph [mkEntity "D" "dataset" []; mkEntity "V" "variable" [];
                    mkEntity "W" "variable" []]
                   [mkRelation "D" "V" "contains"; mkRelation "D" "W" "contains"] in
  referentialIntegrity g
  ∧ ∃ answer, openNodes ["V"; "D"; "Ghost"] (stored g) = (inr answer, stored g)
              ∧ answer = mkGraph [mkEntity "D" "dataset" []; mkEntity "V" "variable" []]
                                 [mkRelation "D" "V" "contains"]
              ∧ referentialIntegrity answer.
Proof.
  intros g.
  assert (referentialIntegrity g) as HRI.
  { unfold referentialIntegrity, present. simpl.
    repeat constructor; simpl;
      apply (bool_decide_eq_true_1 (_ ∈ _)); vm_compute; reflexivity. }
  split; [exact HRI|].
  destruct (openNodes_subgraph ["V"; "D"; "Ghost"] (stored g))
    as (answer & Heq & _ & _ & Hsub).
  exists answer. split; [exact Heq|]. split; [|exact (Hsub HRI)].
  rewrite openNodes_eq in Heq. injection Heq as <-. vm_compute. reflexivity.
Defined.

Lemma whitespace_not_upper (c : ascii) :
  JS.isWhiteSpace c = true → JS.lowerChar c = c.
Proof.
  destruct c as [[|] [|] [|] [|] [|] [|] [|] [|]]; vm_compute;
    (reflexivity || discriminate).
Qed.

Lemma codeUnits_toLowerCase (s : string) :
  codeUnits (JS.toLowerCase s) = JS.lowerChar <$> codeUnits s.
Proof. induction s as [|c s IH]; simpl; [done|]. by rewrite IH. Qed.

Lemma split_from_blank (inSep : bool) (s : string) :
  Forall (λ c, JS.isWhiteSpace c = true) (codeUnits s) →
  Forall (λ term, term = EmptyString) (JS.split_from inSep EmptyString s).
Proof.
  revert inSep. induction s as [|c s IH]; intros inSep Hws; simpl.
  - by repeat constructor.
  - apply Forall_cons in Hws as [Hc Hws]. rewrite Hc.
    destruct inSep; [by apply IH|]. constructor; [done|]. by apply IH.
Qed.

Lemma termMatches_empty (e : Entity) : termMatches e EmptyString = true.
Proof.
  unfold termMatches.
  assert (∀ s, JS.includes s EmptyString = true) as Hinc by (by intros []).
  by rewrite Hinc.
Qed.

(** X11.  A query that is empty or made of white space only selects every
    entity: [searchNodes] then returns all the entities of the graph and the
    relations both endpoints of which name an entity of the graph, that is
    the whole graph when every relation joins two entities of the graph. *)
Theorem searchNodes_blank_query (query : string) (w : World) :
  Forall (λ c, JS.isWhiteSpace c = true) (codeUnits query) →
  ∃ answer,
    searchNodes query w = (inr answer, stored (file w))
    ∧ entities answer = entities (file w)
    ∧ relations answer
      = filter (λ r, from r ∈ (name <$> entities (file w))
                     ∧ to r ∈ (name <$> entities (file w)))
               (relations (file w))
    ∧ (referentialIntegrity (file w) → answer = file w).
Proof.
  intros Hblank. rewrite searchNodes_eq. cbv zeta.
  assert (filter (λ e, matchesAllTerms (searchTerms query) e = true)
                 (entities (file w)) = entities (file w)) as ->.
  { apply filter_all, Forall_forall. intros e _.
    unfold matchesAllTerms. apply forallb_forall. intros term Hterm.
    apply list_elem_of_In in Hterm.
    assert (Forall (λ term, term = EmptyString) (searchTerms query)) as Hterms.
    { apply split_from_blank. rewrite codeUnits_toLowerCase.
      apply Forall_fmap. eapply Forall_impl; [exact Hblank|].
      intros c Hc. simpl. by rewrite whitespace_not_upper. }
    rewrite Forall_forall in Hterms. rewrite (Hterms term Hterm).
    apply termMatches_empty. }
  assert (filter (λ e, name e ∈ name <$> entities (file w)) (entities (file w))
          = entities (file w)) as ->.
  { apply filter_all, Forall_forall. intros e He. by apply list_elem_of_fmap_2. }
  eexists. split; [reflexivity|]. cbn [entities relations].
  split; [done|]. split; [done|]. intros HRI.
  rewrite filter_all; [by destruct (file w)|]. exact HRI.
Qed.

Lemma searchNodes_blank_query_witness :
  let g := mkGraph [mkEntity "D" "dataset" []; mkEntity "V" "variable" []]
                   [mkRelation "D" "V" "contains"] in
  Forall (λ c, JS.isWhiteSpace c = true) (codeUnits "  ")
  ∧ searchNodes "  " (stored g) = (inr g, stored g).
Proof.
  intros g.
  assert (Forall (λ c, JS.isWhiteSpace c = true) (codeUnits "  ")) as Hblank
    by (repeat constructor).
  split; [exact Hblank|].
  destruct (searchNodes_blank_query "  " (stored g) Hblank)
    as (answer & Heq & _ & _ & Hwhole).
  rewrite Heq. f_equal. f_equal. apply Hwhole.
  unfold referentialIntegrity, present. simpl.
  repeat constructor; simpl;
    apply (bool_decide_eq_true_1 (_ ∈ _)); vm_compute; reflexivity.
Defined.

(** ** Status and priority *)

Lemma list_find_head {A} (P : A → Prop) `{∀ x, Decision (P x)} (l : list A) :
  snd <$> list_find P l = head (filter P l).
Proof.
  induction l as [|x l IH]; [done|]. cbn [list_find].
  case_decide as HP.
  - by rewrite filter_cons_True.
  - rewrite filter_cons_False by done. rewrite <- IH.
    by destruct (list_find P l) as [[i y]|].
Qed.

Lemma getEntityStatus_head (n : string) (g : KnowledgeGraph) :
  getEntityStatus n g
  = (λ r, JS.split (to r) ":" !! 1)
      <$> head (filter (λ r, from r = n ∧ relationType r = "has_status")
                       (relations g)).
Proof.
  unfold getEntityStatus. rewrite <- list_find_head.
  by destruct (list_find _ (relations g)) as [[i r]|].
Qed.

Lemma getEntityPriority_head (n : string) (g : KnowledgeGraph) :
  getEntityPriority n g
  = (λ r, JS.split (to r) ":" !! 1)
      <$> head (filter (λ r, from r = n ∧ relationType r = "has_priority")
                       (relations g)).
Proof.
  unfold getEntityPriority. rewrite <- list_find_head.
  by destruct (list_find _ (relations g)) as [[i r]|].
Qed.

(** Replacing the edges picked by [P] with one new edge does not change what
    a filter sees that picks none of them and not the new edge. *)
Lemma filter_after_replace (P Q : Relation → Prop)
    `{∀ r, Decision (P r)} `{∀ r, Decision (Q r)}
    (rs : list Relation) (new : Relation) :
  (∀ r, Q r → ¬ P r) → ¬ Q new →
  filter Q (filter (λ r, ¬ P r) rs ++ [new]) = filter Q rs.
Proof.
  intros HQP Hnew.
  rewrite filter_app, filter_cons_False, filter_nil, app_nil_r by done.
  rewrite list_filter_filter. apply list_filter_iff. intros r.
  split; [tauto|]. intros HQ. split; [done|]. by apply HQP.
Qed.

Lemma priorityEdges_after_set (n v : string) (rs : list Relation) :
  filter (λ r, from r = n ∧ relationType r = "has_priority")
         (filter (λ r, ¬ (from r = n ∧ relationType r = "has_priority")) rs
          ++ [mkRelation n ("priority:" +:+ v) "has_priority"])
  = [mkRelation n ("priority:" +:+ v) "has_priority"].
Proof.
  rewrite filter_app, filter_cons_True, filter_nil by done.
  rewrite list_filter_filter, filter_none; [done|].
  apply Forall_forall. tauto.
Qed.

Lemma status_value_read (v : string) :
  v ∈ VALID_STATUS_VALUES → JS.split ("status:" +:+ v) ":" !! 1 = Some v.
Proof.
  unfold VALID_STATUS_VALUES. rewrite !elem_of_cons, elem_of_nil.
  intros [->|[->|[->|[->|[]]]]]; reflexivity.
Qed.

Lemma priority_value_read (v : string) :
  v ∈ VALID_PRIORITY_VALUES → JS.split ("priority:" +:+ v) ":" !! 1 = Some v.
Proof.
  unfold VALID_PRIORITY_VALUES. rewrite !elem_of_cons, elem_of_nil.
  intros [->|[->|[]]]; reflexivity.
Qed.

(** X12.  Setting a status and reading it back: after [setEntityStatus name
    value] with a value of the closed set, [getEntityStatus name] answers
    that value; the status of every other entity and the priority of every
    entity read as before.  An entity without a [has_status] edge reads
    [null]. *)
Theorem status_set_then_get (n v : string) (w : World) :
  v ∈ VALID_STATUS_VALUES →
  let after := file (setEntityStatus n v w).2 in
  getEntityStatus n after = Some (Some v)
  ∧ (∀ m, m ≠ n → getEntityStatus m after = getEntityStatus m (file w))
  ∧ (∀ m, getEntityPriority m after = getEntityPriority m (file w))
  ∧ (∀ m, (∀ r, r ∈ relations (file w) →
                ¬ (from r = m ∧ relationType r = "has_status")) →
          getEntityStatus m (file w) = None).
Proof.
  intros Hv after. unfold after. rewrite setEntityStatus_eq.
  pose proof Hv as Hv'. apply includes_true in Hv'. rewrite Hv'.
  cbn [snd file stored]. split; [|split; [|split]].
  - rewrite getEntityStatus_head. cbn [relations].
    rewrite statusEdges_after_set.
    change (Some (JS.split ("status:" +:+ v) ":" !! 1) = Some (Some v)).
    by rewrite status_value_read.
  - intros m Hm. rewrite !getEntityStatus_head. cbn [relations].
    rewrite (filter_after_replace (λ r, from r = n ∧ relationType r = "has_status"));
      [done| |].
    + intros r [Hf _] [Hf' _]. congruence.
    + simpl. intros [Hf _]. congruence.
  - intros m. rewrite !getEntityPriority_head. cbn [relations].
    rewrite (filter_after_replace (λ r, from r = n ∧ relationType r = "has_status"));
      [done| |].
    + intros r [_ Ht] [_ Ht']. congruence.
    + simpl. intros [_ Ht]. discriminate Ht.
  - intros m Hnone. rewrite getEntityStatus_head.
    rewrite filter_none; [done|]. apply Forall_forall. exact Hnone.
Qed.

Lemma status_set_then_get_witness :
  let w := stored (mkGraph [mkEntity "P1" "project" []]
                           [mkRelation "P1" "status:pending" "has_status";
                            mkRelation "P1" "priority:high" "has_priority"]) in
  "completed" ∈ VALID_STATUS_VALUES
  ∧ getEntityStatus "P1" (file w) = Some (Some "pending")
  ∧ getEntityStatus "P1" (file (setEntityStatus "P1" "completed" w).2)
    = Some (Some "completed")
  ∧ getEntityPriority "P1" (file (setEntityStatus "P1" "completed" w).2)
    = Some (Some "high").
Proof.
  intros w.
  assert ("completed" ∈ VALID_STATUS_VALUES) as Hv.
  { apply (bool_decide_eq_true_1 ("completed" ∈ VALID_STATUS_VALUES)).
    vm_compute. reflexivity. }
  split; [exact Hv|]. split; [vm_compute; reflexivity|].
  destruct (status_set_then_get "P1" "completed" w Hv) as (Hget & _ & Hprio & _).
  split; [exact Hget|]. rewrite Hprio. vm_compute. reflexivity.
Defined.

(** X13.  [setEntityPriority name value] throws [InvalidPriorityValue] and
    changes nothing when the value is neither [high] nor [low].  Otherwise
    it leaves the entities alone and leaves exactly one [has_priority] edge
    from [name], to [priority:value], which [getEntityPriority name] reads
    back as the value; the priority of the other entities and every status
    read as before. *)
Theorem priority_set_then_get (n v : string) (w : World) :
  (v ∉ VALID_PRIORITY_VALUES →
     setEntityPriority n v w = (inl (InvalidPriorityValue v), w))
  ∧ (v ∈ VALID_PRIORITY_VALUES →
     ∃ w', setEntityPriority n v w = (inr tt, w')
           ∧ entities (file w') = entities (file w)
           ∧ filter (λ r, from r = n ∧ relationType r = "has_priority")
                    (relations (file w'))
             = [mkRelation n ("priority:" +:+ v) "has_priority"]
           ∧ getEntityPriority n (file w') = Some (Some v)
           ∧ (∀ m, m ≠ n →
                   getEntityPriority m (file w') = getEntityPriority m (file w))
           ∧ (∀ m, getEntityStatus m (file w') = getEntityStatus m (file w))).
Proof.
  rewrite setEntityPriority_eq. split.
  - intros Hv. apply includes_false in Hv. by rewrite Hv.
  - intros Hv. pose proof Hv as Hv'. apply includes_true in Hv'. rewrite Hv'.
    eexists. split; [reflexivity|]. cbn [file stored entities relations].
    split; [done|]. split; [apply priorityEdges_after_set|].
    split; [|split].
    + rewrite getEntityPriority_head. cbn [relations].
      rewrite priorityEdges_after_set.
      change (Some (JS.split ("priority:" +:+ v) ":" !! 1) = Some (Some v)).
      by rewrite priority_value_read.
    + intros m Hm. rewrite !getEntityPriority_head. cbn [relations].
      rewrite (filter_after_replace
                 (λ r, from r = n ∧ relationType r = "has_priority")); [done| |].
      * intros r [Hf _] [Hf' _]. congruence.
      * simpl. intros [Hf _]. congruence.
    + intros m. rewrite !getEntityStatus_head. cbn [relations].
      rewrite (filter_after_replace
                 (λ r, from r = n ∧ relationType r = "has_priority")); [done| |].
      * intros r [_ Ht] [_ Ht']. congruence.
      * simpl. intros [_ Ht]. discriminate Ht.
Qed.

Lemma priority_set_then_get_witness :
  let w := stored (mkGraph [mkEntity "P1" "project" []]
                           [mkRelation "P1" "priority:high" "has_priority";
                            mkRelation "P1" "status:active" "has_status"]) in
  ("urgent" ∉ VALID_PRIORITY_VALUES) ∧ "low" ∈ VALID_PRIORITY_VALUES
  ∧ setEntityPriority "P1" "urgent" w = (inl (InvalidPriorityValue "urgent"), w)
  ∧ ∃ w', setEntityPriority "P1" "low" w = (inr tt, w')
          ∧ getEntityPriority "P1" (file w') = Some (Some "low")
          ∧ getEntityStatus "P1" (file w') = Some (Some "active").
Proof.
  intros w.
  assert ("urgent" ∉ VALID_PRIORITY_VALUES) as Hbad.
  { apply (bool_decide_eq_false_1 ("urgent" ∈ VALID_PRIORITY_VALUES)).
    vm_compute. reflexivity. }
  assert ("low" ∈ VALID_PRIORITY_VALUES) as Hgood.
  { apply (bool_decide_eq_true_1 ("low" ∈ VALID_PRIORITY_VALUES)).
    vm_compute. reflexivity. }
  split; [exact Hbad|]. split; [exact Hgood|].
  destruct (priority_set_then_get "P1" "urgent" w) as [Hinvalid _].
  split; [exact (Hinvalid Hbad)|].
  destruct (priority_set_then_get "P1" "low" w) as [_ Hvalid].
  destruct (Hvalid Hgood) as (w' & Heq & _ & _ & Hget & _ & Hstatus).
  exists w'. split; [exact Heq|]. split; [exact Hget|].
  rewrite Hstatus. vm_compute. reflexivity.
Defined.

Lemma ensureValueEntity_prefix (type : string) (values : list string)
    (es : list Entity) :
  ∃ added, foldl (ensureValueEntity type) es values = es ++ added
           ∧ Forall (λ e, entityType e = type
                          ∧ ∃ v, v ∈ values ∧ name e = type +:+ ":" +:+ v) added.
Proof.
  revert es. induction values as [|v values IH]; intros es; cbn [foldl].
  - exists []. by rewrite app_nil_r.
  - destruct (IH (ensureValueEntity type es v)) as (added & -> & Hadded).
    assert (Forall (λ e, entityType e = type
                         ∧ ∃ v0, v0 ∈ v :: values ∧ name e = type +:+ ":" +:+ v0)
                   added) as Hadded'.
    { eapply Forall_impl; [exact Hadded|]. intros e [Ht (v0 & Hv0 & Hn)].
      split; [done|]. exists v0. split; [by right|done]. }
    unfold ensureValueEntity. case_decide.
    + by exists added.
    + eexists (_ :: added). rewrite <- app_assoc. split; [reflexivity|].
      constructor; [|exact Hadded']. split; [done|]. exists v. split; [by left|done].
Qed.

Lemma ensureValueEntity_ensures (type : string) (values : list string)
    (es : list Entity) (v : string) :
  v ∈ values →
  Exists (λ e, name e = type +:+ ":" +:+ v ∧ entityType e = type)
         (foldl (ensureValueEntity type) es values).
Proof.
  revert es. induction values as [|v0 values IH]; intros es Hv;
    [by apply elem_of_nil in Hv|].
  cbn [foldl]. apply elem_of_cons in Hv as [->|Hv]; [|by apply IH].
  destruct (ensureValueEntity_prefix type values (ensureValueEntity type es v0))
    as (added & -> & _).
  apply Exists_app. left. unfold ensureValueEntity. case_decide as Hex; [done|].
  apply Exists_app. right. by constructor.
Qed.

Lemma ensureValueEntity_noop (type : string) (values : list string)
    (es : list Entity) :
  (∀ v, v ∈ values →
        Exists (λ e, name e = type +:+ ":" +:+ v ∧ entityType e = type) es) →
  foldl (ensureValueEntity type) es values = es.
Proof.
  induction values as [|v values IH]; intros Hall; [done|]. cbn [foldl].
  unfold ensureValueEntity at 2. rewrite decide_True by (apply Hall; by left).
  apply IH. intros v' Hv'. apply Hall. by right.
Qed.

(** X14.  [initializeStatusAndPriority] never throws.  It keeps the stored
    entities as they are, in their order, and the relations; after them it
    adds only entities of type status or priority, and afterwards the graph
    has an entity [status:value] of type status for each of the four status
    values and an entity [priority:value] of type priority for both priority
    values.  Called again it changes nothing. *)
Theorem initializeStatusAndPriority_idempotent (w : World) :
  ∃ w1 added,
    initializeStatusAndPriority w = (inr tt, w1)
    ∧ file w1 = mkGraph (entities (file w) ++ added) (relations (file w))
    ∧ Forall (λ e, entityType e = "status" ∨ entityType e = "priority") added
    ∧ (∀ v, v ∈ VALID_STATUS_VALUES → hasTyped (file w1) ("status:" +:+ v) "status")
    ∧ (∀ v, v ∈ VALID_PRIORITY_VALUES →
            hasTyped (file w1) ("priority:" +:+ v) "priority")
    ∧ initializeStatusAndPriority w1 = (inr tt, w1).
Proof.
  rewrite initializeStatusAndPriority_eq.
  destruct (ensureValueEntity_prefix "status" VALID_STATUS_VALUES (entities (file w)))
    as (statuses & Hs & Hstatuses).
  destruct (ensureValueEntity_prefix "priority" VALID_PRIORITY_VALUES
              (foldl (ensureValueEntity "status") (entities (file w))
                     VALID_STATUS_VALUES))
    as (priorities & Hp & Hpriorities).
  assert (∀ v, v ∈ VALID_STATUS_VALUES →
               Exists (λ e, name e = "status:" +:+ v ∧ entityType e = "status")
                      (foldl (ensureValueEntity "priority")
                             (foldl (ensureValueEntity "status") (entities (file w))
                                    VALID_STATUS_VALUES)
                             VALID_PRIORITY_VALUES)) as Hhas_s.
  { intros v Hv. rewrite Hp. apply Exists_app. left.
    by apply (ensureValueEntity_ensures "status"). }
  assert (∀ v, v ∈ VALID_PRIORITY_VALUES →
               Exists (λ e, name e = "priority:" +:+ v ∧ entityType e = "priority")
                      (foldl (ensureValueEntity "priority")
                             (foldl (ensureValueEntity "status") (entities (file w))
                                    VALID_STATUS_VALUES)
                             VALID_PRIORITY_VALUES)) as Hhas_p.
  { intros v Hv. by apply (ensureValueEntity_ensures "priority"). }
  eexists _, (statuses ++ priorities). split; [reflexivity|].
  cbn [file stored]. split; [|split; [|split; [|split]]].
  - f_equal. by rewrite Hp, Hs, <- app_assoc.
  - apply Forall_app. split.
    + eapply Forall_impl; [exact Hstatuses|]. intros e [Ht _]. by left.
    + eapply Forall_impl; [exact Hpriorities|]. intros e [Ht _]. by right.
  - intros v Hv. unfold hasTyped. cbn [entities]. by apply Hhas_s.
  - intros v Hv. unfold hasTyped. cbn [entities]. by apply Hhas_p.
  - rewrite initializeStatusAndPriority_eq. cbn [file stored entities relations].
    rewrite (ensureValueEntity_noop "status") by exact Hhas_s.
    by rewrite (ensureValueEntity_noop "priority") by exact Hhas_p.
Qed.

Lemma initializeStatusAndPriority_idempotent_witness :
  let g := mkGraph [mkEntity "P1" "project" []; mkEntity "status:active" "status" ["mine"]]
                   [mkRelation "P1" "status:active" "has_status"] in
  "pending" ∈ VALID_STATUS_VALUES
  ∧ ∃ w1, initializeStatusAndPriority (stored g) = (inr tt, w1)
          ∧ name <$> entities (file w1)
            = ["P1"; "status:active"; "status:completed"; "status:pending";
               "status:abandoned"; "priority:high"; "priority:low"]
          ∧ hasTyped (file w1) "status:pending" "status"
          ∧ initializeStatusAndPriority w1 = (inr tt, w1).
Proof.
  intros g.
  assert ("pending" ∈ VALID_STATUS_VALUES) as Hv.
  { apply (bool_decide_eq_true_1 ("pending" ∈ VALID_STATUS_VALUES)).
    vm_compute. reflexivity. }
  split; [exact Hv|].
  destruct (initializeStatusAndPriority_idempotent (stored g))
    as (w1 & added & Heq & _ & _ & Hstatus & _ & Hagain).
  exists w1. split; [exact Heq|]. split.
  - rewrite initializeStatusAndPriority_eq in Heq. injection Heq as <-.
    vm_compute. reflexivity.
  - split; [exact (Hstatus "pending" Hv) | exact Hagain].
Defined.

(** ** Views *)

Lemma findTyped_None (g : KnowledgeGraph) (n t : string) :
  findTyped n t (entities g) = None ↔ ¬ hasTyped g n t.
Proof.
  rewrite <- findTyped_is_Some. split.
  - intros -> [x Hx]. discriminate Hx.
  - intros Hno. destruct (findTyped n t (entities g)); [|done].
    destruct Hno. by eexists.
Qed.

(** X15.  [getProjectOverview] throws [ProjectNotFound] exactly when the
    graph has no entity of that name and of type project (an entity of that
    name and another type does not count), and then the file is untouched.
    Otherwise it returns the first such entity, and lists one dataset per
    [part_of] edge from a dataset to the project, in the order of the edges,
    so that [dataCollection.datasets] is the number of those edges. *)
Theorem getProjectOverview_found (projectName : string) (w : World) :
  (¬ hasTyped (file w) projectName "project" →
     getProjectOverview projectName w
     = (inl (ProjectNotFound projectName), stored (file w)))
  ∧ (hasTyped (file w) projectName "project" →
     ∃ overview,
       getProjectOverview projectName w = (inr overview, stored (file w))
       ∧ findTyped projectName "project" (entities (file w))
         = Some (project overview)
       ∧ name <$> datasetList (dataCollection overview)
         = from <$> datasetEdges (file w) projectName
       ∧ datasets (dataCollection overview)
         = List.length (datasetEdges (file w) projectName)).
Proof.
  rewrite getProjectOverview_eq. split.
  - intros Hno. apply findTyped_None in Hno. by rewrite Hno.
  - intros Hhas. apply findTyped_is_Some in Hhas as [p Hp]. rewrite Hp.
    cbv zeta. eexists. split; [reflexivity|].
    cbn [project dataCollection datasetList datasets]. split; [done|].
    assert (name <$> partOfProject (file w) projectName "dataset"
            = from <$> datasetEdges (file w) projectName) as Hnames.
    { unfold partOfProject, datasetEdges. apply fmap_omap_filter. intros r.
      case_decide as Hr.
      - destruct (findTyped (from r) "dataset" (entities (file w))) as [d|] eqn:Hd.
        + split.
          * destruct Hr. split; [done|]. split; [done|].
            apply findTyped_is_Some. by rewrite Hd.
          * by apply findTyped_Some in Hd as (_ & Hn & _).
        + intros (_ & _ & Hex). apply findTyped_is_Some in Hex.
          rewrite Hd in Hex. by destruct Hex.
      - tauto. }
    split; [exact Hnames|].
    by rewrite <- (length_fmap name), Hnames, length_fmap.
Qed.

Lemma getProjectOverview_found_witness :
  let g := mkGraph [mkEntity "Proj" "dataset" ["a dataset of that name"];
                    mkEntity "D" "dataset" []; mkEntity "Proj" "project" ["the project"]]
                   [mkRelation "D" "Proj" "part_of"; mkRelation "D" "Proj" "part_of"] in
  (¬ hasTyped g "D" "project") ∧ hasTyped g "Proj" "project"
  ∧ getProjectOverview "D" (stored g) = (inl (ProjectNotFound "D"), stored g)
  ∧ ∃ overview, getProjectOverview "Proj" (stored g) = (inr overview, stored g)
                ∧ project overview = mkEntity "Proj" "project" ["the project"]
                ∧ datasets (dataCollection overview) = 2.
Proof.
  intros g.
  assert (¬ hasTyped g "D" "project") as Hno.
  { unfold hasTyped.
    apply (bool_decide_eq_false_1
             (Exists (λ e, name e = "D" ∧ entityType e = "project") (entities g))).
    vm_compute. reflexivity. }
  assert (hasTyped g "Proj" "project") as Hyes.
  { unfold hasTyped.
    apply (bool_decide_eq_true_1
             (Exists (λ e, name e = "Proj" ∧ entityType e = "project") (entities g))).
    vm_compute. reflexivity. }
  split; [exact Hno|]. split; [exact Hyes|].
  split; [exact (proj1 (getProjectOverview_found "D" (stored g)) Hno)|].
  destruct (proj2 (getProjectOverview_found "Proj" (stored g)) Hyes)
    as (overview & Heq & Hp & _ & Hcount).
  exists overview. split; [exact Heq|]. split.
  - vm_compute in Hp. by injection Hp.
  - rewrite Hcount. vm_compute. reflexivity.
Defined.

Lemma string_app_assoc (a b c : string) : (a +:+ b) +:+ c = a +:+ (b +:+ c).
Proof.
  induction a as [|x a IH]; [done|].
  change (String x ((a +:+ b) +:+ c) = String x (a +:+ (b +:+ c))).
  by rewrite IH.
Qed.

Lemma independent_is_dependent (s : string) :
  occursIn "independent" s → occursIn "dependent" s.
Proof.
  intros (before & after & ->). exists (before +:+ "in"), after.
  by rewrite string_app_assoc.
Qed.

Lemma mentionsAny_spec (keywords : list string) (o : string) :
  mentionsAny keywords o = true
  ↔ ∃ k, k ∈ keywords ∧ occursIn k (JS.toLowerCase o).
Proof.
  unfold mentionsAny. rewrite existsb_exists. split.
  - intros (k & Hk & Hinc). exists k.
    split; [by apply list_elem_of_In | by apply includes_spec].
  - intros (k & Hk & Hocc). exists k.
    split; [by apply list_elem_of_In | by apply includes_spec].
Qed.

Lemma someMentions_spec (keywords : list string) (v : Entity) :
  someMentions keywords v = true
  ↔ ∃ o k, o ∈ observations v ∧ k ∈ keywords ∧ occursIn k (JS.toLowerCase o).
Proof.
  unfold someMentions. rewrite existsb_exists. split.
  - intros (o & Ho & Hm). apply mentionsAny_spec in Hm as (k & Hk & Hocc).
    exists o, k. split; [by apply list_elem_of_In | done].
  - intros (o & k & Ho & Hk & Hocc). exists o.
    split; [by apply list_elem_of_In | apply mentionsAny_spec; by exists k].
Qed.

(** X16.  [getDatasetAnalysis] throws [DatasetNotFound] exactly when the
    graph has no entity of that name and of type dataset.  Otherwise every
    variable the dataset contains is listed in at least one of the four
    buckets; [other] holds exactly the variables that are in none of the
    first three; but the first three overlap: a variable with an observation
    that mentions "independent" (in any letter case) is listed as
    independent and as dependent, because the keyword "dependent" occurs in
    "independent". *)
Theorem getDatasetAnalysis_buckets (datasetName : string) (g : KnowledgeGraph) :
  (¬ hasTyped g datasetName "dataset" →
     DatasetAnalysis.getDatasetAnalysis datasetName g
     = inl (DatasetNotFound datasetName))
  ∧ (hasTyped g datasetName "dataset" →
     ∃ answer,
       DatasetAnalysis.getDatasetAnalysis datasetName g = inr answer
       ∧ let contained := targets g "contains" datasetName "variable" in
         let buckets := DatasetAnalysis.variables answer in
         DatasetAnalysis.count buckets = List.length contained
         ∧ (∀ v, v ∈ contained →
                 v ∈ DatasetAnalysis.independent buckets
                 ∨ v ∈ DatasetAnalysis.dependent buckets
                 ∨ v ∈ DatasetAnalysis.control buckets
                 ∨ v ∈ DatasetAnalysis.other buckets)
         ∧ (∀ v, v ∈ DatasetAnalysis.other buckets
                 ↔ v ∈ contained
                   ∧ (v ∉ DatasetAnalysis.independent buckets)
                   ∧ (v ∉ DatasetAnalysis.dependent buckets)
                   ∧ (v ∉ DatasetAnalysis.control buckets))
         ∧ (∀ v o, v ∈ contained → o ∈ observations v →
                   occursIn "independent" (JS.toLowerCase o) →
                   v ∈ DatasetAnalysis.independent buckets
                   ∧ v ∈ DatasetAnalysis.dependent buckets)).
Proof.
  unfold DatasetAnalysis.getDatasetAnalysis. split.
  - intros Hno. apply findTyped_None in Hno. by rewrite Hno.
  - intros Hhas. apply findTyped_is_Some in Hhas as [d Hd]. rewrite Hd.
    cbv zeta. eexists. split; [reflexivity|].
    cbn [DatasetAnalysis.variables DatasetAnalysis.count
         DatasetAnalysis.independent DatasetAnalysis.dependent
         DatasetAnalysis.control DatasetAnalysis.other].
    set (contained := targets g "contains" datasetName "variable").
    split; [done|]. split; [|split].
    + intros v Hv. rewrite !list_elem_of_filter.
      destruct (someMentions ["independent"; "predictor"; "iv"] v) eqn:Hi;
        [by left|].
      destruct (someMentions ["dependent"; "outcome"; "dv"] v) eqn:Hdep;
        [by right; left|].
      destruct (someMentions ["control"; "covariate"] v) eqn:Hc;
        [by right; right; left|].
      right. right. right. split; [|done].
      split; [|split]; intros [? _]; done.
    + intros v. rewrite list_elem_of_filter. tauto.
    + intros v o Hv Ho Hocc. rewrite !list_elem_of_filter.
      split; (split; [|done]); apply someMentions_spec.
      * exists o, "independent". split; [done|]. split; [by left|done].
      * exists o, "dependent". split; [done|]. split; [by left|].
        by apply independent_is_dependent.
Qed.

Lemma getDatasetAnalysis_buckets_witness :
  let iv := mkEntity "age" "variable" ["Independent variable"] in
  let plain := mkEntity "id" "variable" ["row number"] in
  let g := mkGraph [mkEntity "D" "dataset" []; iv; plain]
                   [mkRelation "D" "age" "contains"; mkRelation "D" "id" "contains"] in
  hasTyped g "D" "dataset"
  ∧ ∃ answer,
      DatasetAnalysis.getDatasetAnalysis "D" g = inr answer
      ∧ DatasetAnalysis.independent (DatasetAnalysis.variables answer) = [iv]
      ∧ iv ∈ DatasetAnalysis.dependent (DatasetAnalysis.variables answer)
      ∧ DatasetAnalysis.other (DatasetAnalysis.variables answer) = [plain].
Proof.
  intros iv plain g.
  assert (hasTyped g "D" "dataset") as Hhas.
  { unfold hasTyped.
    apply (bool_decide_eq_true_1
             (Exists (λ e, name e = "D" ∧ entityType e = "dataset") (entities g))).
    vm_compute. reflexivity. }
  split; [exact Hhas|].
  destruct (proj2 (getDatasetAnalysis_buckets "D" g) Hhas)
    as (answer & Heq & _ & _ & _ & Hboth).
  exists answer. split; [exact Heq|].
  assert (DatasetAnalysis.getDatasetAnalysis "D" g = inr answer) as Heq' by exact Heq.
  vm_compute in Heq'. injection Heq' as <-.
  split; [reflexivity|]. split; [|reflexivity].
  apply elem_of_cons. left. reflexivity.
Defined.

Lemma truthy_Some (s : string) : s ≠ EmptyString → JS.truthy (Some s) = true.
Proof.
  intros Hs. unfold JS.truthy. destruct (String.eqb_spec s EmptyString); done.
Qed.

Lemma find_contains_edge (d v : string) (rs : list Relation) :
  list_find (λ r, relationType r = "contains" ∧ from r = d ∧ to r = v) rs = None
  ↔ mkRelation d v "contains" ∉ rs.
Proof.
  rewrite list_find_None, Forall_forall. split.
  - intros Hall Hin. by apply (Hall _ Hin).
  - intros Hnin r Hr (Ht & Hf & Hto). apply Hnin.
    destruct r; simpl in *. by subst.
Qed.

(** X17.  [getVariableDistribution] with a dataset name checks, in this
    order, that the variable exists with type variable, that the dataset
    exists with type dataset, and that a [contains] edge leads from the
    dataset to the variable; it throws [VariableNotFound], [DatasetNotFound]
    or the "does not contain" error for the first check that fails, and
    otherwise answers with that one dataset.  Without a dataset name only
    the variable is checked, and the datasets listed are those a [contains]
    edge leads from. *)
Theorem getVariableDistribution_checks (variableName datasetName : string)
    (g : KnowledgeGraph) :
  datasetName ≠ EmptyString →
  let run := VariableDistribution.getVariableDistribution in
  (¬ hasTyped g variableName "variable" →
     run variableName (Some datasetName) g = inl (VariableNotFound variableName)
     ∧ run variableName None g = inl (VariableNotFound variableName))
  ∧ (hasTyped g variableName "variable" →
     (¬ hasTyped g datasetName "dataset" →
        run variableName (Some datasetName) g = inl (DatasetNotFound datasetName))
     ∧ (hasTyped g datasetName "dataset" →
        (mkRelation datasetName variableName "contains" ∉ relations g) →
        run variableName (Some datasetName) g
        = inl (DoesNotContain datasetName variableName))
     ∧ (hasTyped g datasetName "dataset" →
        mkRelation datasetName variableName "contains" ∈ relations g →
        ∃ answer dataset,
          run variableName (Some datasetName) g = inr answer
          ∧ findTyped datasetName "dataset" (entities g) = Some dataset
          ∧ VariableDistribution.datasets answer = [dataset])
     ∧ (∃ answer,
          run variableName None g = inr answer
          ∧ VariableDistribution.datasets answer
            = sources g "contains" variableName "dataset")).
Proof.
  intros Hname run. unfold run, VariableDistribution.getVariableDistribution.
  rewrite (truthy_Some _ Hname). cbn [JS.truthy from_option id]. split.
  - intros Hno. apply findTyped_None in Hno. by rewrite Hno.
  - intros Hvar. apply findTyped_is_Some in Hvar as [v Hv]. rewrite Hv.
    cbv zeta. split; [|split; [|split]].
    + intros Hno. apply findTyped_None in Hno. by rewrite Hno.
    + intros Hds Hnin. apply findTyped_is_Some in Hds as [d Hd]. rewrite Hd.
      apply find_contains_edge in Hnin. by rewrite Hnin.
    + intros Hds Hin. apply findTyped_is_Some in Hds as [d Hd]. rewrite Hd.
      destruct (list_find _ (relations g)) as [[i r]|] eqn:Hfind.
      * eexists _, d. split; [reflexivity|]. done.
      * apply find_contains_edge in Hfind. done.
    + eexists. split; reflexivity.
Qed.

Lemma getVariableDistribution_checks_witness :
  let g := mkGraph [mkEntity "age" "variable" ["Mean: 41.5"; "n=200"];
                    mkEntity "D" "dataset" []; mkEntity "E" "dataset" []]
                   [mkRelation "D" "age" "contains"] in
  "E" ≠ EmptyString ∧ hasTyped g "age" "variable" ∧ hasTyped g "E" "dataset"
  ∧ (mkRelation "E" "age" "contains" ∉ relations g)
  ∧ VariableDistribution.getVariableDistribution "age" (Some "E") g
    = inl (DoesNotContain "E" "age")
  ∧ viewMessage (DoesNotContain "E" "age")
    = "Dataset 'E' does not contain variable 'age'".
Proof.
  intros g.
  assert ("E" ≠ EmptyString) as Hname by discriminate.
  assert (hasTyped g "age" "variable") as Hv.
  { unfold hasTyped.
    apply (bool_decide_eq_true_1
             (Exists (λ e, name e = "age" ∧ entityType e = "variable") (entities g))).
    vm_compute. reflexivity. }
  assert (hasTyped g "E" "dataset") as Hd.
  { unfold hasTyped.
    apply (bool_decide_eq_true_1
             (Exists (λ e, name e = "E" ∧ entityType e = "dataset") (entities g))).
    vm_compute. reflexivity. }
  assert (mkRelation "E" "age" "contains" ∉ relations g) as Hnin.
  { simpl. intros Hin. apply list_elem_of_singleton in Hin. discriminate Hin. }
  split; [exact Hname|]. split; [exact Hv|]. split; [exact Hd|].
  split; [exact Hnin|]. split; [|reflexivity].
  destruct (getVariableDistribution_checks "age" "E" g Hname) as [_ Hchecks].
  destruct (Hchecks Hv) as (_ & Hmissing & _).
  exact (Hmissing Hd Hnin).
Defined.

(** ** The tool [buildcontext] *)

Lemma find_first {A} (p : A → bool) (l1 l2 : list A) (x : A) :
  Forall (λ y, p y = false) l1 → p x = true →
  List.find p (l1 ++ x :: l2) = Some x.
Proof.
  intros Hall Hx. induction Hall as [|y l1 Hy _ IH]; simpl.
  - by rewrite Hx.
  - by rewrite Hy.
Qed.

Lemma find_None_Forall {A} (p : A → bool) (l : list A) :
  List.find p l = None ↔ Forall (λ y, p y = false) l.
Proof.
  induction l as [|y l IH]; simpl.
  - split; [constructor|done].
  - destruct (p y) eqn:Hy.
    + split; [done|]. intros Hall. apply Forall_cons in Hall as [Hy' _].
      congruence.
    + rewrite IH. split.
      * by constructor.
      * intros Hall. by apply Forall_cons in Hall as [_ Hall].
Qed.

Lemma find_Some_first {A} (p : A → bool) (l : list A) (x : A) :
  List.find p l = Some x →
  ∃ l1 l2, l = l1 ++ x :: l2 ∧ Forall (λ y, p y = false) l1 ∧ p x = true.
Proof.
  induction l as [|y l IH]; simpl; [done|].
  destruct (p y) eqn:Hy.
  - intros [= ->]. by exists [], l.
  - intros Hfind. destruct (IH Hfind) as (l1 & l2 & -> & Hall & Hx).
    exists (y :: l1), l2. split; [done|]. split; [by constructor|done].
Qed.

Lemma valid_not_invalid {A} (p : A → bool) (l : list A) :
  Forall (λ y, p y = true) l ↔ Forall (λ y, negb (p y) = false) l.
Proof.
  apply Forall_proper; [|done]. intros y. by destruct (p y).
Qed.

(** X18.  [buildcontext] with type "entities" succeeds exactly when every
    entity of the data has a valid type, and then stores the entities whose
    name is new.  When it fails, nothing was read or written, the entity
    reported is the first one of an invalid type, and the message is the
    handler's short one: the manager's message, which lists the valid types,
    never reaches the client. *)
Theorem buildcontext_entities_outcome `{Deployment} (data : list Entity)
    (w : World) :
  (Forall (λ entity, validateEntityType (entityType entity) = true) data →
     let newEntities :=
       filter (λ entity, name entity ∉ name <$> entities (file w)) data in
     buildcontext_entities data w
     = (ToolSuccess newEntities,
        stored (mkGraph (entities (file w) ++ newEntities) (relations (file w)))))
  ∧ (∀ error w',
       buildcontext_entities data w = (ToolFailure error, w') →
       w' = w
       ∧ ∃ before entity after,
           data = before ++ entity :: after
           ∧ Forall (λ e, validateEntityType (entityType e) = true) before
           ∧ validateEntityType (entityType entity) = false
           ∧ error = "Invalid entity type: " +:+ entityType entity).
Proof.
  unfold buildcontext_entities, caught. split.
  - intros Hvalid. cbv zeta.
    assert (List.find (λ entity, negb (validateEntityType (entityType entity))) data
            = None) as ->.
    { apply find_None_Forall.
      by apply (valid_not_invalid (λ e, validateEntityType (entityType e))). }
    rewrite createEntities_eq.
    assert (firstFailure entityFailure data = None) as ->; [|done].
    apply firstFailure_None. eapply Forall_impl; [exact Hvalid|].
    intros e He. by apply entityFailure_None.
  - intros error w'.
    destruct (List.find _ data) as [entity|] eqn:Hfind.
    + intros [= <- <-]. split; [done|].
      apply find_Some_first in Hfind as (before & after & -> & Hall & Hbad).
      exists before, entity, after. split; [done|].
      split; [by apply (valid_not_invalid (λ e, validateEntityType (entityType e)))|].
      split; [by destruct (validateEntityType (entityType entity))|done].
    + rewrite createEntities_eq.
      assert (firstFailure entityFailure data = None) as ->; [|done].
      apply firstFailure_None. apply find_None_Forall in Hfind.
      eapply Forall_impl; [exact Hfind|].
      intros e He. apply entityFailure_None. simpl in He.
      by destruct (validateEntityType (entityType e)).
Qed.

Lemma buildcontext_entities_outcome_witness :
  let w := stored (mkGraph [mkEntity "D" "dataset" []] []) in
  let data := [mkEntity "D" "dataset" ["again"]; mkEntity "V" "variable" []] in
  Forall (λ entity, validateEntityType (H := index_ts) (entityType entity) = true)
         data
  ∧ buildcontext_entities (H := index_ts) data w
    = (ToolSuccess [mkEntity "V" "variable" []],
       stored (mkGraph [mkEntity "D" "dataset" []; mkEntity "V" "variable" []] [])).
Proof.
  intros w data.
  assert (Forall (λ entity,
                    validateEntityType (H := index_ts) (entityType entity) = true)
                 data) as Hvalid.
  { repeat constructor. }
  split; [exact Hvalid|].
  exact (proj1 (buildcontext_entities_outcome (H := index_ts) data w) Hvalid).
Defined.

(** X19.  [buildcontext] with type "relations" checks the relation types of
    the whole data before the manager looks at any endpoint: the first
    relation of an invalid type is reported with the handler's short message
    and nothing is read or written, whether or not the relations before it
    name entities of the graph.  When every type is valid the only failure
    left is the manager's "Entity ... not found" for an endpoint that is
    absent, and the graph file is what it was. *)
Theorem buildcontext_relations_outcome `{Deployment} (data : list Relation)
    (w : World) :
  (∀ before relation after,
     data = before ++ relation :: after →
     Forall (λ r, validateRelationType (relationType r) = true) before →
     validateRelationType (relationType relation) = false →
     buildcontext_relations data w
     = (ToolFailure ("Invalid relation type: " +:+ relationType relation), w))
  ∧ (Forall (λ r, validateRelationType (relationType r) = true) data →
     ∀ error w',
       buildcontext_relations data w = (ToolFailure error, w') →
       file w' = file w
       ∧ ∃ relation endpoint,
           relation ∈ data
           ∧ (endpoint = from relation ∨ endpoint = to relation)
           ∧ ¬ present (file w) endpoint
           ∧ error = "Entity '" +:+ endpoint +:+ "' not found").
Proof.
  unfold buildcontext_relations, caught. split.
  - intros before relation after -> Hvalid Hbad.
    rewrite (find_first _ before after relation); [done| |by rewrite Hbad].
    by apply (valid_not_invalid (λ r, validateRelationType (relationType r))).
  - intros Hvalid error w'.
    assert (List.find (λ r, negb (validateRelationType (relationType r))) data
            = None) as ->.
    { apply find_None_Forall.
      by apply (valid_not_invalid (λ r, validateRelationType (relationType r))). }
    rewrite createRelations_eq.
    destruct (firstFailure _ data) as [e|] eqn:Hfail; [|done].
    intros [= <- <-]. split; [done|].
    apply firstFailure_Some in Hfail as (l1 & r & l2 & -> & _ & Hr).
    assert (validateRelationType (relationType r) = true) as Hok.
    { rewrite Forall_forall in Hvalid. apply Hvalid.
      apply elem_of_app. right. apply list_elem_of_here. }
    assert (r ∈ l1 ++ r :: l2) as Hin.
    { apply elem_of_app. right. apply list_elem_of_here. }
    apply relationFailure_Some in Hr
      as [[Hno ->]|[(_ & Hno & ->)|(_ & _ & Hbad & _)]]; [| |congruence].
    + exists r, (from r). split; [done|]. split; [by left|]. done.
    + exists r, (to r). split; [done|]. split; [by right|]. done.
Qed.

Lemma buildcontext_relations_outcome_witness :
  let w := stored (mkGraph [mkEntity "D" "dataset" []] []) in
  let data := [mkRelation "ghost" "D" "contains"; mkRelation "D" "D" "likes"] in
  validateRelationType (H := index_ts) "contains" = true
  ∧ validateRelationType (H := index_ts) "likes" = false
  ∧ buildcontext_relations (H := index_ts) data w
    = (ToolFailure "Invalid relation type: likes", w)
  ∧ fst (createRelations (H := index_ts) data w) = inl (EntityNotFound "ghost").
Proof.
  intros w data.
  assert (validateRelationType (H := index_ts) "contains" = true) as Hok
    by reflexivity.
  assert (validateRelationType (H := index_ts) "likes" = false) as Hbad
    by reflexivity.
  split; [exact Hok|]. split; [exact Hbad|]. split; [|vm_compute; reflexivity].
  apply (proj1 (buildcontext_relations_outcome (H := index_ts) data w)
           [mkRelation "ghost" "D" "contains"] (mkRelation "D" "D" "likes") []).
  - reflexivity.
  - constructor; [exact Hok|constructor].
  - exact Hbad.
Defined.

(** ** The create branch of the commit's steps *)

Lemma graph_eta (g : KnowledgeGraph) : mkGraph (entities g) (relations g) = g.
Proof. by destruct g. Qed.

(** [createEntities] of one entity whose name is taken changes nothing. *)
Lemma createEntities_known `{Deployment} (ent : Entity) (w : World) :
  present (file w) (name ent) →
  ∃ res, createEntities [ent] w = (res, stored (file w)).
Proof.
  intros Hin. rewrite createEntities_eq.
  destruct (firstFailure entityFailure [ent]) as [e|]; [by eexists|].
  cbv zeta. rewrite filter_cons_False, filter_nil by (intros Hn; by apply Hn).
  rewrite app_nil_r, graph_eta. by eexists.
Qed.

(** [createRelations] keeps the entities and only adds relations. *)
Lemma createRelations_grows `{Deployment} (rels : list Relation) (w : World) :
  ∃ res new,
    createRelations rels w
    = (res, stored (mkGraph (entities (file w)) (relations (file w) ++ new))).
Proof.
  rewrite createRelations_eq.
  destruct (firstFailure _ rels) as [e|].
  - exists (inl e), []. by rewrite app_nil_r, graph_eta.
  - cbv zeta. by eexists _, _.
Qed.

(** A relation of an invalid type makes [createRelations] throw. *)
Lemma createRelations_invalid `{Deployment} (r : Relation) (w : World) :
  validateRelationType (relationType r) = false →
  ∃ e, createRelations [r] w = (inl e, stored (file w))
       ∧ relationFailure (entities (file w)) r = Some e.
Proof.
  intros Hbad. rewrite createRelations_eq. cbn [firstFailure].
  destruct (relationFailure (entities (file w)) r) as [e|] eqn:Hfail.
  - by exists e.
  - apply relationFailure_None in Hfail as (_ & _ & Hok). congruence.
Qed.

(** The create branch: the entity, the [contains] edge, and what follows. *)
Lemma create_branch_known `{Deployment} (ent : Entity) (r : Relation)
    (rest : M unit) (w : World) (res : Error + unit) (w' : World) :
  present (file w) (name ent) →
  (∀ w0 res0 w1, rest w0 = (res0, w1) →
     entities (file w1) = entities (file w0)
     ∧ ∀ x, x ∈ relations (file w0) → x ∈ relations (file w1)) →
  (createEntities [ent] ;; createRelations [r] ;; rest) (stored (file w))
  = (res, w') →
  entities (file w') = entities (file w)
  ∧ ∀ x, x ∈ relations (file w) → x ∈ relations (file w').
Proof.
  intros Hin Hrest. unfold mbind, M_bind.
  destruct (createEntities_known ent (stored (file w)) Hin) as [res1 ->].
  cbn [file stored].
  destruct res1 as [e|created]; [by intros [= <- <-]|].
  destruct (createRelations_grows [r] (stored (file w))) as (res2 & new & ->).
  cbn [file stored entities relations].
  destruct res2 as [e|linked].
  - intros [= <- <-]. cbn. split; [done|]. intros x Hx.
    apply elem_of_app. by left.
  - intros Hrun. destruct (Hrest _ _ _ Hrun) as [Hes Hrs].
    cbn in Hes, Hrs. split; [done|]. intros x Hx. apply Hrs.
    apply elem_of_app. by left.
Qed.

Lemma linkIf_grows `{Deployment} (field : option string) (r : Relation)
    (w0 : World) (res0 : Error + unit) (w1 : World) :
  linkIf field r w0 = (res0, w1) →
  entities (file w1) = entities (file w0)
  ∧ ∀ x, x ∈ relations (file w0) → x ∈ relations (file w1).
Proof.
  unfold linkIf. destruct (JS.truthy field).
  - unfold mbind, M_bind, mret, M_ret.
    destruct (createRelations_grows [r] w0) as (res & new & ->).
    assert (∀ x, x ∈ relations (file w0) → x ∈ relations (file w0) ++ new)
      as Hgrows by (intros x Hx; apply elem_of_app; by left).
    destruct res as [e|linked]; intros [= <- <-]; by cbn.
  - unfold mret, M_ret. by intros [= <- <-].
Qed.

(** X20.  When the search for [name:E] finds nothing although an entity
    named [E] is stored, a step of the commit changes no entity, whatever
    its outcome: the size, status, result or notes it was to record for [E]
    are lost, because the create branch hands [createEntities] a name that
    is taken.  The relations stored before are all kept. *)
Theorem commit_miss_loses_update `{Deployment} (step : UpdateStep) (w w' : World)
    (res : Error + unit) :
  searchHits ("name:" +:+ stepEntity step) w = [] →
  present (file w) (stepEntity step) →
  runStep step w = (res, w') →
  entities (file w') = entities (file w)
  ∧ ∀ r, r ∈ relations (file w) → r ∈ relations (file w').
Proof.
  intros Hhits Hin.
  destruct (searchNodes_returns ("name:" +:+ stepEntity step) w)
    as (found & Hsearch & Hres).
  rewrite Hhits in Hres.
  destruct step as [date project u|date project h|date project m
                    |date project status observation];
    cbn [runStep stepEntity] in *.
  - unfold commitDatasetUpdate. unfold mbind at 1, M_bind at 1.
    rewrite Hsearch, <- Hres.
    apply create_branch_known; [done|].
    unfold mret, M_ret. by intros w0 res0 w1 [= <- <-].
  - unfold commitHypothesisResult. unfold mbind at 1 2, M_bind at 1 2.
    rewrite Hsearch, <- Hres.
    destruct ((createEntities _ ;; createRelations _ ;; mret tt) (stored (file w)))
      as [[e|[]] w0] eqn:Hcore.
    + intros [= <- <-]. revert Hcore.
      apply create_branch_known; [done|].
      unfold mret, M_ret. by intros w1 res1 w2 [= <- <-].
    + intros Hlink.
      assert (entities (file w0) = entities (file w)
              ∧ ∀ x, x ∈ relations (file w) → x ∈ relations (file w0)) as [Hes Hrs].
      { revert Hcore. apply create_branch_known; [done|].
        unfold mret, M_ret. by intros w1 res1 w2 [= <- <-]. }
      apply linkIf_grows in Hlink as [Hes' Hrs'].
      split; [congruence|]. intros r Hr. by apply Hrs', Hrs.
  - unfold commitModelUpdate. unfold mbind at 1, M_bind at 1.
    rewrite Hsearch, <- Hres.
    apply create_branch_known; [done|].
    intros w0 res0 w1. apply linkIf_grows.
  - unfold commitProjectStatus. unfold mbind at 1, M_bind at 1.
    rewrite Hsearch, <- Hres. unfold mret, M_ret. by intros [= <- <-].
Qed.

Lemma commit_miss_loses_update_witness :
  let g := mkGraph [mkEntity "P" "project" [];
                    mkEntity "Survey" "dataset" ["size:10"; "variables:3"]]
                   [mkRelation "P" "Survey" "contains"] in
  let step := DatasetStep "2024-05-01" "P"
                (mkDatasetUpdate "Survey" (Some "250") (Some "12")
                                 (Some "cleaned") None) in
  searchHits ("name:" +:+ stepEntity step) (stored g) = []
  ∧ present g (stepEntity step)
  ∧ runStep (H := index_ts) step (stored g) = (inr tt, stored g)
  ∧ entities (file (stored g)) = entities g.
Proof.
  intros g step.
  assert (searchHits ("name:" +:+ stepEntity step) (stored g) = []) as Hhits
    by (vm_compute; reflexivity).
  assert (present g (stepEntity step)) as Hin.
  { unfold present. simpl. apply list_elem_of_further, list_elem_of_here. }
  assert (runStep (H := index_ts) step (stored g) = (inr tt, stored g)) as Hrun
    by (vm_compute; reflexivity).
  split; [exact Hhits|]. split; [exact Hin|]. split; [exact Hrun|].
  exact (proj1 (commit_miss_loses_update (H := index_ts) step (stored g) (stored g)
                  (inr tt) Hhits Hin Hrun)).
Defined.



(** X22.  The hypothesis step of the commit links the hypothesis to its
    test with a relation of type [tested_by].  Where that type is not among
    the valid relation types, a hypothesis result that names a test makes
    the step throw in every graph.  When the search had found the
    hypothesis, the throw comes after the entity was deleted and re-created:
    the graph file then holds the re-created entity and none of the
    relations that involved it, and the error is about the test's name or
    about the relation type. *)
Theorem commit_hypothesis_link_throws `{Deployment} (date project : string)
    (hypothesis : HypothesisResult) (w : World) :
  validateRelationType "tested_by" = false →
  JS.truthy (hr_testName hypothesis) = true →
  ∃ e w',
    commitHypothesisResult date project hypothesis w = (inl e, w')
    ∧ ∀ found others,
        searchHits ("name:" +:+ hr_name hypothesis) w = found :: others →
        validateEntityType "hypothesis" = true →
        entities (file w')
        = filter (λ x, name x ≠ hr_name hypothesis) (entities (file w))
          ++ [mkEntity (hr_name hypothesis) "hypothesis"
                (hypothesisObservations date hypothesis found)]
        ∧ relations (file w')
          = filter (λ r, ¬ touches r (hr_name hypothesis)) (relations (file w))
        ∧ (e = EntityNotFound (default EmptyString (hr_testName hypothesis))
           ∨ e = InvalidRelationType "tested_by" VALID_RELATION_TYPES).
Proof.
  intros Hbad Htest.
  destruct (searchNodes_returns ("name:" +:+ hr_name hypothesis) w)
    as (hypGraph & Hsearch & Hres).
  unfold commitHypothesisResult. unfold mbind at 1 2, M_bind at 1 2.
  rewrite Hsearch. unfold linkIf. rewrite Htest.
  set (link := mkRelation (hr_name hypothesis)
                 (default EmptyString (hr_testName hypothesis)) "tested_by").
  assert (∀ w0, ∃ e, (createRelations [link] ;; mret tt) w0 = (inl e, stored (file w0))
                     ∧ relationFailure (entities (file w0)) link = Some e)
    as Hlink.
  { intros w0. destruct (createRelations_invalid link w0 Hbad) as (e & Hrun & He).
    exists e. unfold mbind, M_bind. by rewrite Hrun. }
  destruct (entities hypGraph) as [|hypEntity rest] eqn:Hhits.
  - destruct ((createEntities _ ;; createRelations _ ;; mret tt) (stored (file w)))
      as [[e|[]] w0].
    + exists e, w0. split; [done|]. intros found others Hfound. congruence.
    + destruct (Hlink w0) as (e & -> & _). exists e, (stored (file w0)).
      split; [done|]. intros found others Hfound. congruence.
  - pose proof (delete_then_create
                  (mkEntity (hr_name hypothesis) "hypothesis"
                     (hypothesisObservations date hypothesis hypEntity))
                  (stored (file w)))
      as Hcore.
    cbn [name entityType file stored] in Hcore. rewrite Hcore. cbv zeta.
    destruct (validateEntityType "hypothesis").
    + cbn [entities relations].
      match goal with
      | |- context [stored ?g] => destruct (Hlink (stored g)) as (e & -> & He)
      end.
      exists e. eexists. split; [reflexivity|].
      intros found others Hfound _. rewrite Hfound in Hres.
      injection Hres as <- _. cbn [file stored entities relations].
      split; [done|]. split; [done|].
      cbn [file stored entities] in He.
      apply relationFailure_Some in He
        as [[Hno _]|[(_ & _ & ->)|(_ & _ & _ & ->)]]; [|by left|by right].
      destruct Hno. subst link. cbn [from].
      rewrite fmap_app, elem_of_app. right. cbn. apply list_elem_of_here.
    + eexists _, _. split; [reflexivity|]. by intros found others _ ?.
Qed.

Lemma commit_hypothesis_link_throws_witness :
  let g := mkGraph [mkEntity "P" "project" [];
                    mkEntity "H1" "hypothesis" ["name:H1"; "status:proposed"];
                    mkEntity "t-test" "statistical_test" []]
                   [mkRelation "P" "H1" "contains";
                    mkRelation "t-test" "H1" "tests"] in
  let hypothesis := mkHypothesisResult "H1" "supported" (Some "0.03") None
                                       (Some "t-test") in
  validateRelationType (H := index_ts) "tested_by" = false
  ∧ JS.truthy (hr_testName hypothesis) = true
  ∧ commitHypothesisResult (H := index_ts) "2024-05-01" "P" hypothesis (stored g)
    = (inl (InvalidRelationType "tested_by" (VALID_RELATION_TYPES (Deployment := index_ts))),
       stored (mkGraph [mkEntity "P" "project" [];
                        mkEntity "t-test" "statistical_test" [];
                        mkEntity "H1" "hypothesis"
                          ["name:H1"; "status:supported"; "updated:2024-05-01";
                           "p-value:0.03"]]
                       []))
  ∧ ∃ e w', commitHypothesisResult (H := index_ts) "2024-05-01" "P" hypothesis
              (stored g) = (inl e, w').
Proof.
  intros g hypothesis.
  assert (validateRelationType (H := index_ts) "tested_by" = false) as Hbad
    by reflexivity.
  assert (JS.truthy (hr_testName hypothesis) = true) as Htest by reflexivity.
  split; [exact Hbad|]. split; [exact Htest|].
  split; [vm_compute; reflexivity|].
  destruct (commit_hypothesis_link_throws (H := index_ts) "2024-05-01" "P"
              hypothesis (stored g) Hbad Htest) as (e & w' & Hrun & _).
  by exists e, w'.
Defined.

(** ** The dataset step of the compiled build *)

(** X23.  In the compiled build the dataset step, when its search returns an
    entity, works in place: whatever its outcome, the names of the stored
    entities are those stored before, in the same order, and every stored
    relation is kept except the [has_status] edges out of the dataset.  When
    the first entity the search returned is the stored entity named by the
    update and no status is given, the step succeeds, and the entity keeps
    its position and its type, with the rebuilt observations; the relations
    are untouched. *)
Theorem compiled_dataset_update_in_place `{Deployment} (project : string)
    (datasetUpdate : DatasetUpdate) (w w' : World) (res : Error + unit)
    (found : Entity) (others : list Entity) :
  searchHits ("name:" +:+ du_name datasetUpdate) w = found :: others →
  CompiledBuild.commitDatasetUpdate project datasetUpdate w = (res, w') →
  name <$> entities (file w') = name <$> entities (file w)
  ∧ (∀ r, r ∈ relations (file w) →
          ¬ (from r = du_name datasetUpdate ∧ relationType r = "has_status") →
          r ∈ relations (file w'))
  ∧ (∀ i, findEntity (du_name datasetUpdate) (entities (file w)) = Some (i, found) →
          JS.truthy (du_status datasetUpdate) = false →
          res = inr tt
          ∧ entities (file w')
            = <[i := withObservations found
                       (CompiledBuild.datasetObservations datasetUpdate found)]>
                (entities (file w))
          ∧ relations (file w') = relations (file w)).
Proof.
  intros Hhits.
  destruct (searchNodes_returns ("name:" +:+ du_name datasetUpdate) w)
    as (datasetGraph & Hsearch & Hres).
  rewrite Hhits in Hres.
  unfold CompiledBuild.commitDatasetUpdate. unfold mbind at 1, M_bind at 1.
  rewrite Hsearch, <- Hres. intros Hrun. split; [|split].
  - revert Hrun. unfold mbind, M_bind.
    destruct (deleteObservations_frame
                [mkObservationDeletion (du_name datasetUpdate) (observations found)]
                (stored (file w))) as (w1 & -> & Hnames1 & _).
    cbn [file stored] in Hnames1.
    pose proof (addObservations_frame
                  [mkObservationInput (du_name datasetUpdate)
                     (CompiledBuild.datasetObservations datasetUpdate found)] w1)
      as [Hnames2 _].
    destruct (addObservations _ w1) as [[e|added] w2]; cbn [snd] in Hnames2.
    + intros [= <- <-]. congruence.
    + unfold CompiledBuild.setStatusIf. destruct (JS.truthy (du_status datasetUpdate)).
      * rewrite setEntityStatus_eq. destruct (includes _ _).
        -- intros [= <- <-]. cbn. congruence.
        -- intros [= <- <-]. congruence.
      * unfold mret, M_ret. intros [= <- <-]. congruence.
  - revert Hrun. unfold mbind, M_bind.
    destruct (deleteObservations_frame
                [mkObservationDeletion (du_name datasetUpdate) (observations found)]
                (stored (file w))) as (w1 & -> & _ & Hrels1).
    cbn [file stored] in Hrels1.
    pose proof (addObservations_frame
                  [mkObservationInput (du_name datasetUpdate)
                     (CompiledBuild.datasetObservations datasetUpdate found)] w1)
      as [_ Hrels2].
    destruct (addObservations _ w1) as [[e|added] w2]; cbn [snd] in Hrels2.
    + intros [= <- <-] r Hr _. congruence.
    + unfold CompiledBuild.setStatusIf. destruct (JS.truthy (du_status datasetUpdate)).
      * rewrite setEntityStatus_eq. destruct (includes _ _).
        -- intros [= <- <-] r Hr Hkeep. cbn. apply elem_of_app. left.
           apply list_elem_of_filter. split; [done|congruence].
        -- intros [= <- <-] r Hr _. congruence.
      * unfold mret, M_ret. intros [= <- <-] r Hr _. congruence.
  - intros i Hfind Hstatus. revert Hrun. unfold mbind, M_bind.
    rewrite (deleteObservations_one (du_name datasetUpdate) (observations found)
               (stored (file w)) i found Hfind).
    cbn [file stored entities relations].
    rewrite filter_none by (apply Forall_forall; intros o Ho Hn; by apply Hn).
    pose proof (findEntity_update (du_name datasetUpdate) _ i found [] Hfind)
      as Hfind1.
    rewrite (addObservations_one (du_name datasetUpdate) _
               (stored (mkGraph (<[i := withObservations found []]>
                                   (entities (file w)))
                                (relations (file w)))) i _ Hfind1).
    cbv zeta. cbn [file stored entities relations observations withObservations
                   name entityType].
    unfold CompiledBuild.setStatusIf. rewrite Hstatus. unfold mret, M_ret.
    intros [= <- <-]. cbn [file stored entities relations].
    split; [done|]. split; [|done].
    rewrite list_insert_insert_eq. f_equal. unfold withObservations.
    f_equal. apply filter_all, Forall_forall. intros o _. apply not_elem_of_nil.
Qed.

Lemma compiled_dataset_update_in_place_witness :
  let g := mkGraph [mkEntity "Survey" "dataset" ["size:10"; "name:Survey"];
                    mkEntity "P" "project" []]
                   [mkRelation "P" "Survey" "contains"] in
  let u := mkDatasetUpdate "Survey" (Some "250") None None None in
  let g' := mkGraph [mkEntity "Survey" "dataset"
                       ["name:Survey"; "size:250"; "variables:unknown"];
                     mkEntity "P" "project" []]
                    [mkRelation "P" "Survey" "contains"] in
  searchHits ("name:" +:+ du_name u) (stored g)
  = [mkEntity "Survey" "dataset" ["size:10"; "name:Survey"]]
  ∧ CompiledBuild.commitDatasetUpdate (H := compiled_build) "P" u (stored g)
    = (inr tt, stored g')
  ∧ name <$> entities g' = name <$> entities g.
Proof.
  intros g u g'.
  assert (searchHits ("name:" +:+ du_name u) (stored g)
          = [mkEntity "Survey" "dataset" ["size:10"; "name:Survey"]]) as Hhits
    by (vm_compute; reflexivity).
  assert (CompiledBuild.commitDatasetUpdate (H := compiled_build) "P" u (stored g)
          = (inr tt, stored g')) as Hrun by (vm_compute; reflexivity).
  split; [exact Hhits|]. split; [exact Hrun|].
  exact (proj1 (compiled_dataset_update_in_place (H := compiled_build) "P" u
                  (stored g) (stored g') (inr tt) _ [] Hhits Hrun)).
Defined.

(** ** Recording the stages of a session *)

Section SessionFacts.

Context {Data : Type}.

Implicit Types (stageResult : Session.StageResult Data)
               (sessionState : list (Session.Item Data)).

Lemma recordStage_append (isRevision : bool) (revisesStage : option positive)
    stageResult sessionState :
  Forall (λ item, Session.type item = "analysis_stage") sessionState →
  isRevision = false ∨ revisesStage = None
  ∨ (∃ n, revisesStage = Some n ∧ List.length sessionState < Pos.to_nat n) →
  Session.recordStage isRevision revisesStage stageResult sessionState
  = sessionState ++ [Session.analysisStage stageResult].
Proof.
  intros Hall Hcase. unfold Session.recordStage.
  destruct revisesStage as [stageNumber|]; [|done].
  destruct isRevision; [|done].
  destruct Hcase as [?|[?|(n & [= <-] & Hlong)]]; [done..|].
  rewrite (filter_all _ _ Hall).
  rewrite filter_none by (eapply Forall_impl; [exact Hall|]; intros item Hi Hn; by apply Hn).
  destruct (Nat.leb_spec (Pos.to_nat stageNumber) (List.length sessionState));
    [lia|done].
Qed.

Lemma recordStage_replace (stageNumber : positive) stageResult sessionState :
  Forall (λ item, Session.type item = "analysis_stage") sessionState →
  Pos.to_nat stageNumber ≤ List.length sessionState →
  Session.recordStage true (Some stageNumber) stageResult sessionState
  = <[Pos.to_nat stageNumber - 1 := Session.analysisStage stageResult]>
      sessionState.
Proof.
  intros Hall Hshort. unfold Session.recordStage.
  rewrite (filter_all _ _ Hall).
  rewrite filter_none by (eapply Forall_impl; [exact Hall|]; intros item Hi Hn; by apply Hn).
  destruct (Nat.leb_spec (Pos.to_nat stageNumber) (List.length sessionState));
    [done|lia].
Qed.

(** X24.  As long as the session holds analysis stages only, which is all
    the handler ever records, recording a stage keeps it so.  A revision
    whose [revisesStage] is at most the number of stages recorded replaces
    the stage at that position, counted from 1, and leaves the others and
    their number as they were; in every other case, a [revisesStage] beyond
    the stages recorded included, the stage is appended. *)
Theorem recordStage_outcome (isRevision : bool) (revisesStage : option positive)
    stageResult sessionState :
  Forall (λ item, Session.type item = "analysis_stage") sessionState →
  let after :=
    Session.recordStage isRevision revisesStage stageResult sessionState in
  Forall (λ item, Session.type item = "analysis_stage") after
  ∧ (∀ n, isRevision = true → revisesStage = Some n →
          Pos.to_nat n ≤ List.length sessionState →
          List.length after = List.length sessionState
          ∧ after !! (Pos.to_nat n - 1) = Some (Session.analysisStage stageResult)
          ∧ ∀ j, j ≠ Pos.to_nat n - 1 → after !! j = sessionState !! j)
  ∧ (isRevision = false ∨ revisesStage = None
     ∨ (∃ n, revisesStage = Some n ∧ List.length sessionState < Pos.to_nat n) →
     after = sessionState ++ [Session.analysisStage stageResult]).
Proof.
  intros Hall after.
  assert (∀ n, isRevision = true → revisesStage = Some n →
               Pos.to_nat n ≤ List.length sessionState →
               after = <[Pos.to_nat n - 1 := Session.analysisStage stageResult]>
                         sessionState)
    as Hreplace.
  { intros n -> -> Hle. subst after. by rewrite recordStage_replace. }
  split; [|split].
  - destruct isRevision eqn:Hrev, revisesStage as [n|] eqn:Hstage.
    + destruct (decide (Pos.to_nat n ≤ List.length sessionState)) as [Hin|Hout].
      * rewrite (Hreplace n eq_refl eq_refl Hin).
        apply Forall_insert; [exact Hall|done].
      * subst after. rewrite recordStage_append; [|done|].
        -- apply Forall_app. split; [exact Hall|by repeat constructor].
        -- right. right. eexists. split; [done|lia].
    + subst after. rewrite recordStage_append; [|done|by right; left].
      apply Forall_app. split; [exact Hall|by repeat constructor].
    + subst after. rewrite recordStage_append; [|done|by left].
      apply Forall_app. split; [exact Hall|by repeat constructor].
    + subst after. rewrite recordStage_append; [|done|by left].
      apply Forall_app. split; [exact Hall|by repeat constructor].
  - intros n Hrev Hstage Hin. rewrite (Hreplace n Hrev Hstage Hin).
    pose proof (Pos2Nat.is_pos n) as Hpos.
    split; [by rewrite length_insert|]. split.
    + apply list_lookup_insert_eq. lia.
    + intros j Hj. by apply list_lookup_insert_ne.
  - intros Hcase. by apply recordStage_append.
Qed.

Lemma find_app_none {A} (p : A → bool) (l1 l2 : list A) :
  Forall (λ y, p y = false) l1 → List.find p (l1 ++ l2) = List.find p l2.
Proof.
  induction 1 as [|y l1 Hy _ IH]; simpl; [done|]. by rewrite Hy.
Qed.

(** X25.  The assembly takes, for each kind of stage, the first stage of
    that kind in the session.  So a stage submitted again without
    [isRevision] is recorded but never used: the assembly still takes the
    stage recorded first.  After a revision the assembly takes the revision
    exactly when the revision is of that kind and replaces the first stage
    of the kind or a stage before it.  A revision of another kind that
    replaces the first stage of the kind makes the assembly take the next
    stage of the kind, if there is one; any other revision leaves the
    assembly's choice as it was. *)
Theorem findStage_first_wins (kind : string) stageResult sessionState
    (before after : list (Session.Item Data)) (old : Session.Item Data) :
  Forall (λ item, Session.type item = "analysis_stage") sessionState →
  sessionState = before ++ old :: after →
  Forall (λ item, Session.stage (Session.result item) ≠ kind) before →
  Session.stage (Session.result old) = kind →
  Session.findStage kind sessionState = Some old
  ∧ (∀ revisesStage,
       Session.findStage kind
         (Session.recordStage false revisesStage stageResult sessionState)
       = Some old)
  ∧ (∀ n,
       Session.findStage kind
         (Session.recordStage true (Some n) stageResult sessionState)
       = if decide (Pos.to_nat n ≤ List.length before + 1
                    ∧ Session.stage stageResult = kind)
         then Some (Session.analysisStage stageResult)
         else if decide (Pos.to_nat n = List.length before + 1)
              then Session.findStage kind after
              else Some old)
  ∧ (Session.analysisStage stageResult ≠ old →
     ∀ n,
       Session.findStage kind
         (Session.recordStage true (Some n) stageResult sessionState)
       = Some (Session.analysisStage stageResult)
       ↔ Pos.to_nat n ≤ List.length before + 1
         ∧ Session.stage stageResult = kind).
Proof.
  intros Hall -> Hbefore Hold.
  set (new := Session.analysisStage stageResult).
  set (matches := λ s : Session.Item Data,
                    String.eqb (Session.stage (Session.result s)) kind).
  assert (∀ l, Forall (λ item : Session.Item Data,
                         Session.stage (Session.result item) ≠ kind) l →
               Forall (λ item, matches item = false) l) as Hmiss.
  { intros l Hl. eapply Forall_impl; [exact Hl|]. intros item Hne.
    by apply String.eqb_neq. }
  assert (∀ l x rest,
            Forall (λ item : Session.Item Data,
                      Session.stage (Session.result item) ≠ kind) l →
            Session.stage (Session.result x) = kind →
            Session.findStage kind (l ++ x :: rest) = Some x) as Hfind.
  { intros l x rest Hl Hx. unfold Session.findStage.
    apply (find_first matches l rest x (Hmiss l Hl)). by apply String.eqb_eq. }
  assert (∀ n,
            Session.findStage kind
              (Session.recordStage true (Some n) stageResult
                                   (before ++ old :: after))
            = if decide (Pos.to_nat n ≤ List.length before + 1
                         ∧ Session.stage stageResult = kind)
              then Some new
              else if decide (Pos.to_nat n = List.length before + 1)
                   then Session.findStage kind after
                   else Some old) as Hrevised.
  { intros n. pose proof (Pos2Nat.is_pos n) as Hpos.
    destruct (decide (Pos.to_nat n ≤ List.length (before ++ old :: after)))
      as [Hin|Hout].
    - rewrite recordStage_replace by done.
      destruct (decide (Pos.to_nat n - 1 < List.length before)) as [Hearly|Hlate].
      + rewrite insert_app_l by done.
        destruct (decide (Session.stage stageResult = kind)) as [Hkind|Hother].
        * rewrite decide_True by (split; [lia|done]).
          rewrite insert_take_drop by done. rewrite <- app_assoc.
          apply (Hfind (take (Pos.to_nat n - 1) before) new);
            [by apply Forall_take|done].
        * rewrite decide_False by tauto. rewrite decide_False by lia.
          apply Hfind; [|done]. by apply Forall_insert.
      + rewrite insert_app_r_alt by lia.
        destruct (Pos.to_nat n - 1 - List.length before) as [|k] eqn:Hk.
        * cbn [insert list_insert].
          destruct (decide (Session.stage stageResult = kind)) as [Hkind|Hother].
          -- rewrite decide_True by (split; [lia|done]). by apply Hfind.
          -- rewrite decide_False by tauto. rewrite decide_True by lia.
             unfold Session.findStage.
             rewrite (find_app_none matches before) by by apply Hmiss.
             cbn [List.find]. unfold matches at 1. cbn.
             by rewrite (proj2 (String.eqb_neq _ _) Hother).
        * cbn [insert list_insert].
          rewrite decide_False by lia. rewrite decide_False by lia.
          by apply Hfind.
    - rewrite recordStage_append; [|done|].
      + rewrite length_app in Hout. cbn [List.length] in Hout.
        rewrite decide_False by lia. rewrite decide_False by lia.
        rewrite <- app_assoc. by apply Hfind.
      + right. right. exists n. split; [done|lia]. }
  split; [by apply Hfind|]. split; [|split].
  - intros revisesStage. rewrite recordStage_append; [|done|by left].
    rewrite <- app_assoc. by apply Hfind.
  - exact Hrevised.
  - intros Hdistinct n. rewrite Hrevised.
    destruct (decide (Pos.to_nat n ≤ List.length before + 1
                      ∧ Session.stage stageResult = kind)) as [Hused|Hnot].
    + done.
    + split; [|done].
      destruct (decide (Pos.to_nat n = List.length before + 1)) as [Hat|Hoff].
      * intros Hnext. unfold Session.findStage in Hnext.
        apply find_Some_first in Hnext as (l1 & l2 & _ & _ & Hkind).
        apply String.eqb_eq in Hkind. cbn in Hkind.
        destruct Hnot. split; [lia|done].
      * intros [= Heq]. by destruct Hdistinct.
Qed.

End SessionFacts.

Lemma recordStage_outcome_witness :
  let first := Session.mkStageResult "summary" 1 "first" tt false in
  let second := Session.mkStageResult "datasetUpdates" 2 "second" tt false in
  let revision := Session.mkStageResult "summary" 1 "revised" tt false in
  let state := [Session.analysisStage first; Session.analysisStage second] in
  Forall (λ item, Session.type item = "analysis_stage") state
  ∧ Session.recordStage true (Some 1%positive) revision state
    = [Session.analysisStage revision; Session.analysisStage second]
  ∧ Session.recordStage true (Some 3%positive) revision state
    = state ++ [Session.analysisStage revision].
Proof.
  intros first second revision state.
  assert (Forall (λ item : Session.Item unit,
                    Session.type item = "analysis_stage") state) as Hall
    by (by repeat constructor).
  split; [exact Hall|]. split; [reflexivity|].
  apply (recordStage_outcome true (Some 3%positive) revision state Hall).
  right. right. exists 3%positive. split; [reflexivity|]. cbn. lia.
Defined.

Lemma findStage_first_wins_witness :
  let first := Session.mkStageResult "summary" 1 "first" tt false in
  let second := Session.mkStageResult "datasetUpdates" 2 "second" tt false in
  let again := Session.mkStageResult "datasetUpdates" 3 "corrected" tt false in
  let state := [Session.analysisStage first; Session.analysisStage second] in
  Session.findStage "datasetUpdates"
    (Session.recordStage false None again state)
  = Some (Session.analysisStage second)
  ∧ Session.recordStage true (Some 1%positive) again state
    = [Session.analysisStage again; Session.analysisStage second]
  ∧ Session.findStage "datasetUpdates"
      (Session.recordStage true (Some 1%positive) again state)
    = Some (Session.analysisStage again).
Proof.
  intros first second again state.
  destruct (findStage_first_wins "datasetUpdates" again state
              [Session.analysisStage first] [] (Session.analysisStage second))
    as (_ & Happend & Hrevised & _).
  - by repeat constructor.
  - reflexivity.
  - by repeat constructor.
  - reflexivity.
  - split; [exact (Happend None)|]. split; [reflexivity|].
    rewrite (Hrevised 1%positive). reflexivity.
Defined.

(** ** The hypothesis view after a commit *)

Lemma sources_elem_of (g : KnowledgeGraph) (relType target type : string)
    (e : Entity) :
  e ∈ sources g relType target type → e ∈ entities g.
Proof.
  unfold sources. intros Hin. apply list_elem_of_omap in Hin as (r & _ & Hr).
  destruct (decide _); [|done]. by apply findTyped_Some in Hr as [? _].
Qed.

Lemma getHypothesisTests_analyses (projectName : string)
    (hypothesisName : option string) (g : KnowledgeGraph)
    (answer : HypothesisTests.Result) (a : HypothesisTests.HypothesisAnalysis) :
  HypothesisTests.getHypothesisTests projectName hypothesisName g = inr answer →
  a ∈ HypothesisTests.hypotheses answer →
  ∃ e, e ∈ entities g ∧ a = HypothesisTests.analyse g e.
Proof.
  unfold HypothesisTests.getHypothesisTests.
  destruct (findTyped projectName "project" (entities g)) as [project|]; [|done].
  destruct (JS.truthy hypothesisName).
  - cbv zeta. destruct (findTyped _ "hypothesis" (entities g)) as [e|] eqn:He; [|done].
    intros [= <-]. cbn. intros Ha. apply list_elem_of_singleton in Ha as ->.
    exists e. split; [|done]. by apply findTyped_Some in He as [? _].
  - intros [= <-]. cbn. intros Ha.
    apply list_elem_of_fmap in Ha as (e & -> & He).
    exists e. split; [|done]. by apply sources_elem_of in He.
Qed.

Lemma findPrefixed_None (prefix : string) (obs : list string) :
  Forall (λ o, JS.startsWith o prefix = false) obs →
  findPrefixed [prefix] obs = None.
Proof.
  intros Hall. unfold findPrefixed. apply find_None_Forall.
  eapply Forall_impl; [exact Hall|]. intros o Ho. simpl. by rewrite Ho.
Qed.

(** X26.  The hypothesis step of the commit writes the status of a
    hypothesis as an observation [status:...], and [getHypothesisTests]
    reads it from an observation that starts with [Status:].  So after the
    step has updated a hypothesis none of whose former observations, nor
    the notes given, starts with [Status:], the view reports the status
    "unknown" and [isSupported] false for it, whatever status was
    committed. *)
Theorem commit_status_unseen_by_view `{Deployment} (date project : string)
    (h : HypothesisResult) (w w1 : World) (found : Entity)
    (others : list Entity) (projectName : string)
    (hypothesisName : option string) (answer : HypothesisTests.Result) :
  searchHits ("name:" +:+ hr_name h) w = found :: others →
  commitHypothesisResult date project h w = (inr tt, w1) →
  Forall (λ o, JS.startsWith o "Status:" = false) (observations found) →
  JS.startsWith (default EmptyString (hr_notes h)) "Status:" = false →
  HypothesisTests.getHypothesisTests projectName hypothesisName (file w1)
  = inr answer →
  ∀ a, a ∈ HypothesisTests.hypotheses answer →
       name (HypothesisTests.hypothesis a) = hr_name h →
       HypothesisTests.hypothesis a
       = mkEntity (hr_name h) "hypothesis" (hypothesisObservations date h found)
       ∧ HypothesisTests.status a = "unknown"
       ∧ HypothesisTests.isSupported a = false.
Proof.
  intros Hhits Hrun Hformer Hnotes Hview a Ha Hname.
  destruct (runStep_update_branch (HypothesisStep date project h) w w1 found others
              Hhits Hrun) as (w0 & Hcore & Hlinks).
  cbn [stepRecreates name stepLinks] in Hcore, Hlinks.
  pose proof (delete_then_create
                (mkEntity (hr_name h) "hypothesis"
                          (hypothesisObservations date h found))
                (stored (file w))) as Heq.
  cbn [name entityType file stored] in Heq. rewrite Heq in Hcore. clear Heq.
  cbv zeta in Hcore. destruct (validateEntityType "hypothesis"); [|done].
  injection Hcore as <-. cbn [entities relations] in Hlinks.
  assert (entities (file w1)
          = filter (λ e, name e ≠ hr_name h) (entities (file w))
            ++ [mkEntity (hr_name h) "hypothesis"
                  (hypothesisObservations date h found)]) as Hes.
  { destruct Hlinks as [->|(created & Hlink)]; [done|].
    rewrite createRelations_eq in Hlink.
    destruct (firstFailure _ _); [done|]. cbv zeta in Hlink.
    by injection Hlink as _ <-. }
  destruct (getHypothesisTests_analyses _ _ _ _ a Hview Ha) as (e & He & ->).
  cbn [HypothesisTests.analyse HypothesisTests.hypothesis] in Hname.
  assert (e = mkEntity (hr_name h) "hypothesis"
                (hypothesisObservations date h found)) as ->.
  { rewrite Hes in He. apply elem_of_app in He as [He|He].
    - by apply list_elem_of_filter in He as [Hne _].
    - by apply list_elem_of_singleton in He. }
  unfold HypothesisTests.analyse.
  cbn [HypothesisTests.hypothesis HypothesisTests.status
       HypothesisTests.isSupported observations].
  rewrite findPrefixed_None; [done|].
  unfold hypothesisObservations. rewrite !Forall_app. split; [|split; [|split]].
  - apply Forall_forall. intros o Ho. apply list_elem_of_filter in Ho as [_ Ho].
    rewrite Forall_forall in Hformer. by apply Hformer.
  - by repeat constructor.
  - unfold pushIf. destruct (JS.truthy (hr_pValue h)); by repeat constructor.
  - unfold pushIf. destruct (JS.truthy (hr_notes h)); by repeat constructor.
Qed.

Lemma commit_status_unseen_by_view_witness :
  let g := mkGraph [mkEntity "P" "project" [];
                    mkEntity "H1" "hypothesis" ["name:H1"; "status:proposed"]]
                   [mkRelation "P" "H1" "contains"] in
  let h := mkHypothesisResult "H1" "supported" (Some "0.03") None None in
  let recreated := mkEntity "H1" "hypothesis"
                     ["name:H1"; "status:supported"; "updated:2024-05-01";
                      "p-value:0.03"] in
  let g1 := mkGraph [mkEntity "P" "project" []; recreated] [] in
  let a := HypothesisTests.mkHypothesisAnalysis recreated "unknown" false [] in
  commitHypothesisResult (H := index_ts) "2024-05-01" "P" h (stored g)
  = (inr tt, stored g1)
  ∧ HypothesisTests.getHypothesisTests "P" (Some "H1") g1
    = inr (HypothesisTests.mkResult (mkEntity "P" "project" []) [a])
  ∧ HypothesisTests.status a = "unknown"
  ∧ HypothesisTests.isSupported a = false.
Proof.
  intros g h recreated g1 a.
  assert (searchHits ("name:" +:+ hr_name h) (stored g)
          = [mkEntity "H1" "hypothesis" ["name:H1"; "status:proposed"]]) as Hhits
    by (vm_compute; reflexivity).
  assert (commitHypothesisResult (H := index_ts) "2024-05-01" "P" h (stored g)
          = (inr tt, stored g1)) as Hrun by (vm_compute; reflexivity).
  assert (HypothesisTests.getHypothesisTests "P" (Some "H1") g1
          = inr (HypothesisTests.mkResult (mkEntity "P" "project" []) [a]))
    as Hview by (vm_compute; reflexivity).
  split; [exact Hrun|]. split; [exact Hview|].
  refine (proj2 (commit_status_unseen_by_view (H := index_ts) "2024-05-01" "P" h
                   (stored g) (stored g1) _ [] "P" (Some "H1") _
                   Hhits Hrun _ _ Hview a _ _)).
  - by repeat constructor.
  - reflexivity.
  - apply list_elem_of_here.
  - reflexivity.
Defined.

(** ** The lookup [name:E] of the commit *)

Lemma string_app_empty_r (s : string) : s +:+ EmptyString = s.
Proof.
  induction s as [|c s IH]; [done|].
  change (String c (s +:+ EmptyString) = String c s). by rewrite IH.
Qed.

(** Read outside white space, the first piece of a split starts with the
    piece read so far. *)
Lemma split_from_head (cur s : string) :
  ∃ more rest, JS.split_from false cur s = (cur +:+ more) :: rest.
Proof.
  revert cur. induction s as [|c s IH]; intros cur; cbn [JS.split_from].
  - exists EmptyString, []. by rewrite string_app_empty_r.
  - destruct (JS.isWhiteSpace c).
    + eexists EmptyString, _. by rewrite string_app_empty_r.
    + destruct (IH (cur +:+ String c EmptyString)) as (more & rest & ->).
      exists (String c more), rest. by rewrite string_app_assoc.
Qed.

Lemma occursIn_prefix (t more s : string) :
  occursIn (t +:+ more) s → occursIn t s.
Proof.
  intros (before & after & ->). exists before, (more +:+ after).
  by rewrite string_app_assoc.
Qed.

Lemma termMatches_prefix (e : Entity) (t more : string) :
  termMatches e (t +:+ more) = true → termMatches e t = true.
Proof.
  rewrite !termMatches_spec.
  intros [Hn|[Ht|(o & Ho & Hobs)]].
  - left. by apply occursIn_prefix in Hn.
  - right. left. by apply occursIn_prefix in Ht.
  - right. right. exists o. split; [done|]. by apply occursIn_prefix in Hobs.
Qed.

(** X27.  The commit looks an entity up with the query [name:E].  The
    search takes the query as plain text, so its first term starts with
    [name:], and an entity is found only if its name, its type or one of
    its observations contains that text.  In a graph no entity of which
    mentions [name:], the lookup finds nothing, whatever [E] is and whether
    or not an entity named [E] is stored. *)
Theorem name_lookup_needs_marker (entityName : string) (w : World) :
  Forall (λ e, termMatches e "name:" = false) (entities (file w)) →
  searchHits ("name:" +:+ entityName) w = [].
Proof.
  intros Hnone. unfold searchHits. rewrite searchNodes_eq. cbv zeta.
  cbn [fst entities].
  assert (filter (λ e, matchesAllTerms (searchTerms ("name:" +:+ entityName)) e
                       = true) (entities (file w)) = []) as ->.
  { apply filter_none. eapply Forall_impl; [exact Hnone|].
    intros e He Hall. unfold matchesAllTerms, searchTerms in Hall.
    change (JS.toLowerCase ("name:" +:+ entityName))
      with ("name:" +:+ JS.toLowerCase entityName) in Hall.
    change (JS.split_whitespace ("name:" +:+ JS.toLowerCase entityName))
      with (JS.split_from false "name:" (JS.toLowerCase entityName)) in Hall.
    destruct (split_from_head "name:" (JS.toLowerCase entityName))
      as (more & rest & Hsplit).
    rewrite Hsplit in Hall. cbn [forallb] in Hall.
    apply andb_true_iff in Hall as [Hfirst _].
    apply termMatches_prefix in Hfirst. congruence. }
  apply filter_none, Forall_forall. intros e _ Hin.
  by apply elem_of_nil in Hin.
Qed.

Lemma name_lookup_needs_marker_witness :
  let g := mkGraph [mkEntity "P" "project" ["status:active"];
                    mkEntity "Survey" "dataset" ["size:10"; "variables:3"]]
                   [mkRelation "P" "Survey" "contains"] in
  Forall (λ e, termMatches e "name:" = false) (entities g)
  ∧ searchHits ("name:" +:+ "Survey") (stored g) = [].
Proof.
  intros g.
  assert (Forall (λ e, termMatches e "name:" = false) (entities g)) as Hnone.
  { repeat constructor. }
  split; [exact Hnone|].
  exact (name_lookup_needs_marker "Survey" (stored g) Hnone).
Defined.

(** ** Status values in the compiled build *)

(** X28.  In the compiled build the dataset step hands the status of the
    update to [setEntityStatus], which accepts the four values of
    [VALID_STATUS_VALUES] only.  With any other status the step never
    succeeds.  In its create branch the throw comes after the dataset was
    stored and before it is linked to the project: the graph file holds the
    new dataset with no [contains] edge and no status. *)
Theorem compiled_dataset_status_rejected `{Deployment} (project : string)
    (datasetUpdate : DatasetUpdate) (w : World) :
  JS.truthy (du_status datasetUpdate) = true →
  (default EmptyString (du_status datasetUpdate) ∉ VALID_STATUS_VALUES) →
  (∃ e w', CompiledBuild.commitDatasetUpdate project datasetUpdate w = (inl e, w'))
  ∧ (searchHits ("name:" +:+ du_name datasetUpdate) w = [] →
     validateEntityType "dataset" = true →
     ¬ present (file w) (du_name datasetUpdate) →
     CompiledBuild.commitDatasetUpdate project datasetUpdate w
     = (inl (InvalidStatusValue (default EmptyString (du_status datasetUpdate))),
        stored (mkGraph
                  (entities (file w)
                   ++ [mkEntity (du_name datasetUpdate) "dataset"
                         ["size:" +:+ JS.orElse (du_size datasetUpdate) "unknown";
                          "variables:"
                            +:+ JS.orElse (du_variables datasetUpdate) "unknown";
                          JS.orElse (du_description datasetUpdate)
                                    "No description"]])
                  (relations (file w))))).
Proof.
  intros Hstatus Hbad. apply includes_false in Hbad.
  destruct (searchNodes_returns ("name:" +:+ du_name datasetUpdate) w)
    as (datasetGraph & Hsearch & Hres).
  assert (∀ w0, CompiledBuild.setStatusIf (du_name datasetUpdate)
                  (du_status datasetUpdate) w0
                = (inl (InvalidStatusValue
                          (default EmptyString (du_status datasetUpdate))), w0))
    as Hset.
  { intros w0. unfold CompiledBuild.setStatusIf. rewrite Hstatus.
    by rewrite setEntityStatus_eq, Hbad. }
  unfold CompiledBuild.commitDatasetUpdate. split.
  - unfold mbind at 1, M_bind at 1. rewrite Hsearch.
    destruct (entities datasetGraph) as [|datasetEntity others];
      unfold mbind, M_bind.
    + destruct (createEntities _ (stored (file w))) as [[e|created] w0];
        [by eexists _, _|].
      rewrite Hset. by eexists _, _.
    + destruct (deleteObservations _ (stored (file w))) as [[e|[]] w0];
        [by eexists _, _|].
      destruct (addObservations _ w0) as [[e|added] w1]; [by eexists _, _|].
      rewrite Hset. by eexists _, _.
  - intros Hhits Hvalid Hnew. rewrite Hhits in Hres.
    unfold mbind at 1, M_bind at 1. rewrite Hsearch, <- Hres.
    unfold mbind, M_bind. rewrite createEntities_eq.
    cbn [firstFailure file stored]. unfold entityFailure. cbn [entityType].
    rewrite Hvalid. cbv zeta. rewrite filter_cons_True, filter_nil by done.
    by rewrite Hset.
Qed.

Lemma compiled_dataset_status_rejected_witness :
  let u := mkDatasetUpdate "Survey" (Some "250") (Some "12") (Some "cleaned")
                           None in
  JS.truthy (du_status u) = true
  ∧ (default EmptyString (du_status u) ∉ VALID_STATUS_VALUES)
  ∧ CompiledBuild.commitDatasetUpdate (H := compiled_build) "P" u
      (stored (mkGraph [mkEntity "P" "project" []] []))
    = (inl (InvalidStatusValue "cleaned"),
       stored (mkGraph [mkEntity "P" "project" [];
                        mkEntity "Survey" "dataset"
                          ["size:250"; "variables:12"; "No description"]]
                       [])).
Proof.
  intros u.
  assert (JS.truthy (du_status u) = true) as Hstatus by reflexivity.
  assert (default EmptyString (du_status u) ∉ VALID_STATUS_VALUES) as Hbad.
  { apply includes_false. reflexivity. }
  split; [exact Hstatus|]. split; [exact Hbad|].
  apply (proj2 (compiled_dataset_status_rejected (H := compiled_build) "P" u
                  (stored (mkGraph [mkEntity "P" "project" []] []))
                  Hstatus Hbad)).
  - vm_compute; reflexivity.
  - reflexivity.
  - unfold present. simpl. intros Hin.
    apply list_elem_of_singleton in Hin. discriminate Hin.
Defined.
